(** * Cash Cleaner packing optimiser: a shallow embedding and its properties

    The development follows [cash_cleaner_optimizer.py].  Python integers are
    [Z]; [//] and [%] are [Z.div] and [Z.modulo] (both floor, as in Python)
    guarded against a zero divisor; dictionaries are [gmap]s; exceptions are
    the [Raise] outcome of the [result] type.  The two depth-first searches
    mutate one scratch list [cur] and append to one output list [out]: both
    are threaded explicitly through the recursion and through the [for]
    loops, and [cur.copy()] is the value of [cur] at the time of the append.

    The callers of the solver follow it: the pretty printers, the reader of
    the [--stock] argument and [main] of the same file, and the handler
    [optimize] of [app.py].  What they read from outside (the parsed
    command line, the body of the request) is an argument; what they write
    (standard output, the answer) is part of the result. *)

From Stdlib Require Import ZArith List Lia Bool Ascii String QArith.
From stdpp Require Import base gmap strings list fin_maps sorting pretty.

Local Open Scope Z_scope.

(** ** Exceptions and the error monad *)

Inductive exn : Type :=
  | KeyError
  | IndexError
  | ValueError
  | ZeroDivisionError
  | DanglingReference
  | RecursionError.

Inductive result (A : Type) : Type :=
  | Ok (a : A)
  | Raise (e : exn).
Arguments Ok {A} a.
Arguments Raise {A} e.

#[global] Instance result_ret : MRet result := λ A a, Ok a.
#[global] Instance result_bind : MBind result := λ A B f m,
  match m with
  | Ok a => f a
  | Raise e => Raise e
  end.

(** A [for] loop over a list whose body updates a loop state and may raise. *)
Fixpoint for_each {A S : Type} (xs : list A) (body : A → S → result S) (s : S)
    : result S :=
  match xs with
  | [] => Ok s
  | x :: xs' => s' ← body x s; for_each xs' body s'
  end.

(** ** Python primitives *)

(** [range(start, stop)] *)
Definition range (start stop : Z) : list Z := seqZ start (stop - start).

(** [l[i]] for a non-negative index. *)
Definition list_getitem {A : Type} (l : list A) (i : nat) : result A :=
  match l !! i with
  | Some x => Ok x
  | None => Raise IndexError
  end.

(** [l[i] = x] for a non-negative index. *)
Definition list_setitem {A : Type} (l : list A) (i : nat) (x : A)
    : result (list A) :=
  if bool_decide (i < length l)%nat then Ok (<[i:=x]> l) else Raise IndexError.

(** [m[k]] *)
Definition dict_getitem (m : gmap Z Z) (k : Z) : result Z :=
  match m !! k with
  | Some v => Ok v
  | None => Raise KeyError
  end.

(** [a // b] *)
Definition floordiv (a b : Z) : result Z :=
  if bool_decide (b = 0) then Raise ZeroDivisionError else Ok (a `div` b).

(** [sum(l)] *)
Definition sum (l : list Z) : Z := foldr Z.add 0 l.

(** [min(l)]: raises on an empty sequence. *)
Definition py_min (l : list Z) : result Z :=
  match l with
  | [] => Raise ValueError
  | x :: l' => Ok (foldl Z.min x l')
  end.

(** [sorted(l, reverse=True)] on integers. *)
Fixpoint insert_desc (x : Z) (l : list Z) : list Z :=
  match l with
  | [] => [x]
  | y :: l' => if bool_decide (y < x) then x :: y :: l' else y :: insert_desc x l'
  end.

Definition sorted_reverse (l : list Z) : list Z := foldr insert_desc [] l.

(** ** Configuration *)

Definition BUNDLE_SIZE : Z := 100.
Definition BLOCK_SIZE : Z := 30.
Definition _INFTY : Z := 10 ^ 9.

(** ** Ideal-block solver *)

(** [fuel] is the number of further calls the search may nest.
    [_enumerate_ideal_configs] supplies [len(denoms)], which the recursion
    never exhausts: the model has no call stack, and describes the runs in
    which the interpreter's limit on nested calls is not reached (see
    [max_denominations]). *)
Fixpoint _search_blocks (fuel : nat) (denoms : list Z) (blocks : Z) (i : nat)
    (bundles_left value_left : Z) (cur : list Z) (out : list (Z * list Z))
    (stock : gmap Z Z) {struct fuel} : result (list Z * list (Z * list Z)) :=
  if bool_decide (Z.of_nat i = Z.of_nat (length denoms) - 1) then
    d ← list_getitem denoms i;
    let needed_bundles := if bool_decide (d = 0) then 0 else value_left `div` d in
    if bool_decide (value_left = d * needed_bundles)
       && bool_decide (needed_bundles = bundles_left) then
      s ← dict_getitem stock d;
      if bool_decide (needed_bundles ≤ s) then
        cur ← list_setitem cur i needed_bundles;
        Ok (cur, out ++ [(blocks, cur)])
      else Ok (cur, out)
    else Ok (cur, out)
  else
    d ← list_getitem denoms i;
    s ← dict_getitem stock d;
    q ← floordiv value_left d;
    let max_for_d := Z.min (Z.min bundles_left s) q in
    match fuel with
    | O => Raise RecursionError
    | S fuel' =>
      '(cur, out) ← for_each (range 0 (max_for_d + 1))
        (λ b '(cur, out),
           cur ← list_setitem cur i b;
           _search_blocks fuel' denoms blocks (S i) (bundles_left - b)
             (value_left - d * b) cur out stock)
        (cur, out);
      cur ← list_setitem cur i 0;
      Ok (cur, out)
    end.

(** [sum(stock[d] for d in denoms)] *)
Definition sum_stock (stock : gmap Z Z) (denoms : list Z) : result Z :=
  for_each denoms (λ d acc, s ← dict_getitem stock d; Ok (acc + s)) 0.

(** The [for blocks in range(1, max_blocks + 1)] loop with its [break]. *)
Fixpoint blocks_loop (denoms : list Z) (units total_stock_bundles : Z)
    (stock : gmap Z Z) (bs : list Z) (cur : list Z)
    (solutions : list (Z * list Z)) : result (list Z * list (Z * list Z)) :=
  match bs with
  | [] => Ok (cur, solutions)
  | blocks :: bs' =>
    let bundles_total := blocks * BLOCK_SIZE in
    if bool_decide (bundles_total > total_stock_bundles) then Ok (cur, solutions)
    else
      '(cur, solutions) ← _search_blocks (length denoms) denoms blocks 0
        bundles_total units cur solutions stock;
      blocks_loop denoms units total_stock_bundles stock bs' cur solutions
  end.

Definition _enumerate_ideal_configs (amount : Z) (denoms : list Z)
    (stock : gmap Z Z) : result (list (Z * list Z)) :=
  if bool_decide (amount `mod` BUNDLE_SIZE ≠ 0) then Ok []
  else
    let units := amount `div` BUNDLE_SIZE in
    let denoms := sorted_reverse denoms in
    m ← py_min denoms;
    let smallest_bundle_value := m * BUNDLE_SIZE in
    theoretical_max_blocks ← floordiv amount (smallest_bundle_value * BLOCK_SIZE);
    total_stock_bundles ← sum_stock stock denoms;
    let max_blocks :=
      Z.min theoretical_max_blocks (total_stock_bundles `div` BLOCK_SIZE) in
    let cur := replicate (length denoms) 0 in
    '(_, solutions) ← blocks_loop denoms units total_stock_bundles stock
      (range 1 (max_blocks + 1)) cur [];
    Ok solutions.

(** ** Loose-bundle fallback *)

(** [fuel] as in [_search_blocks]; [_enumerate_loose_configs] supplies
    [len(denoms)]. *)
Fixpoint _search_bundles (fuel : nat) (denoms : list Z) (i : nat)
    (value_left : Z) (cur : list Z) (out : list (list Z)) (stock : gmap Z Z)
    {struct fuel} : result (list Z * list (list Z)) :=
  if bool_decide (Z.of_nat i = Z.of_nat (length denoms) - 1) then
    d ← list_getitem denoms i;
    let needed := if bool_decide (d = 0) then 0 else value_left `div` d in
    if bool_decide (value_left = d * needed) then
      s ← dict_getitem stock d;
      if bool_decide (needed ≤ s) then
        cur ← list_setitem cur i needed;
        Ok (cur, out ++ [cur])
      else Ok (cur, out)
    else Ok (cur, out)
  else
    d ← list_getitem denoms i;
    s ← dict_getitem stock d;
    q ← floordiv value_left d;
    let max_for_d := Z.min s q in
    match fuel with
    | O => Raise RecursionError
    | S fuel' =>
      '(cur, out) ← for_each (range 0 (max_for_d + 1))
        (λ b '(cur, out),
           cur ← list_setitem cur i b;
           _search_bundles fuel' denoms (S i) (value_left - d * b) cur out stock)
        (cur, out);
      cur ← list_setitem cur i 0;
      Ok (cur, out)
    end.

Definition _enumerate_loose_configs (amount : Z) (denoms : list Z)
    (stock : gmap Z Z) : result (list (list Z)) :=
  if bool_decide (amount `mod` BUNDLE_SIZE ≠ 0) then Ok []
  else
    let units := amount `div` BUNDLE_SIZE in
    let denoms := sorted_reverse denoms in
    let cur := replicate (length denoms) 0 in
    '(_, out) ← _search_bundles (length denoms) denoms 0 units cur [] stock;
    Ok out.

(** ** Variant scoring helpers *)

(** Python floats.  Only the operations the scoring keys use are needed:
    true division of two integers with a non-zero divisor, unary minus, and
    the comparisons [<] and [==].  The carrier stands for the doubles that
    are not NaN (an integer quotient never is one).  Python raises
    [OverflowError] for a quotient beyond the range of a double; the
    quotients taken here are averages of denominations, and that case is
    not modelled. *)
Class PyFloat : Type := {
  float : Type;
  fdiv : Z → Z → float;
  fneg : float → float;
  flt : float → float → bool;
  feq : float → float → bool;
}.

(** On these floats [<] is a strict weak order and [==] is its
    incomparability relation. *)
Class PyFloatLaws (PF : PyFloat) : Prop := {
  flt_asym : ∀ x y : float, flt x y = true → flt y x = false;
  flt_cotrans : ∀ x y z : float, flt x z = true → flt x y = true ∨ flt y z = true;
  feq_spec : ∀ x y : float, feq x y = true ↔ flt x y = false ∧ flt y x = false;
}.

(** [a / b] on integers. *)
Definition truediv `{PyFloat} (a b : Z) : result float :=
  if bool_decide (b = 0) then Raise ZeroDivisionError else Ok (fdiv a b).

(** [sum(1 for c in bundle_counts if c)] *)
Definition kinds_of (bundle_counts : list Z) : Z :=
  sum ((λ _, 1) <$> filter (λ c, c ≠ 0) bundle_counts).

(** [sum(d * c for d, c in zip(denoms, bundle_counts))] *)
Definition weighted (denoms bundle_counts : list Z) : Z :=
  sum (zip_with Z.mul denoms bundle_counts).

Definition score `{PyFloat} : Type := Z * Z * float.

Definition _score_ideal `{PyFloat} (blocks : Z) (bundle_counts denoms : list Z)
    : result score :=
  let kinds := kinds_of bundle_counts in
  avg ← truediv (weighted denoms bundle_counts) (sum bundle_counts);
  Ok (blocks, kinds, fneg avg).

Definition _score_loose `{PyFloat} (bundle_counts denoms : list Z)
    : result score :=
  let total_bundles := sum bundle_counts in
  let kinds := kinds_of bundle_counts in
  avg ← truediv (weighted denoms bundle_counts) total_bundles;
  Ok (total_bundles, kinds, fneg avg).

(** Tuple comparison [a < b] and [a == b] on score keys: the first
    differing component decides. *)
Definition score_lt `{PyFloat} (a b : score) : bool :=
  let '(a1, a2, a3) := a in
  let '(b1, b2, b3) := b in
  if negb (bool_decide (a1 = b1)) then bool_decide (a1 < b1)
  else if negb (bool_decide (a2 = b2)) then bool_decide (a2 < b2)
  else if negb (feq a3 b3) then flt a3 b3
  else false.

Definition score_eq `{PyFloat} (a b : score) : bool :=
  let '(a1, a2, a3) := a in
  let '(b1, b2, b3) := b in
  bool_decide (a1 = b1) && bool_decide (a2 = b2) && feq a3 b3.

(** [l.sort(key=key)]: the keys are computed first, one call per element in
    list order, and the sort is stable and compares keys with [<] only. *)
Fixpoint map_result {A B : Type} (f : A → result B) (l : list A)
    : result (list B) :=
  match l with
  | [] => Ok []
  | x :: l' => y ← f x; ys ← map_result f l'; Ok (y :: ys)
  end.

Fixpoint insert_keyed `{PyFloat} {A : Type} (x : score * A)
    (l : list (score * A)) : list (score * A) :=
  match l with
  | [] => [x]
  | y :: l' =>
    if score_lt y.1 x.1 then y :: insert_keyed x l' else x :: y :: l'
  end.

Definition sort_keyed `{PyFloat} {A : Type} (l : list (score * A))
    : list (score * A) :=
  foldr insert_keyed [] l.

Definition list_sort `{PyFloat} {A : Type} (key : A → result score)
    (l : list A) : result (list A) :=
  keys ← map_result key l;
  Ok ((sort_keyed (zip keys l)).*2).

(** [list(islice(l, stop))]: [stop] must lie between 0 and [sys.maxsize],
    which is [2 ** 63 - 1] on a 64-bit CPython. *)
Definition sys_maxsize : Z := 2 ^ 63 - 1.

Definition islice {A : Type} (l : list A) (stop : Z) : result (list A) :=
  if bool_decide (0 ≤ stop ≤ sys_maxsize) then Ok (take (Z.to_nat stop) l)
  else Raise ValueError.

(** [s.upper()] on ASCII strings. *)
Definition ascii_upper (c : ascii) : ascii :=
  let n := nat_of_ascii c in
  if (Nat.leb 97 n && Nat.leb n 122)%bool then ascii_of_nat (n - 32) else c.

Fixpoint upper (s : string) : string :=
  match s with
  | EmptyString => EmptyString
  | String c s' => String (ascii_upper c) (upper s')
  end.

(** ** The objects a caller can observe

    The module-level table [CURRENCIES] and the dictionaries that exist when
    a public function is entered (among them the caller's [bundles_stock])
    live in a store; a dictionary is reached through its location, so two
    names of one dictionary see each other's writes. *)

Definition loc : Type := positive.

Record store : Type := {
  currencies : gmap string (list Z);
  dicts : gmap loc (gmap Z Z);
}.

Definition CURRENCIES : gmap string (list Z) :=
  <["USD" := [100; 50; 20; 10]]>
    (<["EUR" := [100; 50; 20]]>
      (<["JPY" := [10000; 5000; 1000]]> ∅)).

Definition M (A : Type) : Type := store → result A * store.

#[global] Instance M_ret : MRet M := λ A a s, (Ok a, s).
#[global] Instance M_bind : MBind M := λ A B f m s,
  match m s with
  | (Ok a, s') => f a s'
  | (Raise e, s') => (Raise e, s')
  end.

Definition lift {A : Type} (r : result A) : M A := λ s, (r, s).

(** [CURRENCIES[code]] *)
Definition currencies_getitem (code : string) : M (list Z) := λ s,
  match currencies s !! code with
  | Some denoms => (Ok denoms, s)
  | None => (Raise KeyError, s)
  end.

(** A new dictionary object with the given content. *)
Definition dict_new (m : gmap Z Z) : M loc := λ s,
  let l := fresh (dom (dicts s)) in
  (Ok l, {| currencies := currencies s; dicts := <[l:=m]> (dicts s) |}).

(** The current content of the dictionary at [l]. *)
Definition dict_deref (l : loc) : M (gmap Z Z) := λ s,
  match dicts s !! l with
  | Some m => (Ok m, s)
  | None => (Raise DanglingReference, s)
  end.

(** [l[k] = v] *)
Definition dict_setitem (l : loc) (k v : Z) : M unit := λ s,
  match dicts s !! l with
  | Some m =>
    (Ok (), {| currencies := currencies s; dicts := <[l:=<[k:=v]> m]> (dicts s) |})
  | None => (Raise DanglingReference, s)
  end.

Fixpoint for_eachM {A : Type} (xs : list A) (body : A → M unit) : M unit :=
  match xs with
  | [] => mret ()
  | x :: xs' => _ ← body x; for_eachM xs' body
  end.

(** ** Public APIs *)

Definition _normalise_stock (denoms : list Z) (bundles_stock : option loc)
    : M loc :=
  stock ← dict_new (list_to_map ((λ d, (d, _INFTY)) <$> denoms));
  match bundles_stock with
  | None => mret stock
  | Some b =>
    m ← dict_deref b;
    if bool_decide (m ≠ ∅) then
      _ ← for_eachM (map_to_list m) (λ '(d, qty), dict_setitem stock d qty);
      mret stock
    else mret stock
  end.

(** The searches only read [stock], so they are given its content once
    [_normalise_stock] has built it. *)
Definition find_ideal_block_variants `{PyFloat} (amount : Z)
    (currency_code : string) (max_variants : Z) (bundles_stock : option loc)
    : M (list (Z * list Z)) :=
  denoms ← currencies_getitem (upper currency_code);
  stock ← _normalise_stock denoms bundles_stock;
  stock ← dict_deref stock;
  lift (raw ← _enumerate_ideal_configs amount denoms stock;
        raw ← list_sort (λ tpl, _score_ideal tpl.1 tpl.2 denoms) raw;
        islice raw max_variants).

Definition find_loose_bundle_variants `{PyFloat} (amount : Z)
    (currency_code : string) (max_variants : Z) (bundles_stock : option loc)
    : M (list (list Z)) :=
  denoms ← currencies_getitem (upper currency_code);
  stock ← _normalise_stock denoms bundles_stock;
  stock ← dict_deref stock;
  lift (raw ← _enumerate_loose_configs amount denoms stock;
        raw ← list_sort (λ bc, _score_loose bc denoms) raw;
        islice raw max_variants).

(** ** Specification vocabulary *)

(** A denomination list in descending order. *)
Definition descending (l : list Z) : Prop := StronglySorted (λ a b, b ≤ a) l.

(** Denominations as every entry of [CURRENCIES] has them: positive, and at
    least two of them. *)
Definition regular (denoms : list Z) : Prop :=
  Forall (λ d, 0 < d) denoms ∧ (2 ≤ length denoms)%nat.

(** A search nests one call for each denomination, and CPython nests at
    most [sys.getrecursionlimit()] calls, 1000 unless the program changes
    it, which this one does not, the calls of the callers included: with
    more denominations than that leaves, a search ends in [RecursionError].
    A list of at most [max_denominations] denominations is searched to the
    end whenever the enumeration is itself called at a depth of at most
    500. *)
Definition max_denominations : nat := 500.

(** [c[i] <= stock[denoms[i]]] for every index [i]. *)
Definition within_stock (stock : gmap Z Z) (denoms c : list Z) : Prop :=
  ∀ (i : nat) (d ci : Z), denoms !! i = Some d → c !! i = Some ci →
    ∃ s, stock !! d = Some s ∧ ci ≤ s.

(** Position by position, a count is within the stock of its denomination. *)
Definition stock_bounds (stock : gmap Z Z) (ds bs : list Z) : Prop :=
  Forall2 (λ d b, ∃ s, stock !! d = Some s ∧ b ≤ s) ds bs.

(** A grouped solution in the sense of the data model: a whole number of
    blocks, one non-negative count per denomination, the exact amount, and
    no count above its stock. *)
Definition feasible_grouped (denoms : list Z) (stock : gmap Z Z) (amount : Z)
    (x : Z * list Z) : Prop :=
  1 ≤ x.1 ∧ length x.2 = length denoms ∧ Forall (λ b, 0 ≤ b) x.2 ∧
  sum x.2 = x.1 * BLOCK_SIZE ∧ weighted denoms x.2 * BUNDLE_SIZE = amount ∧
  within_stock stock denoms x.2.

(** A loose solution: the same without the block constraint. *)
Definition feasible_loose (denoms : list Z) (stock : gmap Z Z) (amount : Z)
    (c : list Z) : Prop :=
  length c = length denoms ∧ Forall (λ b, 0 ≤ b) c ∧
  weighted denoms c * BUNDLE_SIZE = amount ∧ within_stock stock denoms c.

(** [x] occurs before [y] in [l]. *)
Definition before {A : Type} (x y : A) (l : list A) : Prop :=
  ∃ l1 l2 l3, l = l1 ++ x :: l2 ++ y :: l3.

(** [l] is in ascending order of [key]: no element has a key smaller than
    the key of an element before it. *)
Definition ascending_by `{PyFloat} {A : Type} (key : A → result score)
    (l : list A) : Prop :=
  StronglySorted (λ a b, ∃ ka kb, key a = Ok ka ∧ key b = Ok kb ∧
                                  score_lt kb ka = false) l.

(** The scoring keys in the words of the specification, over the
    denominations in descending order: the average bundle value is
    [sum(denom[i] * config[i]) / sum(config)], the grouped key is
    (block count, denominations used, minus the average), the loose key is
    (bundle count, denominations used, minus the average). *)
Definition average_bundle_value `{PyFloat} (denom config : list Z)
    : result float :=
  truediv (weighted denom config) (sum config).

Definition grouped_key `{PyFloat} (denom : list Z) (x : Z * list Z)
    : result score :=
  avg ← average_bundle_value denom x.2; Ok (x.1, kinds_of x.2, fneg avg).

Definition loose_key `{PyFloat} (denom : list Z) (config : list Z)
    : result score :=
  avg ← average_bundle_value denom config;
  Ok (sum config, kinds_of config, fneg avg).

(** ** The stock a search is given *)

(** The stock in which every denomination is unlimited. *)
Definition unlimited (denoms : list Z) : gmap Z Z :=
  list_to_map ((λ d, (d, _INFTY)) <$> denoms).

(** The content of the caller's [bundles_stock], if there is one. *)
Definition caller_stock (s : store) (bundles_stock : option loc)
    : option (gmap Z Z) :=
  b ← bundles_stock; dicts s !! b.

(** The normalised stock: the caller's count where there is one, the
    sentinel for the other denominations. *)
Definition normalised (denoms : list Z) (given : option (gmap Z Z))
    : gmap Z Z :=
  match given with
  | Some m => m ∪ unlimited denoms
  | None => unlimited denoms
  end.

(** The ceiling the normalised stock puts on a denomination: the caller's
    count if the caller's mapping has the denomination, the sentinel
    otherwise. *)
Definition stock_limit (given : option (gmap Z Z)) (d : Z) : Z :=
  default _INFTY (given ≫= (.!! d)).

(** A [bundles_stock] argument is [None] or names an existing dictionary. *)
Definition valid_ref (s : store) (bundles_stock : option loc) : Prop :=
  match bundles_stock with
  | Some b => is_Some (dicts s !! b)
  | None => True
  end.

(** ** What the searches do, level by level *)

(** The choices the ideal-block search can make from a level on: [ds] are
    the denominations still to be decided, [bs] the bundle counts chosen for
    them.  Each clause repeats the guard of the corresponding branch of
    [_search_blocks]. *)
Fixpoint block_path (stock : gmap Z Z) (ds : list Z)
    (bundles_left value_left : Z) (bs : list Z) : Prop :=
  match ds, bs with
  | d :: ds', b :: bs' =>
    match ds' with
    | [] =>
      bs' = [] ∧
      b = (if bool_decide (d = 0) then 0 else value_left `div` d) ∧
      value_left = d * b ∧ b = bundles_left ∧
      ∃ s, stock !! d = Some s ∧ b ≤ s
    | _ :: _ =>
      d ≠ 0 ∧
      (∃ s, stock !! d = Some s ∧
            0 ≤ b ≤ Z.min (Z.min bundles_left s) (value_left `div` d)) ∧
      block_path stock ds' (bundles_left - b) (value_left - d * b) bs'
    end
  | _, _ => False
  end.

(** The same for [_search_bundles]. *)
Fixpoint bundle_path (stock : gmap Z Z) (ds : list Z) (value_left : Z)
    (bs : list Z) : Prop :=
  match ds, bs with
  | d :: ds', b :: bs' =>
    match ds' with
    | [] =>
      bs' = [] ∧
      b = (if bool_decide (d = 0) then 0 else value_left `div` d) ∧
      value_left = d * b ∧
      ∃ s, stock !! d = Some s ∧ b ≤ s
    | _ :: _ =>
      d ≠ 0 ∧
      (∃ s, stock !! d = Some s ∧ 0 ≤ b ≤ Z.min s (value_left `div` d)) ∧
      bundle_path stock ds' (value_left - d * b) bs'
    end
  | _, _ => False
  end.

(** What a search call leaves behind: the scratch list keeps its length and
    its first [i] entries, and the output grows by a duplicate-free list of
    exactly the elements satisfying [P]. *)
Definition dfs_post {X : Type} (i : nat) (P : X → Prop)
    (st st' : list Z * list X) : Prop :=
  length st'.1 = length st.1 ∧
  take i st'.1 = take i st.1 ∧
  ∃ ext, st'.2 = st.2 ++ ext ∧ NoDup ext ∧ ∀ x, x ∈ ext ↔ P x.

(** Every level of a search can be entered without an exception: the stock
    has an entry for each denomination and no denomination but possibly the
    last is zero. *)
Fixpoint levels_ok (stock : gmap Z Z) (ds : list Z) : Prop :=
  match ds with
  | [] => False
  | d :: ds' =>
    is_Some (stock !! d) ∧
    match ds' with
    | [] => True
    | _ :: _ => d ≠ 0 ∧ levels_ok stock ds'
    end
  end.

(** ** Stores, stocks and a float model to run the functions in *)

(** The store when the module has been loaded and no dictionary exists. *)
Definition initial_store : store := {| currencies := CURRENCIES; dicts := ∅ |}.

(** The store of a caller that holds one stock dictionary, at location 1. *)
Definition store_with (stock : gmap Z Z) : store :=
  {| currencies := CURRENCIES; dicts := {[1%positive := stock]} |}.

(** Scenario B: the USD denominations and the caller's partial stock. *)
Definition usd : list Z := [100; 50; 20; 10].
Definition scenario_B_stock : gmap Z Z := <[100 := 18]> (<[50 := 40]> ∅).

(** A small order: three bundles of 100 and four of 50 in stock. *)
Definition small_stock : gmap Z Z := <[100 := 3]> (<[50 := 4]> ∅).

(** Exact rationals with their order: a model of [PyFloat] in which the
    public functions can be run. *)
Definition Q_float : PyFloat := {|
  float := Q;
  fdiv := λ a b, Qmake (a * Z.sgn b) (Z.to_pos (Z.abs b));
  fneg := Qopp;
  flt := λ x y, negb (Qle_bool y x);
  feq := Qeq_bool;
|}.

(** ** Text

    A Python [str] is kept as the bytes of its UTF-8 encoding: the texts of
    the pretty printers and of the command line are only concatenated,
    joined, and split at ASCII characters. *)

Definition NL : string := String "010" EmptyString.
Definition ESC : string := String "027" EmptyString.

(** The exceptions of the callers, besides those of the solver. *)
Inductive exception : Type :=
  | Builtin (e : exn)
  | TypeError
  | AttributeError
  | OverflowError
  | ArgumentTypeError (message : string)
  | SystemExit (message : string).

Inductive outcome (A : Type) : Type :=
  | Returned (a : A)
  | Raised (e : exception).
Arguments Returned {A} a.
Arguments Raised {A} e.

#[global] Instance outcome_ret : MRet outcome := λ A a, Returned a.
#[global] Instance outcome_bind : MBind outcome := λ A B f m,
  match m with
  | Returned a => f a
  | Raised e => Raised e
  end.

Definition of_result {A : Type} (r : result A) : outcome A :=
  match r with
  | Ok a => Returned a
  | Raise e => Raised (Builtin e)
  end.

(** A [for] loop whose body may raise one of these. *)
Fixpoint for_loop {A S : Type} (xs : list A) (body : A → S → outcome S) (s : S)
    : outcome S :=
  match xs with
  | [] => Returned s
  | x :: xs' => s' ← body x s; for_loop xs' body s'
  end.

(** Rendering an integer in base ten, as [str(n)] and the [format]
    specifications do: CPython refuses an integer of more than
    [sys.get_int_max_str_digits()] digits, 4300 unless configured
    otherwise, with [ValueError]. *)
Definition int_max_str_digits : Z := 4300.
Definition str_limit : Z := 10 ^ int_max_str_digits.

Definition str_of_int (n : Z) : result string :=
  if bool_decide (Z.abs n < str_limit) then Ok (pretty n) else Raise ValueError.

(** [format(n, ">2")]: right-aligned in a field of two characters. *)
Definition rjust (width : nat) (s : string) : string :=
  String.concat "" (replicate (width - String.length s) " ") +:+ s.

Definition format_rjust2 (n : Z) : result string :=
  s ← str_of_int n; Ok (rjust 2 s).

(** [format(n, ",")]: a comma before every group of three digits, counted
    from the right; the sign stays in front. *)
Fixpoint group3 (digits_rev : list ascii) : list ascii :=
  match digits_rev with
  | a :: b :: c :: (_ :: _) as rest => a :: b :: c :: ","%char :: group3 rest
  | _ => digits_rev
  end.

Definition thousands (digits : string) : string :=
  string_of_list_ascii (rev (group3 (rev (list_ascii_of_string digits)))).

Definition format_thousands (n : Z) : result string :=
  if bool_decide (Z.abs n < str_limit) then
    Ok (if bool_decide (n < 0) then "-" +:+ thousands (pretty (- n))
        else thousands (pretty n))
  else Raise ValueError.

(** [s.split(sep)] for a separator of one character. *)
Fixpoint split (sep : ascii) (s : string) : list string :=
  match s with
  | EmptyString => [EmptyString]
  | String c s' =>
    if Ascii.eqb c sep then EmptyString :: split sep s'
    else match split sep s' with
         | [] => [String c EmptyString]
         | piece :: pieces => String c piece :: pieces
         end
  end.

(** ** Colourised text *)

Definition RESET : string := ESC +:+ "[0m".

(** The module-level dictionary [DENOM_COLOURS] as it is when the module
    has been loaded.  [main] can empty it, so the functions that read it
    are given its current content. *)
Definition DENOM_COLOURS : gmap Z string :=
  list_to_map
    [(100, ESC +:+ "[93m"); (50, ESC +:+ "[38;5;208m"); (20, ESC +:+ "[94m");
     (10, ESC +:+ "[92m"); (10000, ESC +:+ "[93m");
     (5000, ESC +:+ "[38;5;208m"); (1000, ESC +:+ "[92m")].

Definition _c (colours : gmap Z string) (text : string) (denom : Z) : string :=
  default "" (colours !! denom) +:+ text +:+ RESET.

(** ** Pretty printers *)

(** Both printers run the same loop over [zip(denoms, bundle_counts)].  One
    turn of it: a denomination in use adds a line and its value. *)
Definition describe_row (colours : gmap Z string) (pair : Z * Z)
    (state : list string * Z) : result (list string * Z) :=
  let '(d, b) := pair in
  let '(lines, total) := state in
  if bool_decide (b ≠ 0) then
    let value := d * b * BUNDLE_SIZE in
    let total := total + value in
    fb ← format_rjust2 b;
    sd ← str_of_int d;
    fv ← format_thousands value;
    Ok (lines ++ ["  • " +:+ _c colours (fb +:+ " × bundles of " +:+ sd) d
                    +:+ " → " +:+ fv],
        total)
  else Ok (lines, total).

(** The loop, from the lines so far and a total of zero. *)
Definition describe_rows (colours : gmap Z string)
    (denoms bundle_counts : list Z) (lines : list string)
    : result (list string * Z) :=
  for_each (zip denoms bundle_counts) (describe_row colours) (lines, 0).

Definition _describe_ideal (colours : gmap Z string) (blocks : Z)
    (bundle_counts denoms : list Z) : result string :=
  sb ← str_of_int blocks;
  sn ← str_of_int (blocks * BLOCK_SIZE);
  let lines := [sb +:+ " ideal block(s) = " +:+ sn +:+ " bundles"] in
  '(lines, total) ← describe_rows colours denoms bundle_counts lines;
  ft ← format_thousands total;
  Ok (String.concat NL (lines ++ ["TOTAL: " +:+ ft])).

Definition _describe_loose (colours : gmap Z string)
    (bundle_counts denoms : list Z) : result string :=
  let total_bundles := sum bundle_counts in
  sn ← str_of_int total_bundles;
  let lines := ["No ideal blocks – " +:+ sn +:+ " bundle(s)"] in
  '(lines, total) ← describe_rows colours denoms bundle_counts lines;
  ft ← format_thousands total;
  Ok (String.concat NL (lines ++ ["TOTAL: " +:+ ft])).

(** ** CLI helpers *)

(** [int(s)] on a string: [None] stands for [ValueError].  The literals
    Python accepts (surrounding white space, a sign, digits of any script,
    single underscores between digits, at most 4300 digits) are left to
    the instance. *)
Class PyInt : Type := {
  int_of_str : string → option Z;
}.

(** One turn of the loop of [_parse_stock_arg]: the fragment [entry] is
    taken apart, checked, and entered in [out]. *)
Definition parse_entry `{PI : PyInt} (denoms : list Z) (entry : string)
    (out : gmap Z Z) : outcome (gmap Z Z) :=
  match
    match split "=" entry with
    | [denom_s; qty_s] =>
      denom ← int_of_str denom_s; qty ← int_of_str qty_s; Some (denom, qty)
    | _ => None
    end
  with
  | None =>
    Raised (ArgumentTypeError
      ("Invalid --stock fragment '" +:+ entry +:+ "'. Use DENOM=QTY"))
  | Some (denom, qty) =>
    if bool_decide (denom ∉ denoms) then
      sd ← of_result (str_of_int denom);
      Raised (ArgumentTypeError
        ("Denomination " +:+ sd +:+ " not valid for this currency"))
    else if bool_decide (qty < 0) then
      Raised (ArgumentTypeError "Stock quantities must be non‑negative")
    else Returned (<[denom := qty]> out)
  end.

Definition _parse_stock_arg `{PI : PyInt} (spec : string) (denoms : list Z)
    : outcome (gmap Z Z) :=
  if bool_decide (spec = "") then Returned ∅
  else for_loop (split "," spec) (parse_entry denoms) ∅.

(** What [_cli_args] returns: the parsed command line.  [argparse] has
    converted [amount] and [num] with [int] and has checked [currency]
    against the keys of [CURRENCIES]. *)
Record Namespace : Type := {
  args_amount : Z;
  args_currency : string;
  args_num : Z;
  args_no_colour : bool;
  args_stock : option string;
}.

(** What [main] can change: the dictionaries, the colour table, and the
    text written to standard output. *)
Record process : Type := {
  heap : store;
  colours : gmap Z string;
  stdout : string;
}.

Definition IO (A : Type) : Type := process → outcome A * process.

#[global] Instance IO_ret : MRet IO := λ A a p, (Returned a, p).
#[global] Instance IO_bind : MBind IO := λ A B f m p,
  match m p with
  | (Returned a, p') => f a p'
  | (Raised e, p') => (Raised e, p')
  end.

Definition in_heap {A : Type} (m : M A) : IO A := λ p,
  let '(r, h) := m (heap p) in
  (of_result r, {| heap := h; colours := colours p; stdout := stdout p |}).

Definition raise {A : Type} (e : exception) : IO A := λ p, (Raised e, p).

Definition lift_outcome {A : Type} (o : outcome A) : IO A := λ p, (o, p).

(** [DENOM_COLOURS.clear()] *)
Definition clear_colours : IO unit := λ p,
  (Returned (), {| heap := heap p; colours := ∅; stdout := stdout p |}).

Definition get_colours : IO (gmap Z string) := λ p, (Returned (colours p), p).

(** [print(text)] *)
Definition print (text : string) : IO unit := λ p,
  (Returned (),
   {| heap := heap p; colours := colours p;
      stdout := stdout p +:+ text +:+ NL |}).

(** The line [main] puts between two descriptions. *)
Definition descr : string := NL +:+ String.concat "" (replicate 60 "-") +:+ NL.

(** [main], from the parsed command line on. *)
Definition main `{PF : PyFloat} `{PI : PyInt} (args : Namespace) : IO unit :=
  _ ← (if args_no_colour args then clear_colours else mret ());
  table ← in_heap (currencies_getitem (upper (args_currency args)));
  let denoms := sorted_reverse table in
  bundles_stock ←
    match args_stock args with
    | Some spec =>
      if bool_decide (spec ≠ "") then
        m ← lift_outcome (_parse_stock_arg spec denoms);
        l ← in_heap (dict_new m);
        mret (Some l)
      else mret None
    | None => mret None
    end;
  ideal_variants ← in_heap (find_ideal_block_variants (args_amount args)
    (args_currency args) (args_num args) bundles_stock);
  if bool_decide (ideal_variants ≠ []) then
    now ← get_colours;
    texts ← lift_outcome (of_result (map_result
      (λ '(b, counts), _describe_ideal now b counts denoms) ideal_variants));
    print (String.concat descr texts)
  else
    loose_variants ← in_heap (find_loose_bundle_variants (args_amount args)
      (args_currency args) (args_num args) bundles_stock);
    if bool_decide (loose_variants ≠ []) then
      _ ← print ("⚠ No ideal block possible. Showing loose‑bundle variants:"
                 +:+ NL);
      now ← get_colours;
      texts ← lift_outcome (of_result (map_result
        (λ counts, _describe_loose now counts denoms) loose_variants));
      print (String.concat descr texts)
    else
      raise (SystemExit
        "✘ Cannot fulfil order with given stock (even without ideal blocks).").

(** The stock [main] passes to the searches: none without [--stock] or with
    an empty one, what [_parse_stock_arg] returns otherwise. *)
Definition parsed_stock `{PI : PyInt} (args : Namespace) (denoms : list Z)
    (given : option (gmap Z Z)) : Prop :=
  match args_stock args with
  | Some spec =>
    if bool_decide (spec ≠ "") then
      ∃ m, _parse_stock_arg spec denoms = Returned m ∧ given = Some m
    else given = None
  | None => given = None
  end.

(** ** The web handler of [app.py]

    [request.get_json()] yields a value of the types [json.loads] produces;
    [jsonify] is given a dictionary and, for errors, a status code. *)

#[local] Unset Elimination Schemes.
Inductive json `{PyFloat} : Type :=
  | JNull
  | JBool (b : bool)
  | JInt (n : Z)
  | JFloat (f : float)
  | JStr (s : string)
  | JList (l : list json)
  | JDict (items : list (string * json)).
#[local] Set Elimination Schemes.

(** [int(f)] and [bool(f)] on a float: [int] truncates, and raises
    [ValueError] on a NaN and [OverflowError] on an infinity. *)
Inductive truncation : Type :=
  | Truncated (n : Z)
  | NotANumber
  | Infinite.

Class PyNumber `{PyFloat} : Type := {
  int_of_float : float → truncation;
  bool_of_float : float → bool;
}.

(** [d.get(key, default)] on the items of a dictionary. *)
Definition dict_get `{PyFloat} (items : list (string * json)) (key : string)
    (default : json) : json :=
  match list_find (λ kv, kv.1 = key) items with
  | Some (_, (_, v)) => v
  | None => default
  end.

(** [data.get(key, default)]: only a dictionary has the method. *)
Definition json_get `{PyFloat} (data : json) (key : string) (default : json)
    : outcome json :=
  match data with
  | JDict items => Returned (dict_get items key default)
  | _ => Raised AttributeError
  end.

(** [int(v)] *)
Definition py_int `{PF : PyFloat} `{PN : !PyNumber} `{PI : PyInt} (v : json) : outcome Z :=
  match v with
  | JBool b => Returned (if b then 1 else 0)
  | JInt n => Returned n
  | JFloat f =>
    match int_of_float f with
    | Truncated n => Returned n
    | NotANumber => Raised (Builtin ValueError)
    | Infinite => Raised OverflowError
    end
  | JStr s =>
    match int_of_str s with
    | Some n => Returned n
    | None => Raised (Builtin ValueError)
    end
  | JNull | JList _ | JDict _ => Raised TypeError
  end.

(** The truth value of [v]. *)
Definition py_bool `{PF : PyFloat} `{PN : !PyNumber} (v : json) : bool :=
  match v with
  | JNull => false
  | JBool b => b
  | JInt n => bool_decide (n ≠ 0)
  | JFloat f => bool_of_float f
  | JStr s => bool_decide (s ≠ "")
  | JList l => bool_decide (l ≠ [])
  | JDict items => bool_decide (items ≠ [])
  end.

(** [v.upper()]: only a string has the method. *)
Definition py_upper `{PyFloat} (v : json) : outcome string :=
  match v with
  | JStr s => Returned (upper s)
  | _ => Raised AttributeError
  end.

(** [v.items()]: only a dictionary has the method. *)
Definition py_items `{PyFloat} (v : json) : outcome (list (string * json)) :=
  match v with
  | JDict items => Returned items
  | _ => Raised AttributeError
  end.

(** The dictionaries the handler builds for a variant and for the answer;
    the fields are the keys, prefixed. *)
Record breakdown_entry : Type := {
  b_denomination : Z;
  b_bundles : Z;
  b_value : Z;
}.

Record variant : Type := {
  v_type : string;
  v_blocks : Z;
  v_total_bundles : Z;
  v_breakdown : list breakdown_entry;
  v_total_value : Z;
}.

Record optimisation : Type := {
  r_success : bool;
  r_amount : Z;
  r_currency : string;
  r_bundle_size : Z;
  r_block_size : Z;
  r_has_ideal : bool;
  r_variants : list variant;
}.

(** What the handler returns: [jsonify(result)], or
    [jsonify({'error': message})] with status 400, or with status 500 the
    text of the exception caught, which is kept as the exception. *)
Inductive response : Type :=
  | Json200 (result : optimisation)
  | Json400 (error : string)
  | Json500 (e : exception).

(** The loop over [stock_data.items()]: it ends the request with a
    message on a [ValueError], and otherwise leaves [bundles_stock]. *)
Fixpoint stock_loop `{PF : PyFloat} `{PN : !PyNumber} `{PI : PyInt}
    (items : list (string * json)) (bundles_stock : gmap Z Z)
    : outcome (string + gmap Z Z) :=
  match items with
  | [] => Returned (inr bundles_stock)
  | (denom_str, qty_str) :: items' =>
    match int_of_str denom_str with
    | None =>
      Returned (inl ("Invalid stock data for denomination " +:+ denom_str))
    | Some denom =>
      match (if py_bool qty_str then py_int qty_str else Returned 0) with
      | Returned qty =>
        stock_loop items'
          (if bool_decide (qty > 0) then <[denom := qty]> bundles_stock
           else bundles_stock)
      | Raised (Builtin ValueError) =>
        Returned (inl ("Invalid stock data for denomination " +:+ denom_str))
      | Raised e => Raised e
      end
    end
  end.

(** One turn of the loop over [enumerate(zip(denoms, bundle_counts))]: a
    denomination in use adds an entry to the breakdown and its value to
    the total. *)
Definition breakdown_step (state : list breakdown_entry * Z) (pair : Z * Z)
    : list breakdown_entry * Z :=
  let '(breakdown, total_value) := state in
  let '(denom, count) := pair in
  if bool_decide (count > 0) then
    let value := denom * count * BUNDLE_SIZE in
    (breakdown ++ [{| b_denomination := denom; b_bundles := count;
                      b_value := value |}],
     total_value + value)
  else (breakdown, total_value).

Definition breakdown_of (denoms bundle_counts : list Z)
    : list breakdown_entry * Z :=
  foldl breakdown_step ([], 0) (zip denoms bundle_counts).

Definition ideal_variant (denoms : list Z) (x : Z * list Z) : variant :=
  let '(blocks, bundle_counts) := x in
  let '(breakdown, total_value) := breakdown_of denoms bundle_counts in
  {| v_type := "ideal"; v_blocks := blocks;
     v_total_bundles := blocks * BLOCK_SIZE;
     v_breakdown := breakdown; v_total_value := total_value |}.

Definition loose_variant (denoms : list Z) (bundle_counts : list Z) : variant :=
  let '(breakdown, total_value) := breakdown_of denoms bundle_counts in
  {| v_type := "loose"; v_blocks := 0;
     v_total_bundles := sum bundle_counts;
     v_breakdown := breakdown; v_total_value := total_value |}.

Definition W (A : Type) : Type := store → outcome A * store.

#[global] Instance W_ret : MRet W := λ A a s, (Returned a, s).
#[global] Instance W_bind : MBind W := λ A B f m s,
  match m s with
  | (Returned a, s') => f a s'
  | (Raised e, s') => (Raised e, s')
  end.

Definition run {A : Type} (m : M A) : W A := λ s,
  let '(r, s') := m s in (of_result r, s').

Definition pure {A : Type} (o : outcome A) : W A := λ s, (o, s).

(** [bundles_stock or None] *)
Definition or_None (content : gmap Z Z) (l : loc) : option loc :=
  if bool_decide (content ≠ ∅) then Some l else None.

(** [optimize] from the comment [# Try ideal blocks first] on: the two
    searches and the answer built from what they return. *)
Definition optimize_search `{PF : PyFloat} (amount : Z) (currency : string)
    (max_variants : Z) (content : gmap Z Z) : W response :=
  bundles_stock ← run (dict_new content);
  ideal_variants ← run (find_ideal_block_variants amount currency
    max_variants (or_None content bundles_stock));
  let result variants := {|
    r_success := true; r_amount := amount; r_currency := currency;
    r_bundle_size := BUNDLE_SIZE; r_block_size := BLOCK_SIZE;
    r_has_ideal := bool_decide (ideal_variants ≠ []);
    r_variants := variants |} in
  table ← run (currencies_getitem currency);
  let denoms := sorted_reverse table in
  if bool_decide (ideal_variants ≠ []) then
    mret (Json200 (result (ideal_variant denoms <$> ideal_variants)))
  else
    loose_variants ← run (find_loose_bundle_variants amount currency
      max_variants (or_None content bundles_stock));
    if bool_decide (loose_variants ≠ []) then
      mret (Json200 (result (loose_variant denoms <$> loose_variants)))
    else mret (Json400 "Cannot fulfill order with given stock").

(** The body of the [try] statement of [optimize]: the request is read,
    checked, and its stock converted; then the searches are run. *)
Definition optimize_body `{PF : PyFloat} `{PN : !PyNumber} `{PI : PyInt}
    (data : json) : W response :=
  amount ← pure (json_get data "amount" (JInt 0) ≫= py_int);
  currency ← pure (json_get data "currency" (JStr "USD") ≫= py_upper);
  stock_data ← pure (json_get data "stock" (JDict []));
  max_variants ← pure (json_get data "max_variants" (JInt 5) ≫= py_int);
  if bool_decide (amount ≤ 0) then mret (Json400 "Amount must be positive")
  else
    table ← (λ s, (Returned (currencies s), s));
    if bool_decide (currency ∉ dom table) then
      mret (Json400 ("Currency " +:+ currency +:+ " not supported"))
    else if bool_decide (amount `mod` BUNDLE_SIZE ≠ 0) then
      mret (Json400 ("Amount must be divisible by " +:+ pretty BUNDLE_SIZE))
    else
      items ← pure (if py_bool stock_data then py_items stock_data
                    else Returned []);
      parsed ← pure (stock_loop items ∅);
      match parsed with
      | inl message => mret (Json400 message)
      | inr content => optimize_search amount currency max_variants content
      end.

(** [optimize]: whatever the body raises becomes an answer of status 500
    (the body raises no [SystemExit], the one exception of this model that
    [except Exception] would let through). *)
Definition optimize `{PF : PyFloat} `{PN : !PyNumber} `{PI : PyInt} (data : json)
    : store → response * store := λ s,
  match optimize_body data s with
  | (Returned answer, s') => (answer, s')
  | (Raised e, s') => (Json500 e, s')
  end.

(** The request [data] reads as an order: its fields convert to [amount],
    [currency] and [max_variants], and its stock to [content]. *)
Definition reads_as `{PF : PyFloat} `{PN : !PyNumber} `{PI : PyInt}
    (data : json) (amount : Z) (currency : string) (max_variants : Z)
    (content : gmap Z Z) : Prop :=
  json_get data "amount" (JInt 0) ≫= py_int = Returned amount ∧
  json_get data "currency" (JStr "USD") ≫= py_upper = Returned currency ∧
  json_get data "max_variants" (JInt 5) ≫= py_int = Returned max_variants ∧
  ∃ stock_data items,
    json_get data "stock" (JDict []) = Returned stock_data ∧
    (if py_bool stock_data then py_items stock_data else Returned [])
      = Returned items ∧
    stock_loop items ∅ = Returned (inr content).

(** ** Readers and numbers to run the callers with *)

(** A reader of plain decimal literals, an optional sign before ASCII
    digits: an [int] for strings in which the examples can be run. *)
Fixpoint digits_value (acc : Z) (s : string) : option Z :=
  match s with
  | EmptyString => Some acc
  | String c s' =>
    d ← Ascii.is_nat c; digits_value (10 * acc + Z.of_nat d) s'
  end.

Definition decimal_value (s : string) : option Z :=
  match s with
  | EmptyString => None
  | String c s' =>
    if Ascii.eqb c "-" then
      (if bool_decide (s' = "") then None else Z.opp <$> digits_value 0 s')
    else if Ascii.eqb c "+" then
      (if bool_decide (s' = "") then None else digits_value 0 s')
    else digits_value 0 s
  end.

Definition decimal_int : PyInt := {| int_of_str := decimal_value |}.

(** Truncation and truth of the exact rationals of [Q_float]. *)
Definition Q_number : PyNumber (H := Q_float) := {|
  int_of_float := (λ q : Q, Truncated (Z.quot (Qnum q) (Zpos (Qden q))))
                  : @float Q_float → truncation;
  bool_of_float := (λ q : Q, negb (Qeq_bool q 0)) : @float Q_float → bool;
|}.

(** A process that has just loaded the module. *)
Definition initial_process : process :=
  {| heap := initial_store; colours := DENOM_COLOURS; stdout := "" |}.

(** The command line [30000 USD --stock 10=30]. *)
Definition sample_args : Namespace :=
  {| args_amount := 30000; args_currency := "USD"; args_num := 5;
     args_no_colour := false; args_stock := Some "10=30" |}.

(** A request for 10000 EUR and one variant, and the answer to it. *)
Definition sample_request : json (H := Q_float) :=
  JDict [("amount", JStr "10000"); ("currency", JStr "eur");
         ("max_variants", JInt 1)].

Definition sample_answer : optimisation :=
  {| r_success := true; r_amount := 10000; r_currency := "EUR";
     r_bundle_size := 100; r_block_size := 30; r_has_ideal := false;
     r_variants :=
       [{| v_type := "loose"; v_blocks := 0; v_total_bundles := 1;
           v_breakdown := [{| b_denomination := 100; b_bundles := 1;
                              b_value := 10000 |}];
           v_total_value := 10000 |}] |}.

(** Lexicographic order on lists of bundle counts, the count of the
    largest denomination first. *)
Fixpoint lex_lt (a b : list Z) : Prop :=
  match a, b with
  | x :: a', y :: b' => x < y ∨ (x = y ∧ lex_lt a' b')
  | _, _ => False
  end.

(** ** Running the model *)

(** Scenario A of the specification: 300000 in USD with unlimited stock; one
    block of thirty bundles of 100 comes first. *)
Example scenario_A :
  (find_ideal_block_variants (H := Q_float) 300000 "USD" 3 None
     initial_store).1
  = Ok [(1, [30; 0; 0; 0]); (2, [0; 60; 0; 0]); (2, [3; 52; 5; 0])].
Proof. vm_compute. reflexivity. Qed.

(** The loose search emits in depth-first order, smallest counts of the
    largest denomination first. *)
Example loose_enumeration_order :
  _enumerate_loose_configs 10000 usd (normalised usd (Some small_stock))
  = Ok [[0; 0; 0; 10]; [0; 0; 1; 8]; [0; 0; 2; 6]; [0; 0; 3; 4];
        [0; 0; 4; 2]; [0; 0; 5; 0]; [0; 1; 0; 5]; [0; 1; 1; 3];
        [0; 1; 2; 1]; [0; 2; 0; 0]; [1; 0; 0; 0]].
Proof. vm_compute. reflexivity. Qed.

(** A fallback: the stock admits no whole block, the loose search finds the
    one combination. *)
Example fallback :
  let s := store_with (<[100 := 2]> (<[50 := 1]> (<[20 := 0]> (<[10 := 10]> ∅)))) in
  (find_ideal_block_variants (H := Q_float) 35000 "USD" 3 (Some 1%positive) s).1
    = Ok [] ∧
  (find_loose_bundle_variants (H := Q_float) 35000 "USD" 3 (Some 1%positive) s).1
    = Ok [[2; 1; 0; 10]].
Proof. split; vm_compute; reflexivity. Qed.

(** The description of the third variant of scenario A. *)
Example describe_scenario_A :
  _describe_ideal ∅ 2 [3; 52; 5; 0] usd =
  Ok ("2 ideal block(s) = 60 bundles" +:+ NL +:+
      "  •  3 × bundles of 100" +:+ RESET +:+ " → 30,000" +:+ NL +:+
      "  • 52 × bundles of 50" +:+ RESET +:+ " → 260,000" +:+ NL +:+
      "  •  5 × bundles of 20" +:+ RESET +:+ " → 10,000" +:+ NL +:+
      "TOTAL: 300,000").
Proof. vm_compute. reflexivity. Qed.

(** The stock of the usage example, and a malformed one. *)
Example parse_usage :
  _parse_stock_arg (PI := decimal_int) "100=18,50=40" usd
    = Returned scenario_B_stock ∧
  _parse_stock_arg (PI := decimal_int) "100=18," usd
    = Raised (ArgumentTypeError "Invalid --stock fragment ''. Use DENOM=QTY").
Proof. split; vm_compute; reflexivity. Qed.

(** An order that cannot be met ends the run with the message. *)
Example main_cannot_fulfil :
  (main (PF := Q_float) (PI := decimal_int)
     {| args_amount := 35000; args_currency := "USD"; args_num := 5;
        args_no_colour := false; args_stock := Some "100=2,50=1,20=0,10=0" |}
     initial_process).1
  = Raised (SystemExit
      "✘ Cannot fulfil order with given stock (even without ideal blocks).").
Proof. vm_compute. reflexivity. Qed.

(** The handler answers the sample request; a request that is no
    dictionary gets status 500, a stock of the wrong kind status 400. *)
Example optimize_samples :
  (optimize (PN := Q_number) (PI := decimal_int) sample_request
     initial_store).1 = Json200 sample_answer ∧
  (optimize (PN := Q_number) (PI := decimal_int) (JList []) initial_store).1
    = Json500 AttributeError ∧
  (optimize (PN := Q_number) (PI := decimal_int)
     (JDict [("amount", JInt 10000); ("stock", JDict [("100", JStr "many")])])
     initial_store).1
    = Json400 "Invalid stock data for denomination 100".
Proof. split_and!; vm_compute; reflexivity. Qed.

(** With the same stock sent to the handler the quantities of zero are
    dropped, and the order is met by a block of bundles of 20 and of 10. *)
Example optimize_zero_stock :
  ∃ res,
    (optimize (PN := Q_number) (PI := decimal_int)
       (JDict [("amount", JInt 35000); ("max_variants", JInt 1);
               ("stock", JDict [("100", JStr "2"); ("50", JStr "1");
                                ("20", JStr "0"); ("10", JStr "0")])])
       initial_store).1 = Json200 res ∧
    r_has_ideal res = true ∧
    v_breakdown <$> r_variants res =
      [[{| b_denomination := 20; b_bundles := 5; b_value := 10000 |};
        {| b_denomination := 10; b_bundles := 25; b_value := 25000 |}]].
Proof. eexists. split_and!; vm_compute; reflexivity. Qed.

(** ** The error monad and loops *)

Lemma bind_Ok {A B : Type} (m : result A) (f : A → result B) (b : B) :
  (m ≫= f) = Ok b ↔ ∃ a, m = Ok a ∧ f a = Ok b.
Proof.
  destruct m as [a|e]; simpl; split.
  - intros H. by exists a.
  - by intros (a' & [= <-] & H).
  - done.
  - by intros (a' & ? & _).
Qed.

Ltac inv_bind H :=
  let a := fresh "a" in
  let Ha := fresh "Ha" in
  apply bind_Ok in H as (a & Ha & H).

Lemma list_getitem_Ok {A : Type} (l : list A) (i : nat) (x : A) :
  list_getitem l i = Ok x ↔ l !! i = Some x.
Proof.
  unfold list_getitem. destruct (l !! i); split; try done.
  - by intros [= ->].
  - by intros [= ->].
Qed.

Lemma list_setitem_Ok {A : Type} (l l' : list A) (i : nat) (x : A) :
  list_setitem l i x = Ok l' ↔ (i < length l)%nat ∧ l' = <[i:=x]> l.
Proof.
  unfold list_setitem. case_bool_decide; split; try done.
  - by intros [= <-].
  - by intros [_ ->].
  - by intros [? _].
Qed.

Lemma dict_getitem_Ok (m : gmap Z Z) (k v : Z) :
  dict_getitem m k = Ok v ↔ m !! k = Some v.
Proof.
  unfold dict_getitem. destruct (m !! k); split; try done.
  - by intros [= ->].
  - by intros [= ->].
Qed.

Lemma floordiv_Ok (a b q : Z) :
  floordiv a b = Ok q ↔ b ≠ 0 ∧ q = a `div` b.
Proof.
  unfold floordiv. case_bool_decide; split; try done.
  - by intros [? _].
  - by intros [= <-].
  - by intros [_ ->].
Qed.

Lemma elem_of_range (x start stop : Z) :
  x ∈ range start stop ↔ start ≤ x < stop.
Proof. unfold range. rewrite elem_of_seqZ. lia. Qed.

Lemma NoDup_range (start stop : Z) : NoDup (range start stop).
Proof. apply NoDup_seqZ. Qed.

Lemma take_S_insert (cur : list Z) (i : nat) (b : Z) :
  (i < length cur)%nat → take (S i) (<[i:=b]> cur) = take i cur ++ [b].
Proof.
  intros Hi. rewrite (take_S_r _ _ b).
  - by rewrite take_insert_ge by lia.
  - by apply list_lookup_insert_eq.
Qed.

Lemma take_insert_same (cur : list Z) (i : nat) (b : Z) :
  take i (<[i:=b]> cur) = take i cur.
Proof. by rewrite take_insert_ge by lia. Qed.

Section loops.
Context {X : Type}.
Implicit Types (st : list Z * list X) (P : Z → X → Prop).

Lemma dfs_post_refl i st : dfs_post i (λ _ : X, False) st st.
Proof.
  split_and!; [done..|]. exists []. rewrite app_nil_r.
  split_and!; [done|constructor|]. intros x. by rewrite elem_of_nil.
Qed.

Lemma dfs_post_iff i (Q Q' : X → Prop) st st' :
  (∀ x, Q x ↔ Q' x) → dfs_post i Q st st' → dfs_post i Q' st st'.
Proof.
  intros HQ (Hl & Ht & ext & He & Hn & Hx). split_and!; [done..|].
  exists ext. split_and!; [done..|]. intros x. by rewrite Hx.
Qed.

Lemma dfs_post_trans i (Q1 Q2 : X → Prop) st1 st2 st3 :
  (∀ x, Q1 x → Q2 x → False) →
  dfs_post i Q1 st1 st2 → dfs_post i Q2 st2 st3 →
  dfs_post i (λ x, Q1 x ∨ Q2 x) st1 st3.
Proof.
  intros Hd (Hl1 & Ht1 & e1 & He1 & Hn1 & Hx1) (Hl2 & Ht2 & e2 & He2 & Hn2 & Hx2).
  split_and!; [congruence..|]. exists (e1 ++ e2). split_and!.
  - by rewrite He2, He1, app_assoc.
  - apply NoDup_app. split_and!; [done| |done].
    intros x H1%Hx1 H2%Hx2. eauto.
  - intros x. rewrite elem_of_app, Hx1, Hx2. done.
Qed.

(** The [for b in range(...)] loop of a search: iteration [b] contributes
    the elements of [P b], and different iterations contribute different
    elements. *)
Lemma for_each_post i (xs : list Z) body P st0 :
  NoDup xs →
  (∀ b b' x, P b x → P b' x → b = b') →
  (∀ b st1 st2, b ∈ xs → body b st1 = Ok st2 →
     length st1.1 = length st0.1 → take i st1.1 = take i st0.1 →
     dfs_post i (P b) st1 st2) →
  ∀ st st', length st.1 = length st0.1 → take i st.1 = take i st0.1 →
    for_each xs body st = Ok st' →
    dfs_post i (λ x, ∃ b, b ∈ xs ∧ P b x) st st'.
Proof.
  intros Hnd Hinj. induction xs as [|b xs IH]; intros Hbody st st' Hl Ht Hrun.
  - simpl in Hrun. injection Hrun as <-.
    eapply dfs_post_iff; [|apply dfs_post_refl].
    intros x. split; [done|]. intros (b & Hb & _). by apply elem_of_nil in Hb.
  - simpl in Hrun. inv_bind Hrun. apply NoDup_cons in Hnd as [Hb Hnd].
    pose proof (Hbody b st a (list_elem_of_here _ _) Ha Hl Ht) as H1.
    assert (dfs_post i (λ x, ∃ b', b' ∈ xs ∧ P b' x) a st') as H2.
    { destruct H1 as (Hl1 & Ht1 & _). apply IH; [done| |congruence..|done].
      intros b' st1 st2 Hb'. apply Hbody. by apply list_elem_of_further. }
    eapply dfs_post_iff; [|eapply dfs_post_trans; [|exact H1|exact H2]].
    + intros x. split.
      * intros [H|(b' & Hb' & H)]; [exists b|exists b']; split; try done.
        -- apply list_elem_of_here.
        -- by apply list_elem_of_further.
      * intros (b' & [->|Hb']%elem_of_cons & H); eauto.
    + intros x Hx (b' & Hb' & Hx'). by rewrite (Hinj _ _ _ Hx Hx') in Hb.
Qed.

(** The loop raises nothing when no iteration does. *)
Lemma for_each_total (xs : list Z) body (n : nat) :
  (∀ b st1, b ∈ xs → length st1.1 = n →
     ∃ st2, body b st1 = Ok st2 ∧ length st2.1 = n) →
  ∀ st, length st.1 = n →
    ∃ st', for_each xs body st = Ok st' ∧ length st'.1 = n.
Proof.
  induction xs as [|b xs IH]; intros Hbody st Hl.
  - by exists st.
  - destruct (Hbody b st (list_elem_of_here _ _) Hl) as (st2 & H2 & Hl2).
    destruct (IH (λ b' st1 Hb', Hbody b' st1 (list_elem_of_further _ _ _ Hb')) st2 Hl2)
      as (st' & H' & Hl').
    exists st'. simpl. by rewrite H2.
Qed.
End loops.

Lemma drop_last_lookup {A : Type} (l : list A) (i : nat) (x : A) :
  l !! i = Some x → S i = length l → drop i l = [x].
Proof.
  intros Hx Hl. rewrite (drop_S _ x) by done. by rewrite drop_ge by lia.
Qed.

Lemma drop_cons_lookup {A : Type} (l : list A) (i : nat) (x : A) :
  l !! i = Some x → S i ≠ length l →
  ∃ y l', drop i l = x :: y :: l' ∧ drop (S i) l = y :: l'.
Proof.
  intros Hx Hl. pose proof (lookup_lt_Some _ _ _ Hx) as Hlt.
  rewrite (drop_S _ x) by done.
  destruct (drop (S i) l) as [|y l'] eqn:Hd; [|by eauto].
  apply (f_equal length) in Hd. rewrite length_drop in Hd. simpl in Hd. lia.
Qed.

Lemma insert_last_take (cur : list Z) (i : nat) (b : Z) :
  length cur = S i → <[i:=b]> cur = take i cur ++ [b].
Proof.
  intros Hl. rewrite <-take_S_insert by lia.
  by rewrite take_ge by (rewrite length_insert; lia).
Qed.

Lemma block_path_last stock d bl vl bs :
  block_path stock [d] bl vl bs ↔
  ∃ b, bs = [b] ∧ b = (if bool_decide (d = 0) then 0 else vl `div` d) ∧
       vl = d * b ∧ b = bl ∧ ∃ s, stock !! d = Some s ∧ b ≤ s.
Proof.
  destruct bs as [|b bs']; simpl; [split; [done|by intros (? & ? & _)]|]. split.
  - intros (-> & H). by exists b.
  - intros (b' & [= <- ->] & H). done.
Qed.

Lemma block_path_cons stock d y ds bl vl bs :
  block_path stock (d :: y :: ds) bl vl bs ↔
  ∃ b bs', bs = b :: bs' ∧ d ≠ 0 ∧
    (∃ s, stock !! d = Some s ∧ 0 ≤ b ≤ Z.min (Z.min bl s) (vl `div` d)) ∧
    block_path stock (y :: ds) (bl - b) (vl - d * b) bs'.
Proof.
  destruct bs as [|b bs']; [simpl; split; [done|by intros (? & ? & ? & _)]|]. split.
  - intros H. exists b, bs'. done.
  - intros (b' & bs'' & [= <- <-] & H). done.
Qed.

Section post.
Context {X : Type}.
Implicit Types (st : list Z * list X).

Lemma dfs_post_step i b (Q Q' : X → Prop) (cur1 : list Z) out1 st2 :
  (i < length cur1)%nat →
  (∀ x, Q x ↔ Q' x) →
  dfs_post (S i) Q (<[i:=b]> cur1, out1) st2 →
  dfs_post i Q' (cur1, out1) st2.
Proof.
  intros Hi HQ (Hl & Ht & ext & He & Hn & Hx). simpl in *.
  rewrite length_insert in Hl. split_and!; simpl; [done| |].
  - apply (f_equal (take i)) in Ht. rewrite !take_take in Ht.
    rewrite !Nat.min_l in Ht by lia. by rewrite take_insert_same in Ht.
  - exists ext. split_and!; [done..|]. intros x. by rewrite Hx.
Qed.

Lemma dfs_post_reset i (Q : X → Prop) st (curL : list Z) outL :
  dfs_post i Q st (curL, outL) → dfs_post i Q st (<[i:=0]> curL, outL).
Proof.
  intros (Hl & Ht & H). split_and!; simpl in *; [|by rewrite take_insert_same|done].
  by rewrite length_insert.
Qed.
End post.


Lemma blocks_leaf_post (denoms : list Z) (blocks : Z) (i : nat) (bl vl : Z)
    (cur : list Z) (out : list (Z * list Z)) (stock : gmap Z Z) st' :
  length cur = length denoms →
  Z.of_nat i = Z.of_nat (length denoms) - 1 →
  (d ← list_getitem denoms i;
   let needed_bundles := if bool_decide (d = 0) then 0 else vl `div` d in
   if bool_decide (vl = d * needed_bundles)
      && bool_decide (needed_bundles = bl) then
     s ← dict_getitem stock d;
     if bool_decide (needed_bundles ≤ s) then
       cur ← list_setitem cur i needed_bundles;
       Ok (cur, out ++ [(blocks, cur)])
     else Ok (cur, out)
   else Ok (cur, out)) = Ok st' →
  dfs_post i (λ x, ∃ bs, x = (blocks, take i cur ++ bs) ∧
                     block_path stock (drop i denoms) bl vl bs) (cur, out) st'.
Proof.
  intros Hlen Hi H. apply bind_Ok in H as (d & Hd%list_getitem_Ok & H).
  rewrite (drop_last_lookup _ _ _ Hd) by lia. cbv zeta in H.
  set (n := if bool_decide (d = 0) then 0 else vl `div` d) in *.
  assert (∀ x : Z * list Z,
    (∃ bs, x = (blocks, take i cur ++ bs) ∧ block_path stock [d] bl vl bs) ↔
    x = (blocks, take i cur ++ [n]) ∧ vl = d * n ∧ n = bl ∧
      ∃ s, stock !! d = Some s ∧ n ≤ s) as Hchar.
  { intros x. split.
    - intros (bs & -> & (b & -> & -> & H1 & H2 & H3)%block_path_last). done.
    - intros (-> & H1 & H2 & H3). eexists. split; [done|].
      apply block_path_last. by exists n. }
  destruct (bool_decide (vl = d * n) && bool_decide (n = bl)) eqn:Hc.
  - apply andb_prop in Hc as [Hc1%bool_decide_eq_true Hc2%bool_decide_eq_true].
    apply bind_Ok in H as (s & Hs%dict_getitem_Ok & H).
    case_bool_decide as Hle.
    + apply bind_Ok in H as (cur' & [Hlt ->]%list_setitem_Ok & H).
      injection H as <-. rewrite (insert_last_take cur i) by lia.
      split_and!; simpl.
      * rewrite length_app, length_take. simpl. lia.
      * rewrite take_app_le by (rewrite length_take; lia).
        by rewrite take_take, Nat.min_id.
      * eexists [_]. split_and!; [done|apply NoDup_singleton|].
        intros x. rewrite Hchar, list_elem_of_singleton.
        split; [intros ->; eauto 10|by intros [-> _]].
    + injection H as <-. eapply dfs_post_iff; [|apply dfs_post_refl].
      intros x. rewrite Hchar. split; [done|].
      intros (_ & _ & _ & s' & Hs' & Hle'). rewrite Hs in Hs'.
      injection Hs' as <-. done.
  - injection H as <-. eapply dfs_post_iff; [|apply dfs_post_refl].
    intros x. rewrite Hchar. split; [done|]. intros (_ & H1 & H2 & _).
    rewrite !bool_decide_eq_true_2 in Hc by done. done.
Qed.

Lemma search_blocks_post fuel : ∀ denoms blocks i bl vl cur out stock st',
  length cur = length denoms →
  _search_blocks fuel denoms blocks i bl vl cur out stock = Ok st' →
  dfs_post i (λ x, ∃ bs, x = (blocks, take i cur ++ bs) ∧
                     block_path stock (drop i denoms) bl vl bs) (cur, out) st'.
Proof.
  induction fuel as [|fuel IH]; intros denoms blocks i bl vl cur out stock st' Hlen H;
    cbn [_search_blocks] in H; case_bool_decide as Hi.
  - by apply blocks_leaf_post.
  - apply bind_Ok in H as (? & _ & H). apply bind_Ok in H as (? & _ & H).
    by apply bind_Ok in H as (? & _ & H).
  - by apply blocks_leaf_post.
  - apply bind_Ok in H as (d & Hd%list_getitem_Ok & H).
    apply bind_Ok in H as (s & Hs%dict_getitem_Ok & H).
    apply bind_Ok in H as (q & [Hd0 ->]%floordiv_Ok & H).
    apply bind_Ok in H as ([curL outL] & Hloop & H).
    apply bind_Ok in H as (cur' & [_ ->]%list_setitem_Ok & H).
    injection H as <-.
    pose proof (lookup_lt_Some _ _ _ Hd) as Hilt.
    destruct (drop_cons_lookup _ _ _ Hd) as (y & ds & Hdr & Hdr'); [lia|].
    rewrite Hdr. apply dfs_post_reset.
    eapply dfs_post_iff; [|eapply (for_each_post i _ _
      (λ b x, ∃ bs', x = (blocks, take i cur ++ b :: bs') ∧
                block_path stock (drop (S i) denoms) (bl - b) (vl - d * b) bs'));
      [apply NoDup_range| | |done|done|exact Hloop]].
    + intros x. rewrite Hdr'. setoid_rewrite elem_of_range. split.
      * intros (b & Hb & bs' & -> & Hp). eexists. split; [done|].
        apply block_path_cons. exists b, bs'. split_and!; [done..| |done].
        exists s. split; [done|lia].
      * intros (bs & -> & (b & bs' & -> & _ & (s' & Hs' & Hb) & Hp)%block_path_cons).
        rewrite Hs in Hs'. injection Hs' as <-.
        exists b. split; [lia|]. by exists bs'.
    + intros b b' x (bs1 & -> & _) (bs2 & Heq & _).
      injection Heq as Heq. apply app_inv_head in Heq. by injection Heq.
    + intros b [cur1 out1] st2 _ Hbody Hl1 Ht1. simpl in *.
      apply bind_Ok in Hbody as (cur2 & [Hlt ->]%list_setitem_Ok & Hbody).
      apply IH in Hbody; [|by rewrite length_insert; congruence].
      eapply dfs_post_step; [done| |exact Hbody].
      intros x. rewrite take_S_insert by done. rewrite Ht1.
      by setoid_rewrite <-app_assoc.
Qed.

Lemma bundle_path_last stock d vl bs :
  bundle_path stock [d] vl bs ↔
  ∃ b, bs = [b] ∧ b = (if bool_decide (d = 0) then 0 else vl `div` d) ∧
       vl = d * b ∧ ∃ s, stock !! d = Some s ∧ b ≤ s.
Proof.
  destruct bs as [|b bs']; simpl; [split; [done|by intros (? & ? & _)]|]. split.
  - intros (-> & H). by exists b.
  - intros (b' & [= <- ->] & H). done.
Qed.

Lemma bundle_path_cons stock d y ds vl bs :
  bundle_path stock (d :: y :: ds) vl bs ↔
  ∃ b bs', bs = b :: bs' ∧ d ≠ 0 ∧
    (∃ s, stock !! d = Some s ∧ 0 ≤ b ≤ Z.min s (vl `div` d)) ∧
    bundle_path stock (y :: ds) (vl - d * b) bs'.
Proof.
  destruct bs as [|b bs']; [simpl; split; [done|by intros (? & ? & ? & _)]|]. split.
  - intros H. exists b, bs'. done.
  - intros (b' & bs'' & [= <- <-] & H). done.
Qed.

Lemma bundles_leaf_post (denoms : list Z) (i : nat) (vl : Z)
    (cur : list Z) (out : list (list Z)) (stock : gmap Z Z) st' :
  length cur = length denoms →
  Z.of_nat i = Z.of_nat (length denoms) - 1 →
  (d ← list_getitem denoms i;
   let needed := if bool_decide (d = 0) then 0 else vl `div` d in
   if bool_decide (vl = d * needed) then
     s ← dict_getitem stock d;
     if bool_decide (needed ≤ s) then
       cur ← list_setitem cur i needed;
       Ok (cur, out ++ [cur])
     else Ok (cur, out)
   else Ok (cur, out)) = Ok st' →
  dfs_post i (λ x, ∃ bs, x = take i cur ++ bs ∧
                     bundle_path stock (drop i denoms) vl bs) (cur, out) st'.
Proof.
  intros Hlen Hi H. apply bind_Ok in H as (d & Hd%list_getitem_Ok & H).
  rewrite (drop_last_lookup _ _ _ Hd) by lia. cbv zeta in H.
  set (n := if bool_decide (d = 0) then 0 else vl `div` d) in *.
  assert (∀ x : list Z,
    (∃ bs, x = take i cur ++ bs ∧ bundle_path stock [d] vl bs) ↔
    x = take i cur ++ [n] ∧ vl = d * n ∧
      ∃ s, stock !! d = Some s ∧ n ≤ s) as Hchar.
  { intros x. split.
    - intros (bs & -> & (b & -> & -> & H1 & H2)%bundle_path_last). done.
    - intros (-> & H1 & H2). eexists. split; [done|].
      apply bundle_path_last. by exists n. }
  case_bool_decide as Hc.
  - apply bind_Ok in H as (s & Hs%dict_getitem_Ok & H).
    case_bool_decide as Hle.
    + apply bind_Ok in H as (cur' & [Hlt ->]%list_setitem_Ok & H).
      injection H as <-. rewrite (insert_last_take cur i) by lia.
      split_and!; simpl.
      * rewrite length_app, length_take. simpl. lia.
      * rewrite take_app_le by (rewrite length_take; lia).
        by rewrite take_take, Nat.min_id.
      * eexists [_]. split_and!; [done|apply NoDup_singleton|].
        intros x. rewrite Hchar, list_elem_of_singleton.
        split; [intros ->; eauto 10|by intros [-> _]].
    + injection H as <-. eapply dfs_post_iff; [|apply dfs_post_refl].
      intros x. rewrite Hchar. split; [done|].
      intros (_ & _ & s' & Hs' & Hle'). rewrite Hs in Hs'.
      injection Hs' as <-. done.
  - injection H as <-. eapply dfs_post_iff; [|apply dfs_post_refl].
    intros x. rewrite Hchar. split; [done|]. by intros (_ & H1 & _).
Qed.

Lemma search_bundles_post fuel : ∀ denoms i vl cur out stock st',
  length cur = length denoms →
  _search_bundles fuel denoms i vl cur out stock = Ok st' →
  dfs_post i (λ x, ∃ bs, x = take i cur ++ bs ∧
                     bundle_path stock (drop i denoms) vl bs) (cur, out) st'.
Proof.
  induction fuel as [|fuel IH]; intros denoms i vl cur out stock st' Hlen H;
    cbn [_search_bundles] in H; case_bool_decide as Hi.
  - by apply bundles_leaf_post.
  - apply bind_Ok in H as (? & _ & H). apply bind_Ok in H as (? & _ & H).
    by apply bind_Ok in H as (? & _ & H).
  - by apply bundles_leaf_post.
  - apply bind_Ok in H as (d & Hd%list_getitem_Ok & H).
    apply bind_Ok in H as (s & Hs%dict_getitem_Ok & H).
    apply bind_Ok in H as (q & [Hd0 ->]%floordiv_Ok & H).
    apply bind_Ok in H as ([curL outL] & Hloop & H).
    apply bind_Ok in H as (cur' & [_ ->]%list_setitem_Ok & H).
    injection H as <-.
    pose proof (lookup_lt_Some _ _ _ Hd) as Hilt.
    destruct (drop_cons_lookup _ _ _ Hd) as (y & ds & Hdr & Hdr'); [lia|].
    rewrite Hdr. apply dfs_post_reset.
    eapply dfs_post_iff; [|eapply (for_each_post i _ _
      (λ b x, ∃ bs', x = take i cur ++ b :: bs' ∧
                bundle_path stock (drop (S i) denoms) (vl - d * b) bs'));
      [apply NoDup_range| | |done|done|exact Hloop]].
    + intros x. rewrite Hdr'. setoid_rewrite elem_of_range. split.
      * intros (b & Hb & bs' & -> & Hp). eexists. split; [done|].
        apply bundle_path_cons. exists b, bs'. split_and!; [done..| |done].
        exists s. split; [done|lia].
      * intros (bs & -> & (b & bs' & -> & _ & (s' & Hs' & Hb) & Hp)%bundle_path_cons).
        rewrite Hs in Hs'. injection Hs' as <-.
        exists b. split; [lia|]. by exists bs'.
    + intros b b' x (bs1 & -> & _) (bs2 & Heq & _).
      apply app_inv_head in Heq. by injection Heq.
    + intros b [cur1 out1] st2 _ Hbody Hl1 Ht1. simpl in *.
      apply bind_Ok in Hbody as (cur2 & [Hlt ->]%list_setitem_Ok & Hbody).
      apply IH in Hbody; [|by rewrite length_insert; congruence].
      eapply dfs_post_step; [done| |exact Hbody].
      intros x. rewrite take_S_insert by done. rewrite Ht1.
      by setoid_rewrite <-app_assoc.
Qed.

(** Totality *)

Lemma levels_ok_last stock d : levels_ok stock [d] ↔ is_Some (stock !! d).
Proof. simpl. split; [by intros [? _]|done]. Qed.

Lemma search_blocks_total fuel : ∀ denoms blocks i bl vl cur out stock,
  length cur = length denoms →
  (length denoms ≤ fuel + S i)%nat →
  levels_ok stock (drop i denoms) →
  ∃ st', _search_blocks fuel denoms blocks i bl vl cur out stock = Ok st' ∧
         length st'.1 = length denoms.
Proof.
  induction fuel as [|fuel IH]; intros denoms blocks i bl vl cur out stock Hlen Hf Hok;
    cbn [_search_blocks].
  all: assert (i < length denoms)%nat as Hi
    by (destruct (decide (i < length denoms)%nat); [done|];
        rewrite drop_ge in Hok by lia; done).
  all: destruct (lookup_lt_is_Some_2 denoms i Hi) as [d Hd].
  all: unfold list_getitem at 1 2; rewrite Hd; simpl.
  all: case_bool_decide as Hlast.
  1,3: rewrite (drop_last_lookup _ _ _ Hd) in Hok by lia;
    destruct Hok as [[s Hs] _]; unfold dict_getitem; rewrite Hs;
    destruct (_ && _); simpl; [|by eauto];
    case_bool_decide; [|by eauto];
    unfold list_setitem; rewrite bool_decide_eq_true_2 by lia; simpl;
    eexists; split; [done|]; simpl; rewrite length_insert; done.
  - lia.
  - destruct (drop_cons_lookup _ _ _ Hd) as (y & ds & Hdr & Hdr'); [lia|].
    rewrite Hdr in Hok. destruct Hok as ([s Hs] & Hd0 & Hok). rewrite <-Hdr' in Hok.
    unfold dict_getitem. rewrite Hs. simpl. unfold floordiv.
    rewrite bool_decide_eq_false_2 by done. simpl.
    match goal with |- context [for_each ?xs ?body ?st] =>
      assert (∃ st', for_each xs body st = Ok st' ∧
                     length st'.1 = length denoms) as ([curL outL] & -> & HlL);
        [apply for_each_total; [|exact Hlen]|]
    end.
    + intros b [cur1 out1] _ Hl1. simpl in *. unfold list_setitem.
      rewrite bool_decide_eq_true_2 by lia. simpl.
      apply IH; [by rewrite length_insert|lia|done].
    + simpl in *. unfold list_setitem. rewrite bool_decide_eq_true_2 by lia.
      simpl. eexists. split; [done|]. simpl. by rewrite length_insert.
Qed.

Lemma search_bundles_total fuel : ∀ denoms i vl cur out stock,
  length cur = length denoms →
  (length denoms ≤ fuel + S i)%nat →
  levels_ok stock (drop i denoms) →
  ∃ st', _search_bundles fuel denoms i vl cur out stock = Ok st' ∧
         length st'.1 = length denoms.
Proof.
  induction fuel as [|fuel IH]; intros denoms i vl cur out stock Hlen Hf Hok;
    cbn [_search_bundles].
  all: assert (i < length denoms)%nat as Hi
    by (destruct (decide (i < length denoms)%nat); [done|];
        rewrite drop_ge in Hok by lia; done).
  all: destruct (lookup_lt_is_Some_2 denoms i Hi) as [d Hd].
  all: unfold list_getitem at 1 2; rewrite Hd; simpl.
  all: case_bool_decide as Hlast.
  1,3: rewrite (drop_last_lookup _ _ _ Hd) in Hok by lia;
    destruct Hok as [[s Hs] _]; unfold dict_getitem; rewrite Hs;
    destruct (bool_decide (vl = _)); simpl; [|by eauto];
    case_bool_decide; [|by eauto];
    unfold list_setitem; rewrite bool_decide_eq_true_2 by lia; simpl;
    eexists; split; [done|]; simpl; rewrite length_insert; done.
  - lia.
  - destruct (drop_cons_lookup _ _ _ Hd) as (y & ds & Hdr & Hdr'); [lia|].
    rewrite Hdr in Hok. destruct Hok as ([s Hs] & Hd0 & Hok). rewrite <-Hdr' in Hok.
    unfold dict_getitem. rewrite Hs. simpl. unfold floordiv.
    rewrite bool_decide_eq_false_2 by done. simpl.
    match goal with |- context [for_each ?xs ?body ?st] =>
      assert (∃ st', for_each xs body st = Ok st' ∧
                     length st'.1 = length denoms) as ([curL outL] & -> & HlL);
        [apply for_each_total; [|exact Hlen]|]
    end.
    + intros b [cur1 out1] _ Hl1. simpl in *. unfold list_setitem.
      rewrite bool_decide_eq_true_2 by lia. simpl.
      apply IH; [by rewrite length_insert|lia|done].
    + simpl in *. unfold list_setitem. rewrite bool_decide_eq_true_2 by lia.
      simpl. eexists. split; [done|]. simpl. by rewrite length_insert.
Qed.

(** ** Paths and their arithmetic *)


Lemma sum_cons x l : sum (x :: l) = x + sum l.
Proof. done. Qed.

Lemma weighted_cons d ds b bs :
  weighted (d :: ds) (b :: bs) = d * b + weighted ds bs.
Proof. done. Qed.

Lemma sum_nonneg l : Forall (λ x, 0 ≤ x) l → 0 ≤ sum l.
Proof. induction 1; [done|]. rewrite sum_cons. lia. Qed.

Lemma weighted_nonneg ds bs :
  Forall (λ d, 0 < d) ds → Forall (λ b, 0 ≤ b) bs → 0 ≤ weighted ds bs.
Proof.
  intros Hd. revert bs. induction Hd as [|d ds Hd _ IH]; intros bs Hb; [done|].
  destruct Hb as [|b bs Hb Hbs]; [done|]. rewrite weighted_cons.
  specialize (IH _ Hbs). nia.
Qed.

Lemma block_path_sound stock ds : ∀ bl vl bs,
  block_path stock ds bl vl bs →
  length bs = length ds ∧ sum bs = bl ∧ weighted ds bs = vl ∧
  stock_bounds stock ds bs ∧ (0 ≤ bl → Forall (λ b, 0 ≤ b) bs).
Proof.
  induction ds as [|d ds IH]; intros bl vl bs H; [by destruct bs|].
  destruct ds as [|y ds].
  - apply block_path_last in H as (b & -> & Hb & Hv & Hbl & Hs).
    split_and!; simpl; [done|unfold sum; simpl; lia|unfold weighted; simpl; lia| |].
    + by repeat constructor.
    + intros ?. repeat constructor. lia.
  - apply block_path_cons in H as (b & bs' & -> & Hd & (s & Hs & Hb) & Hp).
    apply IH in Hp as (Hl & Hsum & Hw & Hst & Hnn).
    split_and!.
    + simpl in *. by rewrite Hl.
    + rewrite sum_cons. lia.
    + rewrite weighted_cons. lia.
    + constructor; [|done]. exists s. split; [done|lia].
    + intros Hbl. constructor; [lia|]. apply Hnn. lia.
Qed.

Lemma block_path_complete stock ds : ∀ bl vl bs,
  ds ≠ [] → Forall (λ d, 0 < d) ds → Forall (λ b, 0 ≤ b) bs →
  sum bs = bl → weighted ds bs = vl → stock_bounds stock ds bs →
  block_path stock ds bl vl bs.
Proof.
  induction ds as [|d ds IH]; intros bl vl bs Hne Hd Hb Hsum Hw Hst; [done|].
  apply Forall_cons in Hd as [Hd Hds].
  destruct bs as [|b bs]; [by apply Forall2_length in Hst|].
  apply Forall_cons in Hb as [Hb Hbs].
  apply Forall2_cons in Hst as [(s & Hs & Hle) Hst].
  rewrite sum_cons in Hsum. rewrite weighted_cons in Hw.
  destruct ds as [|y ds].
  - apply Forall2_nil_inv_l in Hst as ->.
    apply block_path_last. exists b. unfold sum in Hsum. unfold weighted in Hw.
    simpl in *. rewrite bool_decide_eq_false_2 by lia.
    split_and!; [done| |lia|lia|by eauto].
    subst vl. rewrite Z.add_0_r, Z.mul_comm. by rewrite Z.div_mul by lia.
  - pose proof (sum_nonneg _ Hbs). pose proof (weighted_nonneg _ _ Hds Hbs).
    apply block_path_cons. exists b, bs. split_and!; [done|lia| |].
    + exists s. split; [done|].
      assert (b ≤ vl `div` d) by (apply Z.div_le_lower_bound; lia). lia.
    + apply IH; [done..|lia|lia|done].
Qed.

Lemma bundle_path_sound stock ds : ∀ vl bs,
  bundle_path stock ds vl bs →
  length bs = length ds ∧ weighted ds bs = vl ∧ stock_bounds stock ds bs.
Proof.
  induction ds as [|d ds IH]; intros vl bs H; [by destruct bs|].
  destruct ds as [|y ds].
  - apply bundle_path_last in H as (b & -> & Hb & Hv & Hs).
    split_and!; simpl; [done|unfold weighted; simpl; lia|].
    by repeat constructor.
  - apply bundle_path_cons in H as (b & bs' & -> & Hd & (s & Hs & Hb) & Hp).
    apply IH in Hp as (Hl & Hw & Hst).
    split_and!.
    + simpl in *. by rewrite Hl.
    + rewrite weighted_cons. lia.
    + constructor; [|done]. exists s. split; [done|lia].
Qed.

Lemma bundle_path_nonneg stock ds : ∀ vl bs,
  Forall (λ d, 0 < d) ds → 0 ≤ vl → bundle_path stock ds vl bs →
  Forall (λ b, 0 ≤ b) bs.
Proof.
  induction ds as [|d ds IH]; intros vl bs Hd Hvl H; [by destruct bs|].
  apply Forall_cons in Hd as [Hd Hds].
  destruct ds as [|y ds].
  - apply bundle_path_last in H as (b & -> & Hb & Hv & Hs).
    repeat constructor. nia.
  - apply bundle_path_cons in H as (b & bs' & -> & _ & (s & Hs & Hb) & Hp).
    constructor; [lia|]. eapply IH; [done| |done].
    assert (d * b ≤ vl); [|lia].
    transitivity (d * (vl `div` d)); [nia|]. apply Z.mul_div_le. lia.
Qed.

Lemma bundle_path_value_nonneg stock d y ds vl bs :
  0 < d → bundle_path stock (d :: y :: ds) vl bs → 0 ≤ vl.
Proof.
  intros Hd (b & bs' & -> & _ & (s & Hs & Hb) & Hp)%bundle_path_cons.
  destruct (decide (0 ≤ vl)) as [|Hneg]; [done|].
  assert (vl `div` d < 0) by (apply Z.div_lt_upper_bound; lia). lia.
Qed.

Lemma bundle_path_complete stock ds : ∀ vl bs,
  ds ≠ [] → Forall (λ d, 0 < d) ds → Forall (λ b, 0 ≤ b) bs →
  weighted ds bs = vl → stock_bounds stock ds bs →
  bundle_path stock ds vl bs.
Proof.
  induction ds as [|d ds IH]; intros vl bs Hne Hd Hb Hw Hst; [done|].
  apply Forall_cons in Hd as [Hd Hds].
  destruct bs as [|b bs]; [by apply Forall2_length in Hst|].
  apply Forall_cons in Hb as [Hb Hbs].
  apply Forall2_cons in Hst as [(s & Hs & Hle) Hst].
  rewrite weighted_cons in Hw.
  destruct ds as [|y ds].
  - apply Forall2_nil_inv_l in Hst as ->.
    apply bundle_path_last. exists b. unfold weighted in Hw.
    simpl in *. rewrite bool_decide_eq_false_2 by lia.
    split_and!; [done| |lia|by eauto].
    subst vl. rewrite Z.add_0_r, Z.mul_comm. by rewrite Z.div_mul by lia.
  - pose proof (weighted_nonneg _ _ Hds Hbs).
    apply bundle_path_cons. exists b, bs. split_and!; [done|lia| |].
    + exists s. split; [done|].
      assert (b ≤ vl `div` d) by (apply Z.div_le_lower_bound; lia). lia.
    + apply IH; [done..|lia|done].
Qed.

(** A path of the ideal-block search is a path of the loose search. *)
Lemma block_path_bundle_path stock ds : ∀ bl vl bs,
  block_path stock ds bl vl bs → bundle_path stock ds vl bs.
Proof.
  induction ds as [|d ds IH]; intros bl vl bs H; [by destruct bs|].
  destruct ds as [|y ds].
  - apply block_path_last in H as (b & -> & Hb & Hv & Hbl & Hs).
    apply bundle_path_last. by exists b.
  - apply block_path_cons in H as (b & bs' & -> & Hd & (s & Hs & Hb) & Hp).
    apply bundle_path_cons. exists b, bs'. split_and!; [done..| |by eapply IH].
    exists s. split; [done|lia].
Qed.

Lemma block_path_levels_ok stock ds : ∀ bl vl bs,
  block_path stock ds bl vl bs → levels_ok stock ds.
Proof.
  induction ds as [|d ds IH]; intros bl vl bs H; [by destruct bs|].
  destruct ds as [|y ds].
  - apply block_path_last in H as (b & -> & Hb & Hv & Hbl & s & Hs & _).
    apply levels_ok_last. by exists s.
  - apply block_path_cons in H as (b & bs' & -> & Hd & (s & Hs & Hb) & Hp).
    split; [by exists s|]. split; [done|]. by eapply IH.
Qed.

Lemma levels_ok_dense stock ds :
  ds ≠ [] → Forall (λ d, 0 < d) ds → (∀ d, d ∈ ds → is_Some (stock !! d)) →
  levels_ok stock ds.
Proof.
  induction ds as [|d ds IH]; intros Hne Hd Hs; [done|].
  apply Forall_cons in Hd as [Hd Hds]. split.
  - apply Hs. apply list_elem_of_here.
  - destruct ds as [|y ds]; [done|]. split; [lia|]. apply IH; [done..|].
    intros d' Hd'. apply Hs. by apply list_elem_of_further.
Qed.


(** ** [sorted], [min] and the stock total *)

Lemma insert_desc_perm x l : insert_desc x l ≡ₚ x :: l.
Proof.
  induction l as [|y l IH]; simpl; [done|]. case_bool_decide; [done|].
  rewrite IH. apply Permutation_swap.
Qed.

Lemma sorted_reverse_perm l : sorted_reverse l ≡ₚ l.
Proof.
  induction l as [|x l IH]; [done|]. unfold sorted_reverse in *. simpl.
  by rewrite insert_desc_perm, IH.
Qed.

Lemma sorted_reverse_length l : length (sorted_reverse l) = length l.
Proof. by rewrite sorted_reverse_perm. Qed.

Lemma sorted_reverse_Forall (P : Z → Prop) l :
  Forall P (sorted_reverse l) ↔ Forall P l.
Proof. by rewrite sorted_reverse_perm. Qed.

Lemma sorted_reverse_elem_of d l : d ∈ sorted_reverse l ↔ d ∈ l.
Proof. by rewrite sorted_reverse_perm. Qed.

Lemma sorted_reverse_nil l : sorted_reverse l = [] ↔ l = [].
Proof.
  split; [|by intros ->]. intros H. apply Permutation_nil_r.
  by rewrite <-H, sorted_reverse_perm.
Qed.

Lemma insert_desc_head x l : Forall (λ y, y ≤ x) l → insert_desc x l = x :: l.
Proof.
  induction 1 as [|y l Hy _ IH]; simpl; [done|].
  case_bool_decide; [done|]. rewrite IH. assert (y = x) as -> by lia. done.
Qed.

Lemma sorted_reverse_descending l : descending l → sorted_reverse l = l.
Proof.
  induction 1 as [|x l _ IH Hx]; [done|]. unfold sorted_reverse in *. simpl.
  rewrite IH. by apply insert_desc_head.
Qed.

Lemma foldl_min_spec l : ∀ x,
  (foldl Z.min x l = x ∨ foldl Z.min x l ∈ l) ∧
  foldl Z.min x l ≤ x ∧ Forall (λ y, foldl Z.min x l ≤ y) l.
Proof.
  induction l as [|y l IH]; intros x; simpl.
  - split_and!; [by left|done|constructor].
  - destruct (IH (Z.min x y)) as ([H1|H1] & H2 & H3).
    + split_and!; [|lia|constructor; [lia|done]].
      destruct (Z.min_spec x y) as [[_ Hm]|[_ Hm]]; rewrite Hm in *.
      * by left.
      * right. rewrite H1. apply list_elem_of_here.
    + split_and!; [|lia|constructor; [lia|done]].
      right. by apply list_elem_of_further.
Qed.

Lemma py_min_Ok l m :
  py_min l = Ok m → l ≠ [] ∧ m ∈ l ∧ Forall (λ y, m ≤ y) l.
Proof.
  destruct l as [|x l]; [done|]. intros [= <-].
  destruct (foldl_min_spec l x) as ([H1|H1] & H2 & H3); split_and!; try done.
  - rewrite H1. apply list_elem_of_here.
  - constructor; [lia|done].
  - by apply list_elem_of_further.
  - constructor; [lia|done].
Qed.

Lemma py_min_total l : l ≠ [] → ∃ m, py_min l = Ok m.
Proof. destruct l; [done|]. by eexists. Qed.

Lemma sum_stock_acc stock ds : ∀ acc total,
  for_each ds (λ d acc, s ← dict_getitem stock d; Ok (acc + s)) acc = Ok total ↔
  ∃ ss, Forall2 (λ d s, stock !! d = Some s) ds ss ∧ total = acc + sum ss.
Proof.
  induction ds as [|d ds IH]; intros acc total; simpl.
  - split.
    + intros [= <-]. exists []. split; [constructor|]. unfold sum. simpl. lia.
    + intros (ss & ->%Forall2_nil_inv_l & ->). unfold sum. simpl. f_equal. lia.
  - rewrite bind_Ok. split.
    + intros (a & Ha & Hr). apply bind_Ok in Ha as (s & Hs%dict_getitem_Ok & [= <-]).
      apply IH in Hr as (ss & Hss & ->). exists (s :: ss).
      split; [by constructor|]. rewrite sum_cons. lia.
    + intros (ss & Hss & ->). apply Forall2_cons_inv_l in Hss as (s & ss' & Hs & Hss & ->).
      exists (acc + s). split.
      * apply bind_Ok. exists s. by rewrite dict_getitem_Ok.
      * apply IH. exists ss'. split; [done|]. rewrite sum_cons. lia.
Qed.

Lemma sum_stock_Ok stock ds total :
  sum_stock stock ds = Ok total ↔
  ∃ ss, Forall2 (λ d s, stock !! d = Some s) ds ss ∧ total = sum ss.
Proof. unfold sum_stock. rewrite sum_stock_acc. by setoid_rewrite Z.add_0_l. Qed.

Lemma sum_stock_total stock ds :
  (∀ d, d ∈ ds → is_Some (stock !! d)) → ∃ total, sum_stock stock ds = Ok total.
Proof.
  intros Hs. assert (∃ ss, Forall2 (λ d s, stock !! d = Some s) ds ss) as [ss Hss].
  { induction ds as [|d ds IH]; [by exists []|].
    destruct (Hs d) as [s Hd]; [apply list_elem_of_here|].
    destruct IH as [ss Hss].
    - intros d' Hd'. apply Hs. by apply list_elem_of_further.
    - exists (s :: ss). by constructor. }
  exists (sum ss). apply sum_stock_Ok. by exists ss.
Qed.

Lemma stock_bounds_sum stock ds bs ss :
  stock_bounds stock ds bs → Forall2 (λ d s, stock !! d = Some s) ds ss →
  sum bs ≤ sum ss.
Proof.
  intros Hb. revert ss. induction Hb as [|d b ds bs (s & Hs & Hle) _ IH]; intros ss Hss.
  - by apply Forall2_nil_inv_l in Hss as ->.
  - apply Forall2_cons_inv_l in Hss as (s' & ss' & Hs' & Hss & ->).
    rewrite !sum_cons. specialize (IH _ Hss). rewrite Hs in Hs'.
    injection Hs' as <-. lia.
Qed.

Lemma weighted_lower_bound m ds bs :
  Forall (λ d, m ≤ d) ds → Forall (λ b, 0 ≤ b) bs → length bs = length ds →
  m * sum bs ≤ weighted ds bs.
Proof.
  intros Hd. revert bs. induction Hd as [|d ds Hd _ IH]; intros bs Hb Hl.
  - destruct bs; [|done]. unfold sum, weighted. simpl. lia.
  - destruct Hb as [|b bs Hb Hbs]; [done|]. rewrite sum_cons, weighted_cons.
    simpl in Hl. specialize (IH _ Hbs ltac:(lia)). nia.
Qed.

(** ** The enumerations *)

Lemma blocks_loop_for_each denoms units total stock bs : ∀ cur sols,
  (∀ b, b ∈ bs → b * BLOCK_SIZE ≤ total) →
  blocks_loop denoms units total stock bs cur sols =
  for_each bs (λ blocks '(cur, sols),
    _search_blocks (length denoms) denoms blocks 0 (blocks * BLOCK_SIZE)
      units cur sols stock) (cur, sols).
Proof.
  induction bs as [|b bs IH]; intros cur sols Hb; simpl; [done|].
  rewrite bool_decide_eq_false_2.
  - destruct (_search_blocks _ _ _ _ _ _ _ _ _) as [[cur' sols']|e]; simpl; [|done].
    apply IH. intros b' Hb'. apply Hb. by apply list_elem_of_further.
  - specialize (Hb b (list_elem_of_here _ _)). lia.
Qed.

Lemma blocks_loop_post denoms units total stock bs cur sols st' :
  (∀ b, b ∈ bs → b * BLOCK_SIZE ≤ total) → NoDup bs →
  length cur = length denoms →
  blocks_loop denoms units total stock bs cur sols = Ok st' →
  dfs_post 0 (λ x, x.1 ∈ bs ∧
                   block_path stock denoms (x.1 * BLOCK_SIZE) units x.2)
    (cur, sols) st'.
Proof.
  intros Hb Hnd Hl H. rewrite blocks_loop_for_each in H by done.
  eapply dfs_post_iff; [|eapply (for_each_post 0 _ _
    (λ b x, ∃ c, x = (b, c) ∧ block_path stock denoms (b * BLOCK_SIZE) units c));
    [done| | |done|done|exact H]].
  - intros [b c]. simpl. split.
    + by intros (b' & Hb' & c' & [= -> ->] & Hp).
    + intros [Hb' Hp]. exists b. split; [done|]. by exists c.
  - by intros b b' x (c & -> & _) (c' & [= ->] & _).
  - intros b [cur1 sols1] st2 _ Hbody Hl1 _. simpl in *.
    apply search_blocks_post in Hbody; [|congruence]. done.
Qed.

Lemma blocks_loop_total denoms units total stock bs : ∀ cur sols,
  length cur = length denoms → levels_ok stock denoms →
  ∃ st', blocks_loop denoms units total stock bs cur sols = Ok st'.
Proof.
  induction bs as [|b bs IH]; intros cur sols Hl Hok; simpl; [by eauto|].
  case_bool_decide; [by eauto|].
  destruct (search_blocks_total (length denoms) denoms b 0%nat (b * BLOCK_SIZE)
    units cur sols stock) as ([cur' sols'] & -> & Hl'); [done|lia|done|].
  simpl. by apply IH.
Qed.


Lemma stock_bounds_within stock ds bs :
  stock_bounds stock ds bs ↔ length bs = length ds ∧ within_stock stock ds bs.
Proof.
  unfold stock_bounds, within_stock. rewrite Forall2_same_length_lookup.
  split; intros [H1 H2]; split; by eauto.
Qed.

Lemma exact_amount amount w :
  w * BUNDLE_SIZE = amount ↔
  amount `mod` BUNDLE_SIZE = 0 ∧ w = amount `div` BUNDLE_SIZE.
Proof.
  unfold BUNDLE_SIZE. split.
  - intros <-. rewrite Z.mod_mul, Z.div_mul by lia. done.
  - intros [Hm ->]. pose proof (Z.div_mod amount 100). lia.
Qed.

Lemma enumerate_ideal_inv amount denoms stock raw :
  _enumerate_ideal_configs amount denoms stock = Ok raw →
  amount `mod` BUNDLE_SIZE = 0 →
  ∃ m total,
    py_min (sorted_reverse denoms) = Ok m ∧
    m * BUNDLE_SIZE * BLOCK_SIZE ≠ 0 ∧
    sum_stock stock (sorted_reverse denoms) = Ok total ∧
    NoDup raw ∧
    ∀ x, x ∈ raw ↔
      1 ≤ x.1 ≤ Z.min (amount `div` (m * BUNDLE_SIZE * BLOCK_SIZE))
                      (total `div` BLOCK_SIZE) ∧
      block_path stock (sorted_reverse denoms) (x.1 * BLOCK_SIZE)
        (amount `div` BUNDLE_SIZE) x.2.
Proof.
  intros H Hmod. unfold _enumerate_ideal_configs in H.
  rewrite bool_decide_eq_false_2 in H by (intros ?; done).
  cbv zeta in H.
  apply bind_Ok in H as (m & Hm & H).
  apply bind_Ok in H as (q & [Hm0 ->]%floordiv_Ok & H).
  apply bind_Ok in H as (total & Htot & H).
  apply bind_Ok in H as ([curL sols] & Hloop & [= <-]).
  exists m, total. split_and!; [done..| |].
  all: apply blocks_loop_post in Hloop as (_ & _ & ext & He & Hnd & Hx);
    [|intros b [_ Hb]%elem_of_range;
      assert (b ≤ total `div` BLOCK_SIZE) as Hb' by lia;
      unfold BLOCK_SIZE in *;
      pose proof (Z.mul_div_le total 30); nia
     |apply NoDup_range|by rewrite length_replicate].
  all: simpl in He; subst sols.
  - done.
  - intros x. rewrite Hx, elem_of_range. split; intros [? ?]; (split; [lia|done]).
Qed.

Lemma enumerate_ideal_nodiv amount denoms stock :
  amount `mod` BUNDLE_SIZE ≠ 0 → _enumerate_ideal_configs amount denoms stock = Ok [].
Proof.
  intros H. unfold _enumerate_ideal_configs. by rewrite bool_decide_eq_true_2.
Qed.

Lemma enumerate_ideal_NoDup amount denoms stock raw :
  _enumerate_ideal_configs amount denoms stock = Ok raw → NoDup raw.
Proof.
  intros H. destruct (decide (amount `mod` BUNDLE_SIZE = 0)) as [Hm|Hm].
  - by destruct (enumerate_ideal_inv _ _ _ _ H Hm) as (? & ? & _ & _ & _ & ? & _).
  - rewrite enumerate_ideal_nodiv in H by done. injection H as <-. constructor.
Qed.

Lemma enumerate_ideal_sound amount denoms stock raw x :
  _enumerate_ideal_configs amount denoms stock = Ok raw → x ∈ raw →
  amount `mod` BUNDLE_SIZE = 0 ∧ 1 ≤ x.1 ∧
  block_path stock (sorted_reverse denoms) (x.1 * BLOCK_SIZE)
    (amount `div` BUNDLE_SIZE) x.2.
Proof.
  intros H Hx. destruct (decide (amount `mod` BUNDLE_SIZE = 0)) as [Hm|Hm].
  - destruct (enumerate_ideal_inv _ _ _ _ H Hm) as (? & ? & _ & _ & _ & _ & Hc).
    apply Hc in Hx as [? ?]. split_and!; [done|lia|done].
  - rewrite enumerate_ideal_nodiv in H by done. injection H as <-.
    by apply elem_of_nil in Hx.
Qed.

(** The bound on the number of blocks excludes nothing. *)
Lemma block_bound amount ds stock m total blocks c :
  Forall (λ d, 0 < d) ds → amount `mod` BUNDLE_SIZE = 0 →
  py_min ds = Ok m → sum_stock stock ds = Ok total →
  0 ≤ blocks →
  block_path stock ds (blocks * BLOCK_SIZE) (amount `div` BUNDLE_SIZE) c →
  blocks ≤ Z.min (amount `div` (m * BUNDLE_SIZE * BLOCK_SIZE))
                 (total `div` BLOCK_SIZE).
Proof.
  intros Hpos Hmod Hm Htot Hb Hp.
  apply block_path_sound in Hp as (Hl & Hsum & Hw & Hst & Hnn).
  specialize (Hnn ltac:(unfold BLOCK_SIZE; lia)).
  apply py_min_Ok in Hm as (_ & Hin & Hmin).
  apply sum_stock_Ok in Htot as (ss & Hss & ->).
  pose proof (stock_bounds_sum _ _ _ _ Hst Hss) as Hle.
  pose proof (weighted_lower_bound _ _ _ Hmin Hnn Hl) as Hlow.
  assert (0 < m) as Hmpos by (rewrite Forall_forall in Hpos; by apply Hpos).
  pose proof (Z.div_mod amount BUNDLE_SIZE ltac:(done)) as Hdm.
  unfold BUNDLE_SIZE, BLOCK_SIZE in *.
  apply Z.min_glb; apply Z.div_le_lower_bound; nia.
Qed.

Lemma enumerate_ideal_complete amount denoms stock raw x :
  _enumerate_ideal_configs amount denoms stock = Ok raw →
  Forall (λ d, 0 < d) denoms → amount `mod` BUNDLE_SIZE = 0 → 1 ≤ x.1 →
  block_path stock (sorted_reverse denoms) (x.1 * BLOCK_SIZE)
    (amount `div` BUNDLE_SIZE) x.2 →
  x ∈ raw.
Proof.
  intros H Hpos Hmod Hb Hp.
  destruct (enumerate_ideal_inv _ _ _ _ H Hmod) as (m & total & Hm & _ & Htot & _ & Hc).
  apply Hc. split; [|done]. split; [done|].
  eapply block_bound; [by apply sorted_reverse_Forall|done..|lia|done].
Qed.

Lemma enumerate_ideal_total amount denoms stock :
  denoms ≠ [] → Forall (λ d, 0 < d) denoms →
  (∀ d, d ∈ denoms → is_Some (stock !! d)) →
  ∃ raw, _enumerate_ideal_configs amount denoms stock = Ok raw.
Proof.
  intros Hne Hpos Hs. unfold _enumerate_ideal_configs.
  case_bool_decide; [by eauto|]. cbv zeta.
  assert (sorted_reverse denoms ≠ []) as Hne' by by rewrite sorted_reverse_nil.
  apply sorted_reverse_Forall in Hpos.
  destruct (py_min_total _ Hne') as [m Hm]. rewrite Hm. simpl.
  apply py_min_Ok in Hm as (_ & Hin & _).
  assert (0 < m) by (rewrite Forall_forall in Hpos; by apply Hpos).
  unfold floordiv. rewrite bool_decide_eq_false_2 by (unfold BUNDLE_SIZE, BLOCK_SIZE; lia).
  simpl. destruct (sum_stock_total stock (sorted_reverse denoms)) as [total ->].
  { intros d Hd. apply Hs. by apply sorted_reverse_elem_of. }
  simpl.
  edestruct blocks_loop_total as ([cur sols] & ->);
    [by rewrite length_replicate| |by eauto].
  apply levels_ok_dense; [done..|].
  intros d Hd. apply Hs. by apply sorted_reverse_elem_of.
Qed.

Lemma enumerate_loose_nodiv amount denoms stock :
  amount `mod` BUNDLE_SIZE ≠ 0 → _enumerate_loose_configs amount denoms stock = Ok [].
Proof.
  intros H. unfold _enumerate_loose_configs. by rewrite bool_decide_eq_true_2.
Qed.

Lemma enumerate_loose_inv amount denoms stock raw :
  _enumerate_loose_configs amount denoms stock = Ok raw →
  NoDup raw ∧
  ∀ c, c ∈ raw ↔
    amount `mod` BUNDLE_SIZE = 0 ∧
    bundle_path stock (sorted_reverse denoms) (amount `div` BUNDLE_SIZE) c.
Proof.
  intros H. destruct (decide (amount `mod` BUNDLE_SIZE = 0)) as [Hm|Hm].
  - unfold _enumerate_loose_configs in H.
    rewrite bool_decide_eq_false_2 in H by (intros ?; done). cbv zeta in H.
    apply bind_Ok in H as ([curL out] & Hs & [= <-]).
    apply search_bundles_post in Hs as (_ & _ & ext & He & Hnd & Hx);
      [|by rewrite length_replicate].
    simpl in He. subst out. split; [done|]. intros c. rewrite Hx. split.
    + by intros (bs & -> & Hp).
    + intros [_ Hp]. by exists c.
  - rewrite enumerate_loose_nodiv in H by done. injection H as <-.
    split; [constructor|]. intros c. split; [by intros ?%elem_of_nil|by intros [? _]].
Qed.

Lemma enumerate_loose_total amount denoms stock :
  levels_ok stock (sorted_reverse denoms) →
  ∃ raw, _enumerate_loose_configs amount denoms stock = Ok raw.
Proof.
  intros Hok. unfold _enumerate_loose_configs. case_bool_decide; [by eauto|].
  cbv zeta.
  edestruct (search_bundles_total (length (sorted_reverse denoms))
    (sorted_reverse denoms) 0%nat) as ([cur out] & -> & _);
    [by apply length_replicate|lia|done|by eauto].
Qed.

(** Paths against the data model, for positive denominations. *)
Lemma block_path_feasible amount ds stock x :
  ds ≠ [] → Forall (λ d, 0 < d) ds →
  (amount `mod` BUNDLE_SIZE = 0 ∧ 1 ≤ x.1 ∧
   block_path stock ds (x.1 * BLOCK_SIZE) (amount `div` BUNDLE_SIZE) x.2) ↔
  feasible_grouped ds stock amount x.
Proof.
  intros Hne Hpos. unfold feasible_grouped. rewrite exact_amount. split.
  - intros (Hm & Hb & (Hl & Hsum & Hw & Hst & Hnn)%block_path_sound).
    apply stock_bounds_within in Hst as [_ Hst].
    split_and!; try done. apply Hnn. unfold BLOCK_SIZE. lia.
  - intros (Hb & Hl & Hnn & Hsum & [Hm Hw] & Hst). split_and!; [done..|].
    apply block_path_complete; [done..|]. by apply stock_bounds_within.
Qed.

Lemma bundle_path_feasible amount ds stock c :
  ds ≠ [] → Forall (λ d, 0 < d) ds →
  0 ≤ amount ∨ (2 ≤ length ds)%nat →
  (amount `mod` BUNDLE_SIZE = 0 ∧
   bundle_path stock ds (amount `div` BUNDLE_SIZE) c) ↔
  feasible_loose ds stock amount c.
Proof.
  intros Hne Hpos Hor. unfold feasible_loose. rewrite exact_amount. split.
  - intros (Hm & Hp). pose proof Hp as (Hl & Hw & Hst)%bundle_path_sound.
    apply stock_bounds_within in Hst as [_ Hst].
    split_and!; try done. eapply bundle_path_nonneg; [done| |done].
    destruct Hor as [Ha|Hlen].
    + apply Z.div_pos; [done|]. unfold BUNDLE_SIZE. lia.
    + destruct ds as [|d [|y ds]]; simpl in Hlen; [lia..|].
      apply Forall_cons in Hpos as [Hd _].
      by eapply bundle_path_value_nonneg.
  - intros (Hl & Hnn & [Hm Hw] & Hst). split; [done|].
    apply bundle_path_complete; [done..|]. by apply stock_bounds_within.
Qed.


(** ** Sorting by key *)

Lemma before_cons {A : Type} (x y a : A) (l : list A) :
  before x y (a :: l) ↔ (a = x ∧ y ∈ l) ∨ before x y l.
Proof.
  split.
  - intros ([|a' l1] & l2 & l3 & H); simplify_eq/=.
    + left. split; [done|]. apply elem_of_app. right. apply list_elem_of_here.
    + right. by exists l1, l2, l3.
  - intros [[-> Hy]|(l1 & l2 & l3 & ->)].
    + apply list_elem_of_split in Hy as (l2 & l3 & ->). by exists [], l2, l3.
    + by exists (a :: l1), l2, l3.
Qed.

Lemma before_nil {A : Type} (x y : A) : ¬ before x y [].
Proof. intros (l1 & l2 & l3 & H). by destruct l1. Qed.

Lemma before_app {A : Type} (x y : A) (l l' : list A) :
  before x y (l ++ l') ↔ before x y l ∨ before x y l' ∨ (x ∈ l ∧ y ∈ l').
Proof.
  induction l as [|a l IH]; simpl.
  - split; [by eauto|]. intros [H|[H|[H _]]]; [by apply before_nil in H|done|].
    by apply elem_of_nil in H.
  - rewrite !before_cons, IH, elem_of_app, elem_of_cons.
    intuition (subst; auto).
Qed.

Lemma before_fmap {A B : Type} (f : A → B) (x y : A) (l : list A) :
  before x y l → before (f x) (f y) (f <$> l).
Proof.
  intros (l1 & l2 & l3 & ->). exists (f <$> l1), (f <$> l2), (f <$> l3).
  by rewrite !fmap_app, !fmap_cons, !fmap_app, !fmap_cons.
Qed.

Lemma before_fmap_inv {A B : Type} (f : A → B) (x' y' : B) (l : list A) :
  before x' y' (f <$> l) → ∃ x y, x' = f x ∧ y' = f y ∧ before x y l.
Proof.
  intros (l1 & l2 & l3 & H).
  apply fmap_app_inv in H as (k1 & k23 & -> & H & ->). symmetry in H.
  apply fmap_cons_inv in H as (x & k23' & -> & H & ->). symmetry in H.
  apply fmap_app_inv in H as (k2 & k3 & -> & H & ->). symmetry in H.
  apply fmap_cons_inv in H as (y & k3' & -> & -> & ->).
  exists x, y. split_and!; [done..|]. by exists k1, k2, k3'.
Qed.

Lemma before_take {A : Type} (x y : A) (n : nat) (l : list A) :
  before x y (take n l) → before x y l.
Proof.
  intros H. rewrite <-(take_drop n l). apply before_app. by left.
Qed.

Lemma map_result_Ok {A B : Type} (f : A → result B) (l : list A) (ks : list B) :
  map_result f l = Ok ks ↔ Forall2 (λ x k, f x = Ok k) l ks.
Proof.
  revert ks. induction l as [|x l IH]; intros ks; simpl.
  - split; [intros [= <-]; constructor|by intros ->%Forall2_nil_inv_l].
  - rewrite bind_Ok. split.
    + intros (k & Hk & H). apply bind_Ok in H as (ks' & Hks & [= <-]).
      constructor; [done|]. by apply IH.
    + intros (k & ks' & Hk & Hks & ->)%Forall2_cons_inv_l. exists k.
      split; [done|]. apply bind_Ok. exists ks'. split; [by apply IH|done].
Qed.

Section sorting.
Context `{PF : PyFloat} {A : Type}.
Implicit Types (p q : score * A) (l : list (score * A)).

Lemma insert_keyed_split p l :
  ∃ l1 l2, l = l1 ++ l2 ∧ insert_keyed p l = l1 ++ p :: l2 ∧
           Forall (λ q, score_lt q.1 p.1 = true) l1.
Proof.
  induction l as [|q l (l1 & l2 & -> & Hi & Hl)]; simpl.
  - by exists [], [].
  - destruct (score_lt q.1 p.1) eqn:Hq.
    + exists (q :: l1), l2. rewrite Hi. split_and!; [done..|by constructor].
    + exists [], (q :: l1 ++ l2). done.
Qed.

Lemma insert_keyed_perm p l : insert_keyed p l ≡ₚ p :: l.
Proof.
  destruct (insert_keyed_split p l) as (l1 & l2 & -> & -> & _).
  by rewrite Permutation_middle.
Qed.

Lemma sort_keyed_perm l : sort_keyed l ≡ₚ l.
Proof.
  induction l as [|p l IH]; [done|]. unfold sort_keyed in *. simpl.
  by rewrite insert_keyed_perm, IH.
Qed.

(** Stability: the sort never moves an element in front of another one
    unless its key is smaller. *)
Lemma sort_keyed_stable p q l :
  before p q (sort_keyed l) → score_lt p.1 q.1 = false → before p q l.
Proof.
  revert p q. induction l as [|a l IH]; intros p q Hb Hlt.
  - by apply before_nil in Hb.
  - unfold sort_keyed in Hb. simpl in Hb. fold (sort_keyed l) in Hb.
    destruct (insert_keyed_split a (sort_keyed l)) as (l1 & l2 & Hs & Hi & Hl1).
    rewrite Hi in Hb. apply before_cons.
    assert (∀ z, z ∈ l1 ++ l2 → z ∈ l) as Hin
      by (intros z; by rewrite <-Hs, sort_keyed_perm).
    assert (before p q (l1 ++ l2) → before p q l) as Hrec
      by (rewrite <-Hs; intros ?; by apply IH).
    apply before_app in Hb as [Hb|[Hb|[Hp Hq]]].
    + right. apply Hrec, before_app. by left.
    + apply before_cons in Hb as [[-> Hq]|Hb].
      * left. split; [done|]. apply Hin, elem_of_app. by right.
      * right. apply Hrec, before_app. by right; left.
    + apply elem_of_cons in Hq as [->|Hq].
      * rewrite Forall_forall in Hl1. rewrite (Hl1 _ Hp) in Hlt. done.
      * right. apply Hrec, before_app. by right; right.
Qed.

Context {PL : PyFloatLaws PF}.

Lemma score_lt_true (a b : score) :
score_lt a b = true ↔
a.1.1 < b.1.1 ∨
(a.1.1 = b.1.1 ∧
 (a.1.2 < b.1.2 ∨
  (a.1.2 = b.1.2 ∧ feq a.2 b.2 = false ∧ flt a.2 b.2 = true))).
Proof.
destruct a as [[a1 a2] a3], b as [[b1 b2] b3]. unfold score_lt. simpl.
destruct (decide (a1 = b1)) as [->|H1].
- rewrite (bool_decide_eq_true_2 (b1 = b1)) by done. simpl.
  destruct (decide (a2 = b2)) as [->|H2].
  + rewrite (bool_decide_eq_true_2 (b2 = b2)) by done. simpl.
    destruct (feq a3 b3); simpl.
    * split; [done|]. intros [?|[_ [?|(_ & ? & _)]]]; [lia|lia|done].
    * split.
      -- intros Hlt. right. split; [done|]. by right.
      -- intros [?|[_ [?|(_ & _ & ?)]]]; [lia|lia|done].
  + rewrite (bool_decide_eq_false_2 (a2 = b2)) by done. simpl.
    rewrite bool_decide_eq_true. split.
    * intros ?. right. split; [done|]. by left.
    * intros [?|[_ [?|(? & _)]]]; [lia|done|done].
- rewrite (bool_decide_eq_false_2 (a1 = b1)) by done. simpl.
  rewrite bool_decide_eq_true. split; [by left|].
  intros [?|[? _]]; done.
Qed.

Lemma score_le_trans (a b c : score) :
score_lt b a = false → score_lt c b = false → score_lt c a = false.
Proof.
rewrite <-!not_true_iff_false, !score_lt_true.
destruct a as [[a1 a2] a3], b as [[b1 b2] b3], c as [[c1 c2] c3]. simpl.
intros Hba Hcb Hca. 
assert (a1 ≤ b1 ∧ b1 ≤ c1) as [? ?] by (split; lia).
assert (c1 = a1) as -> by lia. assert (b1 = a1) as -> by lia.
assert (a2 ≤ b2 ∧ b2 ≤ c2) as [? ?] by (split; lia).
assert (c2 = a2) as -> by lia. assert (b2 = a2) as -> by lia.
destruct Hca as [?|[_ [?|(_ & Hne & Hlt)]]]; [lia..|].
destruct (flt_cotrans _ b3 _ Hlt) as [Hcb'|Hba'].
- apply Hcb. right. split; [done|]. right. split; [done|]. split; [|done].
  destruct (feq c3 b3) eqn:He; [|done]. apply feq_spec in He as [? _]. congruence.
- apply Hba. right. split; [done|]. right. split; [done|]. split; [|done].
  destruct (feq b3 a3) eqn:He; [|done]. apply feq_spec in He as [? _]. congruence.
Qed.

Lemma score_lt_asym (a b : score) : score_lt a b = true → score_lt b a = false.
Proof.
rewrite <-not_true_iff_false, !score_lt_true.
destruct a as [[a1 a2] a3], b as [[b1 b2] b3]. simpl.
intros Hab Hba.
destruct Hab as [?|[? [?|(? & _ & Hlt)]]];
  destruct Hba as [?|[? [?|(? & _ & Hlt')]]]; try lia.
apply flt_asym in Hlt. congruence.
Qed.
Lemma insert_keyed_sorted p l :
  StronglySorted (λ a b, score_lt b.1 a.1 = false) l →
  StronglySorted (λ a b, score_lt b.1 a.1 = false) (insert_keyed p l).
Proof.
  induction 1 as [|q l Hs IH Hq]; simpl.
  - repeat constructor.
  - destruct (score_lt q.1 p.1) eqn:Hlt.
    + constructor; [done|]. rewrite insert_keyed_perm.
      constructor; [by apply score_lt_asym|done].
    + constructor; [by constructor|]. constructor; [done|].
      eapply Forall_impl; [exact Hq|]. intros z Hz. simpl in Hz.
      by eapply score_le_trans.
Qed.

Lemma sort_keyed_sorted l :
  StronglySorted (λ a b, score_lt b.1 a.1 = false) (sort_keyed l).
Proof.
  induction l as [|p l IH]; [constructor|].
  unfold sort_keyed in *. simpl. by apply insert_keyed_sorted.
Qed.
End sorting.

Lemma before_elem_of {A : Type} (x y : A) (l : list A) :
  before x y l → x ∈ l ∧ y ∈ l.
Proof.
  intros (l1 & l2 & l3 & ->). split.
  - apply elem_of_app. right. apply list_elem_of_here.
  - apply elem_of_app. right. apply list_elem_of_further, elem_of_app. right.
    apply list_elem_of_here.
Qed.

Lemma islice_Ok {A : Type} (l r : list A) (stop : Z) :
  islice l stop = Ok r ↔ 0 ≤ stop ≤ sys_maxsize ∧ r = take (Z.to_nat stop) l.
Proof.
  unfold islice. case_bool_decide; split; try done.
  - by intros [= <-].
  - by intros [_ ->].
  - by intros [? _].
Qed.

Section list_sort.
Context `{PF : PyFloat} {A : Type}.
Implicit Types (key : A → result score) (l r : list A).

Lemma keyed_zip key l ks :
  Forall2 (λ x k, key x = Ok k) l ks →
  Forall (λ p, key p.2 = Ok p.1) (zip ks l) ∧ (zip ks l).*2 = l.
Proof.
  induction 1 as [|x k l ks Hk _ [IH1 IH2]]; [by split|].
  split; [by constructor|]. change (x :: (zip ks l).*2 = x :: l).
  by rewrite IH2.
Qed.

Lemma list_sort_inv key l r :
  list_sort key l = Ok r →
  ∃ sd, r = sd.*2 ∧ Forall (λ p, key p.2 = Ok p.1) sd ∧
        ∃ ks, sd = sort_keyed (zip ks l) ∧ (zip ks l).*2 = l ∧
              Forall (λ p, key p.2 = Ok p.1) (zip ks l).
Proof.
  unfold list_sort. intros (ks & Hks%map_result_Ok & [= <-])%bind_Ok.
  destruct (keyed_zip _ _ _ Hks) as [Hz1 Hz2].
  eexists. split; [done|]. split.
  - by rewrite sort_keyed_perm.
  - by exists ks.
Qed.

Lemma list_sort_perm key l r : list_sort key l = Ok r → r ≡ₚ l.
Proof.
  intros (sd & -> & _ & ks & -> & Hz & _)%list_sort_inv.
  by rewrite sort_keyed_perm, Hz.
Qed.

Lemma list_sort_total key l :
  Forall (λ x, ∃ k, key x = Ok k) l → ∃ r, list_sort key l = Ok r.
Proof.
  intros H. assert (∃ ks, map_result key l = Ok ks) as [ks Hks].
  { induction H as [|x l [k Hk] _ [ks IH]]; simpl; [by eauto|].
    rewrite Hk. simpl. rewrite IH. simpl. by eauto. }
  unfold list_sort. rewrite Hks. simpl. by eauto.
Qed.

Lemma list_sort_stable key l r x y kx ky :
  list_sort key l = Ok r → before x y r →
  key x = Ok kx → key y = Ok ky → score_lt kx ky = false →
  before x y l.
Proof.
  intros (sd & -> & Hsd & ks & -> & Hz & _)%list_sort_inv Hb Hx Hy Hlt.
  apply before_fmap_inv in Hb as (p & q & -> & -> & Hb).
  rewrite Forall_forall in Hsd.
  destruct (before_elem_of _ _ _ Hb) as [Hp Hq].
  rewrite (Hsd _ Hp) in Hx. rewrite (Hsd _ Hq) in Hy.
  injection Hx as <-. injection Hy as <-.
  apply sort_keyed_stable in Hb; [|done].
  rewrite <-Hz. by apply before_fmap.
Qed.

Lemma list_sort_ascending `{!PyFloatLaws PF} key l r :
  list_sort key l = Ok r → ascending_by key r.
Proof.
  intros (sd & -> & Hsd & ks & -> & _ & _)%list_sort_inv.
  pose proof (sort_keyed_sorted (zip ks l)) as Hs.
  unfold ascending_by. induction Hs as [|p sd Hs IH Hp]; [constructor|].
  apply Forall_cons in Hsd as [Hkp Hsd]. simpl. constructor; [by apply IH|].
  rewrite Forall_fmap. rewrite Forall_forall in Hsd, Hp |- *.
  intros q Hq. simpl. exists p.1, q.1. split_and!; [done|by apply Hsd|by apply Hp].
Qed.

Lemma ascending_by_take key l n :
  ascending_by key l → ascending_by key (take n l).
Proof.
  unfold ascending_by. intros H. rewrite <-(take_drop n l) in H.
  by apply StronglySorted_app_1_l in H.
Qed.
End list_sort.


(** ** The store *)

Lemma unlimited_lookup denoms d :
  unlimited denoms !! d = if decide (d ∈ denoms) then Some _INFTY else None.
Proof.
  unfold unlimited. induction denoms as [|d' denoms IH].
  - destruct (decide (d ∈ [])) as [H|_]; [by apply elem_of_nil in H|done].
  - rewrite fmap_cons, list_to_map_cons.
    destruct (decide (d' = d)) as [->|Hne].
    + rewrite lookup_insert_eq. rewrite decide_True; [done|apply list_elem_of_here].
    + rewrite lookup_insert_ne by done. rewrite IH.
      destruct (decide (d ∈ denoms)) as [Hin|Hin].
      * rewrite decide_True; [done|by apply list_elem_of_further].
      * rewrite decide_False; [done|]. intros [->|?]%elem_of_cons; done.
Qed.

Lemma normalised_lookup denoms given d :
  normalised denoms given !! d =
  match given ≫= (.!! d) with
  | Some q => Some q
  | None => if decide (d ∈ denoms) then Some _INFTY else None
  end.
Proof.
  destruct given as [m|]; simpl; [|apply unlimited_lookup].
  rewrite lookup_union, unlimited_lookup.
  destruct (m !! d); simpl; [|by rewrite (left_id_L None _)].
  by case_decide.
Qed.

Lemma normalised_dense denoms given d :
  d ∈ denoms → is_Some (normalised denoms given !! d).
Proof.
  intros Hd. rewrite normalised_lookup. destruct (given ≫= _); [by eauto|].
  rewrite decide_True by done. by eauto.
Qed.

Lemma store_eta s : {| currencies := currencies s; dicts := dicts s |} = s.
Proof. by destruct s. Qed.

Lemma setitems_run items l0 : ∀ s m0,
  dicts s !! l0 = Some m0 →
  for_eachM items (λ '(d, qty), dict_setitem l0 d qty) s =
  (Ok (), {| currencies := currencies s;
             dicts := <[l0 := foldl (λ acc kv, <[kv.1 := kv.2]> acc) m0 items]>
                        (dicts s) |}).
Proof.
  induction items as [|[d q] items IH]; intros s m0 Hl; simpl.
  - rewrite insert_id by done. by rewrite store_eta.
  - unfold mbind, M_bind, dict_setitem at 1. rewrite Hl.
    rewrite (IH _ (<[d:=q]> m0)) by (simpl; apply lookup_insert_eq).
    simpl. by rewrite insert_insert_eq.
Qed.

Lemma foldl_insert_union (items : list (Z * Z)) : ∀ m0 : gmap Z Z,
  NoDup items.*1 →
  foldl (λ acc kv, <[kv.1 := kv.2]> acc) m0 items = list_to_map items ∪ m0.
Proof.
  induction items as [|[k v] items IH]; intros m0 Hnd.
  - rewrite list_to_map_nil. by rewrite (left_id_L ∅ _).
  - rewrite fmap_cons in Hnd. apply NoDup_cons in Hnd as [Hk Hnd].
    rewrite list_to_map_cons. cbn [foldl fst snd]. rewrite IH by done.
    rewrite <-insert_union_l. symmetry. apply insert_union_r.
    by apply not_elem_of_list_to_map_1.
Qed.

Lemma normalise_stock_Ok denoms bs s l s' :
  _normalise_stock denoms bs s = (Ok l, s') →
  l = fresh (dom (dicts s)) ∧ currencies s' = currencies s ∧
  dicts s' = <[l := normalised denoms (caller_stock s bs)]> (dicts s).
Proof.
  unfold _normalise_stock, mbind, M_bind, dict_new. fold (unlimited denoms).
  set (l0 := fresh (dom (dicts s))).
  assert (dicts s !! l0 = None) as Hfresh
    by (apply not_elem_of_dom, is_fresh).
  destruct bs as [b|]; simpl; [|by intros [= <- <-]].
  unfold dict_deref at 1. simpl.
  assert (∀ m, <[l0:=unlimited denoms]> (dicts s) !! b = Some m →
               m ∪ unlimited denoms =
               normalised denoms (dicts s !! b)) as Hm.
  { intros m. destruct (decide (l0 = b)) as [<-|Hne].
    - rewrite lookup_insert_eq, Hfresh. intros [= <-]. simpl.
      apply (idemp_L (∪)).
    - rewrite lookup_insert_ne by done. by intros ->. }
  destruct (<[l0:=unlimited denoms]> (dicts s) !! b) as [m|] eqn:Hb; [|done].
  specialize (Hm m eq_refl).
  case_bool_decide as Hempty.
  - erewrite setitems_run by (simpl; apply lookup_insert_eq).
    simpl. intros [= <- <-]. simpl. split_and!; [done..|].
    rewrite insert_insert_eq. f_equal.
    rewrite foldl_insert_union by apply NoDup_fst_map_to_list.
    by rewrite list_to_map_to_list.
  - simpl. intros [= <- <-]. simpl. split_and!; [done..|]. f_equal.
    rewrite <-Hm. subst m.
    by rewrite (left_id_L ∅ _).
Qed.

Lemma normalise_stock_total denoms bs s :
  valid_ref s bs → ∃ l s', _normalise_stock denoms bs s = (Ok l, s').
Proof.
  intros Hv. unfold _normalise_stock, mbind, M_bind, dict_new.
  set (l0 := fresh (dom (dicts s))).
  assert (dicts s !! l0 = None) as Hfresh
    by (apply not_elem_of_dom, is_fresh).
  destruct bs as [b|]; simpl; [|by eauto].
  destruct Hv as [m Hm]. unfold dict_deref at 1. simpl.
  rewrite lookup_insert_ne by congruence. rewrite Hm.
  case_bool_decide; [|by eauto].
  erewrite setitems_run by (simpl; apply lookup_insert_eq). by eauto.
Qed.

(** Whatever happens, the table and the dictionaries that existed before
    the call are as they were. *)
Lemma normalise_stock_frame denoms bs s :
  currencies (_normalise_stock denoms bs s).2 = currencies s ∧
  ∀ l m, dicts s !! l = Some m →
         dicts (_normalise_stock denoms bs s).2 !! l = Some m.
Proof.
  unfold _normalise_stock, mbind, M_bind, dict_new.
  set (l0 := fresh (dom (dicts s))).
  assert (dicts s !! l0 = None) as Hfresh
    by (apply not_elem_of_dom, is_fresh).
  assert (∀ X l m, dicts s !! l = Some m → <[l0:=X]> (dicts s) !! l = Some m)
    as Hkeep.
  { intros X l m Hl. rewrite lookup_insert_ne; [done|]. congruence. }
  destruct bs as [b|]; simpl; [|split; [done|intros; by apply Hkeep]].
  unfold dict_deref. simpl.
  destruct (<[l0:=_]> (dicts s) !! b) as [m|] eqn:Hb; simpl; [|split; [done|intros; by apply Hkeep]].
  case_bool_decide; simpl; [|split; [done|intros; by apply Hkeep]].
  erewrite setitems_run by (simpl; apply lookup_insert_eq).
  simpl. split; [done|]. intros l m' Hl. rewrite insert_insert_eq. by apply Hkeep.
Qed.

(** ** The public functions *)

Section public.
Context `{PF : PyFloat}.

Lemma find_ideal_run amount code mv bs s denoms :
  valid_ref s bs → currencies s !! upper code = Some denoms →
  (find_ideal_block_variants amount code mv bs s).1 =
  (raw ← _enumerate_ideal_configs amount denoms
           (normalised denoms (caller_stock s bs));
   raw ← list_sort (λ tpl, _score_ideal tpl.1 tpl.2 denoms) raw;
   islice raw mv).
Proof.
  intros Hv Hc. unfold find_ideal_block_variants, mbind at 1 2 3, M_bind.
  unfold currencies_getitem. rewrite Hc.
  destruct (normalise_stock_total denoms bs s Hv) as (l & s1 & Hn).
  rewrite Hn. apply normalise_stock_Ok in Hn as (_ & _ & Hd).
  unfold dict_deref. rewrite Hd, lookup_insert_eq. done.
Qed.

Lemma find_ideal_inv amount code mv bs s r :
  (find_ideal_block_variants amount code mv bs s).1 = Ok r →
  ∃ denoms raw sorted,
    currencies s !! upper code = Some denoms ∧
    _enumerate_ideal_configs amount denoms
      (normalised denoms (caller_stock s bs)) = Ok raw ∧
    list_sort (λ tpl, _score_ideal tpl.1 tpl.2 denoms) raw = Ok sorted ∧
    islice sorted mv = Ok r.
Proof.
  unfold find_ideal_block_variants, mbind at 1 2 3, M_bind.
  unfold currencies_getitem.
  destruct (currencies s !! upper code) as [denoms|]; [|done].
  destruct (_normalise_stock denoms bs s) as [[l|e] s1] eqn:Hn; [|done].
  apply normalise_stock_Ok in Hn as (_ & _ & Hd).
  unfold dict_deref. rewrite Hd, lookup_insert_eq. unfold lift. simpl.
  intros (raw & Hraw & (sorted & Hs & H)%bind_Ok)%bind_Ok.
  by exists denoms, raw, sorted.
Qed.

Lemma find_ideal_frame amount code mv bs s :
  currencies (find_ideal_block_variants amount code mv bs s).2 = currencies s ∧
  ∀ l m, dicts s !! l = Some m →
         dicts (find_ideal_block_variants amount code mv bs s).2 !! l = Some m.
Proof.
  unfold find_ideal_block_variants, mbind, M_bind, currencies_getitem, lift.
  destruct (currencies s !! upper code) as [denoms|]; [|done].
  pose proof (normalise_stock_frame denoms bs s) as Hf.
  destruct (_normalise_stock denoms bs s) as [[l|e] s1]; [|done].
  unfold dict_deref. by destruct (dicts s1 !! l).
Qed.

Lemma find_loose_run amount code mv bs s denoms :
  valid_ref s bs → currencies s !! upper code = Some denoms →
  (find_loose_bundle_variants amount code mv bs s).1 =
  (raw ← _enumerate_loose_configs amount denoms
           (normalised denoms (caller_stock s bs));
   raw ← list_sort (λ bc, _score_loose bc denoms) raw;
   islice raw mv).
Proof.
  intros Hv Hc. unfold find_loose_bundle_variants, mbind at 1 2 3, M_bind.
  unfold currencies_getitem. rewrite Hc.
  destruct (normalise_stock_total denoms bs s Hv) as (l & s1 & Hn).
  rewrite Hn. apply normalise_stock_Ok in Hn as (_ & _ & Hd).
  unfold dict_deref. rewrite Hd, lookup_insert_eq. done.
Qed.

Lemma find_loose_inv amount code mv bs s r :
  (find_loose_bundle_variants amount code mv bs s).1 = Ok r →
  ∃ denoms raw sorted,
    currencies s !! upper code = Some denoms ∧
    _enumerate_loose_configs amount denoms
      (normalised denoms (caller_stock s bs)) = Ok raw ∧
    list_sort (λ bc, _score_loose bc denoms) raw = Ok sorted ∧
    islice sorted mv = Ok r.
Proof.
  unfold find_loose_bundle_variants, mbind at 1 2 3, M_bind.
  unfold currencies_getitem.
  destruct (currencies s !! upper code) as [denoms|]; [|done].
  destruct (_normalise_stock denoms bs s) as [[l|e] s1] eqn:Hn; [|done].
  apply normalise_stock_Ok in Hn as (_ & _ & Hd).
  unfold dict_deref. rewrite Hd, lookup_insert_eq. unfold lift. simpl.
  intros (raw & Hraw & (sorted & Hs & H)%bind_Ok)%bind_Ok.
  by exists denoms, raw, sorted.
Qed.

Lemma find_loose_frame amount code mv bs s :
  currencies (find_loose_bundle_variants amount code mv bs s).2 = currencies s ∧
  ∀ l m, dicts s !! l = Some m →
         dicts (find_loose_bundle_variants amount code mv bs s).2 !! l = Some m.
Proof.
  unfold find_loose_bundle_variants, mbind, M_bind, currencies_getitem, lift.
  destruct (currencies s !! upper code) as [denoms|]; [|done].
  pose proof (normalise_stock_frame denoms bs s) as Hf.
  destruct (_normalise_stock denoms bs s) as [[l|e] s1]; [|done].
  unfold dict_deref. by destruct (dicts s1 !! l).
Qed.
End public.


(** ** The currency table and the float model *)

Lemma CURRENCIES_regular code denoms :
  CURRENCIES !! code = Some denoms → regular denoms ∧ descending denoms.
Proof.
  unfold CURRENCIES. intros H.
  repeat (apply lookup_insert_Some in H as [[_ <-]|[_ H]];
    [split; [split; [repeat constructor|simpl; lia]
            |repeat constructor; lia]|]).
  by rewrite lookup_empty in H.
Qed.

#[global] Instance Q_float_laws : PyFloatLaws Q_float.
Proof.
  split; simpl.
  - intros x y Hxy. apply negb_true_iff in Hxy. apply negb_false_iff.
    apply Qle_bool_iff. destruct (Qlt_le_dec x y) as [Hlt|Hle].
    + by apply Qlt_le_weak.
    + apply Qle_bool_iff in Hle. congruence.
  - intros x y z Hxz. apply negb_true_iff in Hxz.
    destruct (Qle_bool y x) eqn:Hyx; [|by left]. right.
    apply negb_true_iff. destruct (Qle_bool z y) eqn:Hzy; [|done].
    apply Qle_bool_iff in Hyx, Hzy.
    assert (Qle_bool z x = true) by (apply Qle_bool_iff; by apply (Qle_trans _ y)).
    congruence.
  - intros x y. rewrite !negb_false_iff, !Qle_bool_iff, Qeq_bool_iff. split.
    + intros Heq. rewrite Heq. split; apply Qle_refl.
    + intros [H1 H2]. by apply Qle_antisym.
Qed.


(** ** What the public functions return *)

Lemma ranked_subset `{PyFloat} {A : Type} (key : A → result score)
    (raw sorted r : list A) (mv : Z) (x : A) :
  list_sort key raw = Ok sorted → islice sorted mv = Ok r → x ∈ r → x ∈ raw.
Proof.
  intros Hs [_ ->]%islice_Ok Hx. rewrite <-(list_sort_perm _ _ _ Hs).
  by eapply subseteq_take.
Qed.

Lemma regular_sorted denoms :
  regular denoms → ∃ d y ds, sorted_reverse denoms = d :: y :: ds ∧
                              Forall (λ d, 0 < d) (sorted_reverse denoms).
Proof.
  intros [Hpos Hlen]. rewrite <-sorted_reverse_length in Hlen.
  apply sorted_reverse_Forall in Hpos.
  destruct (sorted_reverse denoms) as [|d [|y ds]]; simpl in Hlen; [lia..|].
  by eauto.
Qed.

Lemma normalised_limit denoms given d q :
  normalised denoms given !! d = Some q → d ∈ denoms →
  q = stock_limit given d.
Proof.
  rewrite normalised_lookup. unfold stock_limit. intros H Hd.
  destruct (given ≫= _); simpl; [congruence|].
  rewrite decide_True in H by done. congruence.
Qed.

Lemma respects_limit denoms given c i d ci :
  stock_bounds (normalised denoms given) (sorted_reverse denoms) c →
  sorted_reverse denoms !! i = Some d → c !! i = Some ci →
  ci ≤ stock_limit given d.
Proof.
  intros [_ Hw]%stock_bounds_within Hd Hc.
  destruct (Hw _ _ _ Hd Hc) as (q & Hq & Hle).
  apply normalised_limit in Hq; [lia|].
  apply sorted_reverse_elem_of. by eapply list_elem_of_lookup_2.
Qed.

(** C1 (exactness).  Every configuration returned by
    [find_ideal_block_variants] (the second component of each pair) and every
    configuration returned by [find_loose_bundle_variants] has one count per
    denomination of the currency and, with the denominations sorted
    descending, [sum(c[i] * denom[i]) * BUNDLE_SIZE == amount]. *)
Theorem exactness `{PyFloat} (amount : Z) (code : string) (mv : Z)
    (bs : option loc) (s : store) :
  (∀ r x, (find_ideal_block_variants amount code mv bs s).1 = Ok r → x ∈ r →
     ∃ denoms, currencies s !! upper code = Some denoms ∧
       length x.2 = length denoms ∧
       weighted (sorted_reverse denoms) x.2 * BUNDLE_SIZE = amount) ∧
  (∀ r c, (find_loose_bundle_variants amount code mv bs s).1 = Ok r → c ∈ r →
     ∃ denoms, currencies s !! upper code = Some denoms ∧
       length c = length denoms ∧
       weighted (sorted_reverse denoms) c * BUNDLE_SIZE = amount).
Proof.
  split.
  - intros r x (denoms & raw & sorted & Hc & Hraw & Hs & Hr)%find_ideal_inv Hx.
    exists denoms. split; [done|].
    eapply ranked_subset in Hx; [|done..].
    eapply enumerate_ideal_sound in Hx as (Hm & _ & Hp); [|done].
    apply block_path_sound in Hp as (Hl & _ & Hw & _).
    rewrite sorted_reverse_length in Hl. split; [done|]. by apply exact_amount.
  - intros r c (denoms & raw & sorted & Hc & Hraw & Hs & Hr)%find_loose_inv Hx.
    exists denoms. split; [done|].
    eapply ranked_subset in Hx; [|done..].
    apply enumerate_loose_inv in Hraw as [_ Hraw].
    apply Hraw in Hx as [Hm Hp].
    apply bundle_path_sound in Hp as (Hl & Hw & _).
    rewrite sorted_reverse_length in Hl. split; [done|]. by apply exact_amount.
Qed.

(** C3 (grouping invariant).  Every pair [(blocks, c)] returned by
    [find_ideal_block_variants], and every pair produced by
    [_enumerate_ideal_configs], has [sum(c) == blocks * BLOCK_SIZE] and
    [blocks >= 1]. *)
Theorem grouping_invariant `{PyFloat} :
  (∀ amount code mv bs s r x,
     (find_ideal_block_variants amount code mv bs s).1 = Ok r → x ∈ r →
     sum x.2 = x.1 * BLOCK_SIZE ∧ 1 ≤ x.1) ∧
  (∀ amount denoms stock raw x,
     _enumerate_ideal_configs amount denoms stock = Ok raw → x ∈ raw →
     sum x.2 = x.1 * BLOCK_SIZE ∧ 1 ≤ x.1).
Proof.
  assert (∀ amount denoms stock raw x,
    _enumerate_ideal_configs amount denoms stock = Ok raw → x ∈ raw →
    sum x.2 = x.1 * BLOCK_SIZE ∧ 1 ≤ x.1) as Henum.
  { intros amount denoms stock raw x Hraw Hx.
    eapply enumerate_ideal_sound in Hx as (_ & Hb & Hp); [|done].
    by apply block_path_sound in Hp as (_ & Hsum & _). }
  split; [|done].
  intros amount code mv bs s r x
    (denoms & raw & sorted & Hc & Hraw & Hs & Hr)%find_ideal_inv Hx.
  eapply Henum; [done|]. by eapply ranked_subset.
Qed.

(** C4 (stock respect).  For every configuration [c] returned by either
    public function and every index [i], [c[i]] is at most the normalised
    stock of [denom[i]]: the caller's count where [bundles_stock] has the
    denomination, the sentinel otherwise.  An explicit entry of 0 forces
    [c[i] == 0]; for the loose search this uses that the currency has at
    least two denominations, all positive, as every entry of [CURRENCIES]. *)
Theorem stock_respect `{PyFloat} (amount : Z) (code : string) (mv : Z)
    (bs : option loc) (s : store) (denoms : list Z) :
  currencies s !! upper code = Some denoms →
  (∀ r x (i : nat) d ci,
     (find_ideal_block_variants amount code mv bs s).1 = Ok r → x ∈ r →
     sorted_reverse denoms !! i = Some d → x.2 !! i = Some ci →
     ci ≤ stock_limit (caller_stock s bs) d ∧
     (caller_stock s bs ≫= (.!! d) = Some 0 → ci = 0)) ∧
  (∀ r c (i : nat) d ci,
     (find_loose_bundle_variants amount code mv bs s).1 = Ok r → c ∈ r →
     sorted_reverse denoms !! i = Some d → c !! i = Some ci →
     ci ≤ stock_limit (caller_stock s bs) d ∧
     (regular denoms → caller_stock s bs ≫= (.!! d) = Some 0 → ci = 0)).
Proof.
  intros Hcur. split.
  - intros r x i d ci (denoms' & raw & sorted & Hc & Hraw & Hs & Hr)%find_ideal_inv
      Hx Hd Hci.
    rewrite Hcur in Hc. injection Hc as <-.
    eapply ranked_subset in Hx; [|done..].
    eapply enumerate_ideal_sound in Hx as (_ & Hb & Hp); [|done].
    apply block_path_sound in Hp as (_ & _ & _ & Hst & Hnn).
    pose proof (respects_limit _ _ _ _ _ _ Hst Hd Hci) as Hle.
    split; [done|]. intros Hzero. unfold stock_limit in Hle.
    rewrite Hzero in Hle. simpl in Hle.
    specialize (Hnn ltac:(unfold BLOCK_SIZE; lia)).
    rewrite Forall_lookup in Hnn. specialize (Hnn _ _ Hci). simpl in Hnn. lia.
  - intros r c i d ci (denoms' & raw & sorted & Hc & Hraw & Hs & Hr)%find_loose_inv
      Hx Hd Hci.
    rewrite Hcur in Hc. injection Hc as <-.
    eapply ranked_subset in Hx; [|done..].
    apply enumerate_loose_inv in Hraw as [_ Hraw].
    apply Hraw in Hx as [_ Hp].
    pose proof Hp as (_ & _ & Hst)%bundle_path_sound.
    pose proof (respects_limit _ _ _ _ _ _ Hst Hd Hci) as Hle.
    split; [done|]. intros Hreg Hzero. unfold stock_limit in Hle.
    rewrite Hzero in Hle. simpl in Hle.
    destruct (regular_sorted _ Hreg) as (d0 & y & ds & Heq & Hpos).
    assert (Forall (λ b, 0 ≤ b) c) as Hnn.
    { eapply bundle_path_nonneg; [exact Hpos| |exact Hp].
      rewrite Heq in Hp, Hpos. apply Forall_cons in Hpos as [Hd0 _].
      by eapply bundle_path_value_nonneg. }
    rewrite Forall_lookup in Hnn. specialize (Hnn _ _ Hci). simpl in Hnn. lia.
Qed.


(** ** The enumerations against the data model *)

(** C2 (completeness of the grouped enumeration).  For a positive amount
    divisible by [BUNDLE_SIZE], a non-empty descending list of (positive)
    denominations, no longer than the interpreter can recurse through
    ([max_denominations]), and a dense stock map,
    [_enumerate_ideal_configs] returns,
    and returns every pair [(block_count, config)] with [block_count >= 1],
    one non-negative count per denomination,
    [sum(config) == block_count * BLOCK_SIZE],
    [sum(config[i] * denom[i]) == amount / BUNDLE_SIZE] and
    [config[i] <= stock[denom[i]]]; no such pair lies above the bound
    [min(amount // (min(denom) * BUNDLE_SIZE * BLOCK_SIZE),
         sum(stock) // BLOCK_SIZE)]. *)
Theorem grouped_enumeration_complete (amount : Z) (denoms : list Z)
    (stock : gmap Z Z) :
  0 < amount → amount `mod` BUNDLE_SIZE = 0 →
  denoms ≠ [] → (length denoms ≤ max_denominations)%nat →
  descending denoms → Forall (λ d, 0 < d) denoms →
  (∀ d, d ∈ denoms → is_Some (stock !! d)) →
  ∃ raw m total,
    _enumerate_ideal_configs amount denoms stock = Ok raw ∧
    py_min denoms = Ok m ∧ sum_stock stock denoms = Ok total ∧
    ∀ block_count config,
      1 ≤ block_count → length config = length denoms →
      Forall (λ b, 0 ≤ b) config →
      sum config = block_count * BLOCK_SIZE →
      weighted denoms config = amount `div` BUNDLE_SIZE →
      within_stock stock denoms config →
      (block_count, config) ∈ raw ∧
      block_count ≤ Z.min (amount `div` (m * BUNDLE_SIZE * BLOCK_SIZE))
                          (total `div` BLOCK_SIZE).
Proof.
  intros Hpos Hmod Hne _ Hdesc Hdpos Hdense.
  destruct (enumerate_ideal_total amount denoms stock) as [raw Hraw]; [done..|].
  destruct (py_min_total _ Hne) as [m Hm].
  destruct (sum_stock_total _ _ Hdense) as [total Htot].
  exists raw, m, total. split_and!; [done..|].
  intros blocks c Hb Hl Hnn Hsum Hw Hst.
  assert (block_path stock denoms (blocks * BLOCK_SIZE)
            (amount `div` BUNDLE_SIZE) c) as Hp.
  { apply block_path_complete; [done..|]. by apply stock_bounds_within. }
  split.
  - eapply (enumerate_ideal_complete _ _ _ _ (blocks, c)); [done..|].
    simpl. by rewrite sorted_reverse_descending.
  - eapply block_bound; [done..|lia|done].
Qed.

(** C7 (loose superset).  For every amount, denomination list and stock map,
    the configuration of every pair produced by [_enumerate_ideal_configs] is
    an element of what [_enumerate_loose_configs] returns on the same
    inputs. *)
Theorem loose_superset (amount : Z) (denoms : list Z) (stock : gmap Z Z)
    (raw : list (Z * list Z)) (x : Z * list Z) :
  _enumerate_ideal_configs amount denoms stock = Ok raw → x ∈ raw →
  ∃ loose, _enumerate_loose_configs amount denoms stock = Ok loose ∧
           x.2 ∈ loose.
Proof.
  intros Hraw Hx.
  eapply enumerate_ideal_sound in Hx as (Hm & _ & Hp); [|done].
  destruct (enumerate_loose_total amount denoms stock) as [loose Hloose].
  { by eapply block_path_levels_ok. }
  exists loose. split; [done|].
  apply enumerate_loose_inv in Hloose as [_ Hin]. apply Hin.
  split; [done|]. by eapply block_path_bundle_path.
Qed.

Lemma scenario_B_inv raw x :
  _enumerate_ideal_configs 750000 usd (normalised usd (Some scenario_B_stock))
    = Ok raw →
  x ∈ raw →
  ∃ a b c d, x.2 = [a; b; c; d] ∧
    100 * a + 50 * b + 20 * c + 10 * d = 7500 ∧
    0 ≤ a ≤ 18 ∧ 0 ≤ b ≤ 40 ∧ 0 ≤ c ∧ 0 ≤ d ∧
    a + b + c + d = x.1 * 30.
Proof.
  intros Hraw Hx.
  eapply enumerate_ideal_sound in Hx as (_ & Hb & Hp); [|exact Hraw].
  clear Hraw.
  apply block_path_sound in Hp as (Hl & Hsum & Hw & Hst & Hnn).
  specialize (Hnn ltac:(unfold BLOCK_SIZE; lia)).
  change (sorted_reverse usd) with usd in *.
  destruct x as [blocks c]. simpl in *.
  destruct c as [|a [|b [|c [|d [|]]]]]; try done.
  exists a, b, c, d. split; [done|].
  apply Forall2_cons in Hst as [(sa & Hsa & Ha) Hst].
  apply Forall2_cons in Hst as [(sb & Hsb & Hb') _].
  vm_compute in Hsa, Hsb. injection Hsa as <-. injection Hsb as <-.
  repeat (apply Forall_cons in Hnn as [? Hnn]).
  unfold sum, weighted, BLOCK_SIZE in *. simpl in *.
  change (750000 `div` BUNDLE_SIZE) with 7500 in Hw. lia.
Qed.

(** Scenario B as the specification words it fails: no enumerated configuration
    leaves the denominations 20 and 10 unused, since 18 bundles of 100 and
    40 bundles of 50 are worth 3800 units, not 7500. *)
Lemma scenario_B_needs_small_denominations :
  ¬ ∃ raw x a b,
      _enumerate_ideal_configs 750000 usd
        (normalised usd (Some scenario_B_stock)) = Ok raw ∧
      x ∈ raw ∧ x.2 = [a; b; 0; 0].
Proof.
  intros (raw & x & a & b & Hraw & Hx & Hc).
  destruct (scenario_B_inv _ _ Hraw Hx) as (a' & b' & c & d & Hc' & H).
  rewrite Hc in Hc'. injection Hc' as <- <- <- <-. lia.
Qed.

(** C9 (scenario B, amended).  With amount 750000, the USD denominations
    and the stock [{100: 18, 50: 40}] normalised (20 and 10 unlimited), the
    grouped enumeration returns a non-empty list; every configuration in it
    sums to 7500 units, uses at most 18 hundred-bundles and at most 40
    fifty-bundles, has a bundle count that is a whole number of 30-bundle
    blocks, and uses bundles of 20 or of 10. *)
Theorem scenario_B :
  ∃ raw,
    _enumerate_ideal_configs 750000 usd
      (normalised usd (Some scenario_B_stock)) = Ok raw ∧
    (13, [0; 0; 360; 30]) ∈ raw ∧
    ∀ x, x ∈ raw →
      ∃ a b c d, x.2 = [a; b; c; d] ∧
        100 * a + 50 * b + 20 * c + 10 * d = 7500 ∧
        0 ≤ a ≤ 18 ∧ 0 ≤ b ≤ 40 ∧ 0 ≤ c ∧ 0 ≤ d ∧
        a + b + c + d = x.1 * 30 ∧ 0 < c + d.
Proof.
  assert (Forall (λ d, 0 < d) usd) as Hpos by (repeat constructor).
  destruct (enumerate_ideal_total 750000 usd
    (normalised usd (Some scenario_B_stock))) as [raw Hraw]; [done|done| |].
  { intros d Hd. by apply normalised_dense. }
  exists raw. split_and!; [done| |].
  - eapply (enumerate_ideal_complete _ _ _ _ (13, [0; 0; 360; 30]));
      [done..|simpl; lia|].
    apply block_path_complete; [done|done|repeat constructor; lia|done|done|].
    repeat constructor; eexists; (split; [vm_compute; reflexivity|]);
      unfold _INFTY; lia.
  - intros x Hx.
    destruct (scenario_B_inv _ _ Hraw Hx) as (a & b & c & d & Hc & H).
    exists a, b, c, d. split; [done|]. lia.
Qed.

(** ** Edge cases and the size of the result *)

Lemma no_elements {A : Type} (l : list A) : (∀ x, x ∉ l) → l = [].
Proof.
  destruct l as [|x l]; [done|]. intros H. destruct (H x). apply list_elem_of_here.
Qed.

Lemma regular_nonempty denoms : regular denoms → denoms ≠ [].
Proof. intros [_ Hl] ->. simpl in Hl. lia. Qed.

Lemma enumerate_ideal_nonpos amount denoms stock :
  amount ≤ 0 → denoms ≠ [] → Forall (λ d, 0 < d) denoms →
  (∀ d, d ∈ denoms → is_Some (stock !! d)) →
  _enumerate_ideal_configs amount denoms stock = Ok [].
Proof.
  intros Ha Hne Hpos Hdense.
  destruct (enumerate_ideal_total amount denoms stock) as [raw Hraw]; [done..|].
  rewrite Hraw. f_equal. apply no_elements. intros x Hx.
  eapply enumerate_ideal_sound in Hx as (Hm & Hb & Hp); [|done].
  apply block_path_sound in Hp as (Hl & Hsum & Hw & _ & Hnn).
  specialize (Hnn ltac:(unfold BLOCK_SIZE; lia)).
  assert (1 * sum x.2 ≤ weighted (sorted_reverse denoms) x.2) as Hlow.
  { apply weighted_lower_bound; [|done..].
    apply sorted_reverse_Forall. eapply Forall_impl; [exact Hpos|].
    intros d Hd. simpl in Hd |- *. lia. }
  assert (amount `div` BUNDLE_SIZE ≤ 0).
  { apply Z.div_le_upper_bound; unfold BUNDLE_SIZE; lia. }
  unfold BLOCK_SIZE in *. lia.
Qed.

Lemma enumerate_loose_neg amount denoms stock :
  amount < 0 → regular denoms →
  (∀ d, d ∈ denoms → is_Some (stock !! d)) →
  _enumerate_loose_configs amount denoms stock = Ok [].
Proof.
  intros Ha Hreg Hdense.
  destruct (regular_sorted _ Hreg) as (d0 & y & ds & Heq & Hpos).
  destruct (enumerate_loose_total amount denoms stock) as [raw Hraw].
  { apply levels_ok_dense; [by rewrite Heq|done|].
    intros d Hd. apply Hdense. by apply sorted_reverse_elem_of. }
  rewrite Hraw. f_equal. apply no_elements. intros c Hc.
  apply enumerate_loose_inv in Hraw as [_ Hin]. apply Hin in Hc as [Hm Hp].
  rewrite Heq in Hp, Hpos. apply Forall_cons in Hpos as [Hd0 _].
  apply bundle_path_value_nonneg in Hp; [|done].
  assert (amount `div` BUNDLE_SIZE < 0); [|lia].
  apply Z.div_lt_upper_bound; unfold BUNDLE_SIZE; lia.
Qed.

Lemma islice_nil {A : Type} (mv : Z) :
  0 ≤ mv ≤ sys_maxsize → islice (@nil A) mv = Ok [].
Proof. intros Hmv. apply islice_Ok. split; [done|]. by rewrite take_nil. Qed.

(** The failure policy as the specification words it does not hold: with an empty
    denomination list the grouped enumeration raises [ValueError] (from
    [min]) and the loose one [IndexError]; with amount 0 the loose
    enumeration yields the all-zero configuration, whose score divides by
    zero. *)
Lemma edge_policy_fails :
  _enumerate_ideal_configs 100 [] ∅ = Raise ValueError ∧
  _enumerate_loose_configs 100 [] ∅ = Raise IndexError ∧
  _enumerate_loose_configs 0 usd (unlimited usd) = Ok [[0; 0; 0; 0]] ∧
  (find_loose_bundle_variants (H := Q_float) 0 "USD" 5 None initial_store).1 =
    Raise ZeroDivisionError.
Proof. split_and!; vm_compute; reflexivity. Qed.

(** C5 (failure and edge policy, amended).  For a currency of the table, a
    valid stock argument and a [max_variants] that [islice] accepts: if the
    amount is not divisible by [BUNDLE_SIZE], both searches return the empty
    list (and so do both enumerations, for any denomination list and stock);
    if the amount is negative and the currency has at least two
    denominations, all positive, both searches return the empty list; if the
    amount is zero, the grouped search returns the empty list.  No exception
    is raised in these cases. *)
Theorem edge_policy `{PyFloat} (amount : Z) (code : string) (mv : Z)
    (bs : option loc) (s : store) (denoms : list Z) :
  currencies s !! upper code = Some denoms → valid_ref s bs →
  0 ≤ mv ≤ sys_maxsize →
  (amount `mod` BUNDLE_SIZE ≠ 0 →
     (find_ideal_block_variants amount code mv bs s).1 = Ok [] ∧
     (find_loose_bundle_variants amount code mv bs s).1 = Ok [] ∧
     ∀ ds stock, _enumerate_ideal_configs amount ds stock = Ok [] ∧
                 _enumerate_loose_configs amount ds stock = Ok []) ∧
  (regular denoms → amount < 0 →
     (find_ideal_block_variants amount code mv bs s).1 = Ok [] ∧
     (find_loose_bundle_variants amount code mv bs s).1 = Ok []) ∧
  (regular denoms → amount = 0 →
     (find_ideal_block_variants amount code mv bs s).1 = Ok []).
Proof.
  intros Hcur Hv Hmv.
  assert (∀ d, d ∈ denoms →
    is_Some (normalised denoms (caller_stock s bs) !! d)) as Hdense
    by (intros d Hd; by apply normalised_dense).
  rewrite (find_ideal_run _ _ _ _ _ _ Hv Hcur).
  rewrite (find_loose_run _ _ _ _ _ _ Hv Hcur).
  split_and!.
  - intros Hm. split_and!.
    + rewrite enumerate_ideal_nodiv by done. simpl. by apply islice_nil.
    + rewrite enumerate_loose_nodiv by done. simpl. by apply islice_nil.
    + intros ds stock.
      by rewrite enumerate_ideal_nodiv, enumerate_loose_nodiv.
  - intros Hreg Ha. split.
    + rewrite enumerate_ideal_nonpos;
        [simpl; by apply islice_nil|lia|by apply regular_nonempty
        |by destruct Hreg|done].
    + rewrite enumerate_loose_neg by done. simpl. by apply islice_nil.
  - intros Hreg ->.
    rewrite enumerate_ideal_nonpos;
      [simpl; by apply islice_nil|lia|by apply regular_nonempty
      |by destruct Hreg|done].
Qed.

Lemma score_ideal_total `{PyFloat} blocks c ds :
  sum c ≠ 0 → ∃ k, _score_ideal blocks c ds = Ok k.
Proof.
  intros Hs. unfold _score_ideal, truediv.
  rewrite bool_decide_eq_false_2 by done. simpl. by eauto.
Qed.

Lemma score_loose_total `{PyFloat} c ds :
  sum c ≠ 0 → ∃ k, _score_loose c ds = Ok k.
Proof.
  intros Hs. unfold _score_loose, truediv.
  rewrite bool_decide_eq_false_2 by done. simpl. by eauto.
Qed.

Lemma weighted_zero ds : ∀ c,
  Forall (λ b, 0 ≤ b) c → sum c = 0 → weighted ds c = 0.
Proof.
  induction ds as [|d ds IH]; intros c Hnn Hs; [done|].
  destruct Hnn as [|b c Hb Hc]; [done|].
  rewrite sum_cons in Hs. pose proof (sum_nonneg _ Hc). simpl in Hb.
  rewrite weighted_cons, (IH c Hc) by lia.
  assert (b = 0) as -> by lia. lia.
Qed.

Lemma ranked_length `{PyFloat} {A : Type} (key : A → result score)
    (raw : list A) (mv : Z) :
  1 ≤ mv ≤ sys_maxsize → Forall (λ x, ∃ k, key x = Ok k) raw →
  ∃ r, (sorted ← list_sort key raw; islice sorted mv) = Ok r ∧
       Z.of_nat (length r) = Z.min mv (Z.of_nat (length raw)) ∧
       Z.of_nat (length r) ≤ mv.
Proof.
  intros Hmv Hkeys. destruct (list_sort_total key raw Hkeys) as [sorted Hs].
  rewrite Hs. simpl. exists (take (Z.to_nat mv) sorted). split.
  - apply islice_Ok. split; [lia|done].
  - rewrite length_take. apply list_sort_perm in Hs.
    rewrite (Permutation_length Hs). lia.
Qed.

(** With amount 0 the loose search raises although the all-zero
    configuration is feasible, and a [max_variants] above [sys.maxsize] is
    refused by [islice]. *)
Lemma bounded_output_fails :
  (find_loose_bundle_variants (H := Q_float) 0 "USD" 5 None initial_store).1 =
    Raise ZeroDivisionError ∧
  feasible_loose usd (unlimited usd) 0 [0; 0; 0; 0] ∧
  (find_ideal_block_variants (H := Q_float) 30000 "USD" (2 ^ 63) None
     initial_store).1 = Raise ValueError.
Proof.
  split_and!; [vm_compute; reflexivity| |vm_compute; reflexivity].
  split_and!; [done|repeat constructor; lia|done|].
  intros i d ci Hd Hc. exists _INFTY.
  destruct i as [|[|[|[|i]]]]; simplify_eq/=; (split; [done|unfold _INFTY; lia]).
Qed.

(** C8 (bounded output, amended).  For a currency of the table whose
    denominations are positive and at least two, a valid stock argument and
    [1 <= max_variants <= sys.maxsize]: [find_ideal_block_variants] returns
    a list whose length is the minimum of [max_variants] and the number of
    feasible grouped solutions and never exceeds [max_variants]; so does
    [find_loose_bundle_variants], with the feasible loose solutions, when
    the amount is not zero.  Whenever either function returns a list, its
    length does not exceed [max_variants]. *)
Theorem bounded_output `{PyFloat} (amount : Z) (code : string) (mv : Z)
    (bs : option loc) (s : store) (denoms : list Z) :
  currencies s !! upper code = Some denoms → regular denoms →
  valid_ref s bs → 1 ≤ mv ≤ sys_maxsize →
  (∃ r all,
     (find_ideal_block_variants amount code mv bs s).1 = Ok r ∧
     NoDup all ∧
     (∀ x, x ∈ all ↔
        feasible_grouped (sorted_reverse denoms)
          (normalised denoms (caller_stock s bs)) amount x) ∧
     Z.of_nat (length r) = Z.min mv (Z.of_nat (length all)) ∧
     Z.of_nat (length r) ≤ mv) ∧
  (amount ≠ 0 →
   ∃ r all,
     (find_loose_bundle_variants amount code mv bs s).1 = Ok r ∧
     NoDup all ∧
     (∀ c, c ∈ all ↔
        feasible_loose (sorted_reverse denoms)
          (normalised denoms (caller_stock s bs)) amount c) ∧
     Z.of_nat (length r) = Z.min mv (Z.of_nat (length all)) ∧
     Z.of_nat (length r) ≤ mv) ∧
  (∀ r, (find_ideal_block_variants amount code mv bs s).1 = Ok r →
        Z.of_nat (length r) ≤ mv) ∧
  (∀ r, (find_loose_bundle_variants amount code mv bs s).1 = Ok r →
        Z.of_nat (length r) ≤ mv).
Proof.
  intros Hcur Hreg Hv Hmv.
  assert (∀ r, (find_ideal_block_variants amount code mv bs s).1 = Ok r →
               Z.of_nat (length r) ≤ mv) as Hle1.
  { intros r (_ & _ & sorted & _ & _ & _ & [_ ->]%islice_Ok)%find_ideal_inv.
    rewrite length_take. lia. }
  assert (∀ r, (find_loose_bundle_variants amount code mv bs s).1 = Ok r →
               Z.of_nat (length r) ≤ mv) as Hle2.
  { intros r (_ & _ & sorted & _ & _ & _ & [_ ->]%islice_Ok)%find_loose_inv.
    rewrite length_take. lia. }
  cut ((∃ r all,
     (find_ideal_block_variants amount code mv bs s).1 = Ok r ∧
     NoDup all ∧
     (∀ x, x ∈ all ↔
        feasible_grouped (sorted_reverse denoms)
          (normalised denoms (caller_stock s bs)) amount x) ∧
     Z.of_nat (length r) = Z.min mv (Z.of_nat (length all)) ∧
     Z.of_nat (length r) ≤ mv) ∧
  (amount ≠ 0 →
   ∃ r all,
     (find_loose_bundle_variants amount code mv bs s).1 = Ok r ∧
     NoDup all ∧
     (∀ c, c ∈ all ↔
        feasible_loose (sorted_reverse denoms)
          (normalised denoms (caller_stock s bs)) amount c) ∧
     Z.of_nat (length r) = Z.min mv (Z.of_nat (length all)) ∧
     Z.of_nat (length r) ≤ mv)).
  { intros [H1 H2]. by split_and!. }
  clear Hle1 Hle2.
  set (stock := normalised denoms (caller_stock s bs)).
  assert (∀ d, d ∈ denoms → is_Some (stock !! d)) as Hdense
    by (intros d Hd; by apply normalised_dense).
  destruct (regular_sorted _ Hreg) as (d0 & y & ds & Heq & Hpos).
  assert (sorted_reverse denoms ≠ []) as Hne by by rewrite Heq.
  pose proof (regular_nonempty _ Hreg) as Hne'.
  pose proof Hreg as [Hdpos Hlen].
  rewrite (find_ideal_run _ _ _ _ _ _ Hv Hcur).
  rewrite (find_loose_run _ _ _ _ _ _ Hv Hcur). fold stock.
  split.
  - destruct (enumerate_ideal_total amount denoms stock) as [raw Hraw]; [done..|].
    rewrite Hraw. simpl.
    assert (∀ x, x ∈ raw ↔
      feasible_grouped (sorted_reverse denoms) stock amount x) as Hchar.
    { intros x. rewrite <-block_path_feasible by done. split.
      - intros Hx. by eapply enumerate_ideal_sound.
      - intros (Hm & Hb & Hp). by eapply enumerate_ideal_complete. }
    destruct (ranked_length (λ tpl, _score_ideal tpl.1 tpl.2 denoms) raw mv)
      as (r & Hr & Hlen1 & Hlen2); [done| |].
    { apply Forall_forall. intros x Hx%Hchar. apply score_ideal_total.
      destruct Hx as (Hb & _ & _ & Hsum & _). unfold BLOCK_SIZE in *. lia. }
    exists r, raw. split_and!; [done| |done..].
    by eapply enumerate_ideal_NoDup.
  - intros Ha.
    destruct (enumerate_loose_total amount denoms stock) as [raw Hraw].
    { apply levels_ok_dense; [done..|].
      intros d Hd. apply Hdense. by apply sorted_reverse_elem_of. }
    rewrite Hraw. simpl.
    pose proof Hraw as [Hnd Hin]%enumerate_loose_inv.
    assert (∀ c, c ∈ raw ↔
      feasible_loose (sorted_reverse denoms) stock amount c) as Hchar.
    { intros c. rewrite Hin. apply bundle_path_feasible; [done..|].
      right. by rewrite sorted_reverse_length. }
    destruct (ranked_length (λ bc, _score_loose bc denoms) raw mv)
      as (r & Hr & Hlen1 & Hlen2); [done| |].
    { apply Forall_forall. intros c Hc%Hchar. apply score_loose_total.
      destruct Hc as (_ & Hnn & Hw & _). intros Hz.
      rewrite (weighted_zero _ _ Hnn Hz) in Hw. lia. }
    by exists r, raw.
Qed.


(** ** Ranking and the frame *)

Lemma score_eq_not_lt `{PyFloat} (a b : score) :
  score_eq a b = true → score_lt a b = false.
Proof.
  destruct a as [[a1 a2] a3], b as [[b1 b2] b3]. unfold score_eq, score_lt.
  intros Heq. apply andb_prop in Heq as [Heq H3].
  apply andb_prop in Heq as [H1 H2].
  apply bool_decide_eq_true in H1, H2.
  rewrite (bool_decide_eq_true_2 (a1 = b1)), (bool_decide_eq_true_2 (a2 = b2))
    by done.
  simpl. by rewrite H3.
Qed.

Lemma frame_caller_stock s s' bs :
  valid_ref s bs →
  (∀ l m, dicts s !! l = Some m → dicts s' !! l = Some m) →
  valid_ref s' bs ∧ caller_stock s' bs = caller_stock s bs.
Proof.
  intros Hv Hf. destruct bs as [b|]; [|done]. destruct Hv as [m Hm].
  simpl. rewrite Hm, (Hf _ _ Hm). split; [by eexists|done].
Qed.

Section ranking.
Context `{PF : PyFloat}.

Lemma find_ideal_deterministic amount code mv bs s :
  valid_ref s bs →
  (find_ideal_block_variants amount code mv bs
     (find_ideal_block_variants amount code mv bs s).2).1 =
  (find_ideal_block_variants amount code mv bs s).1.
Proof.
  intros Hv.
  destruct (find_ideal_frame amount code mv bs s) as [Hc Hd].
  destruct (frame_caller_stock _ _ _ Hv Hd) as [Hv' Hcs].
  destruct (currencies s !! upper code) as [denoms|] eqn:Hcur.
  - rewrite (find_ideal_run _ _ _ _ _ denoms Hv') by by rewrite Hc.
    rewrite (find_ideal_run _ _ _ _ _ denoms Hv) by done. by rewrite Hcs.
  - unfold find_ideal_block_variants, mbind, M_bind, currencies_getitem.
    rewrite Hcur. simpl. by rewrite Hcur.
Qed.

Lemma find_loose_deterministic amount code mv bs s :
  valid_ref s bs →
  (find_loose_bundle_variants amount code mv bs
     (find_loose_bundle_variants amount code mv bs s).2).1 =
  (find_loose_bundle_variants amount code mv bs s).1.
Proof.
  intros Hv.
  destruct (find_loose_frame amount code mv bs s) as [Hc Hd].
  destruct (frame_caller_stock _ _ _ Hv Hd) as [Hv' Hcs].
  destruct (currencies s !! upper code) as [denoms|] eqn:Hcur.
  - rewrite (find_loose_run _ _ _ _ _ denoms Hv') by by rewrite Hc.
    rewrite (find_loose_run _ _ _ _ _ denoms Hv) by done. by rewrite Hcs.
  - unfold find_loose_bundle_variants, mbind, M_bind, currencies_getitem.
    rewrite Hcur. simpl. by rewrite Hcur.
Qed.

Context {PL : PyFloatLaws PF}.

(** C6 (ranking).  For a currency whose table entry is in descending
    order, as every entry of [CURRENCIES] is: the list returned by
    [find_ideal_block_variants] is ascending in the key (block count,
    denominations used, minus the average bundle value), the list returned
    by [find_loose_bundle_variants] is ascending in the key (bundle count,
    denominations used, minus the average bundle value), two solutions
    with equal keys appear in the order in which the enumeration produced
    them, and running either function again, in the store the first run
    left, gives the same outcome. *)
Theorem ranking (amount : Z) (code : string) (mv : Z) (bs : option loc)
    (s : store) (denoms : list Z) :
  currencies s !! upper code = Some denoms → descending denoms →
  valid_ref s bs →
  (∀ r, (find_ideal_block_variants amount code mv bs s).1 = Ok r →
     ascending_by (grouped_key (sorted_reverse denoms)) r ∧
     ∃ raw,
       _enumerate_ideal_configs amount denoms
         (normalised denoms (caller_stock s bs)) = Ok raw ∧
       ∀ x y kx ky, before x y r →
         grouped_key (sorted_reverse denoms) x = Ok kx → grouped_key (sorted_reverse denoms) y = Ok ky →
         score_eq kx ky = true → before x y raw) ∧
  (∀ r, (find_loose_bundle_variants amount code mv bs s).1 = Ok r →
     ascending_by (loose_key (sorted_reverse denoms)) r ∧
     ∃ raw,
       _enumerate_loose_configs amount denoms
         (normalised denoms (caller_stock s bs)) = Ok raw ∧
       ∀ x y kx ky, before x y r →
         loose_key (sorted_reverse denoms) x = Ok kx → loose_key (sorted_reverse denoms) y = Ok ky →
         score_eq kx ky = true → before x y raw) ∧
  (find_ideal_block_variants amount code mv bs
     (find_ideal_block_variants amount code mv bs s).2).1 =
    (find_ideal_block_variants amount code mv bs s).1 ∧
  (find_loose_bundle_variants amount code mv bs
     (find_loose_bundle_variants amount code mv bs s).2).1 =
    (find_loose_bundle_variants amount code mv bs s).1.
Proof.
  intros Hcur Hdesc Hv. rewrite (sorted_reverse_descending _ Hdesc).
  split_and!.
  - intros r (denoms' & raw & sorted & Hc & Hraw & Hs & [_ ->]%islice_Ok)%find_ideal_inv.
    rewrite Hcur in Hc. injection Hc as <-. split.
    + apply ascending_by_take. by apply list_sort_ascending in Hs.
    + exists raw. split; [done|]. intros x y kx ky Hb Hx Hy Heq.
      eapply list_sort_stable; [exact Hs|by eapply before_take|exact Hx|exact Hy|].
      by apply score_eq_not_lt.
  - intros r (denoms' & raw & sorted & Hc & Hraw & Hs & [_ ->]%islice_Ok)%find_loose_inv.
    rewrite Hcur in Hc. injection Hc as <-. split.
    + apply ascending_by_take. by apply list_sort_ascending in Hs.
    + exists raw. split; [done|]. intros x y kx ky Hb Hx Hy Heq.
      eapply list_sort_stable; [exact Hs|by eapply before_take|exact Hx|exact Hy|].
      by apply score_eq_not_lt.
  - by apply find_ideal_deterministic.
  - by apply find_loose_deterministic.
Qed.
End ranking.

(** C10 (no caller-visible mutation).  After a call of either public
    function, whatever its outcome, the [CURRENCIES] table is what it was,
    every dictionary that existed before the call has the content it had,
    and so in particular the caller's [bundles_stock] and the table entry of
    the currency. *)
Theorem no_caller_visible_mutation `{PyFloat} (amount : Z) (code : string)
    (mv : Z) (bs : option loc) (s : store) :
  (currencies (find_ideal_block_variants amount code mv bs s).2 = currencies s ∧
   (∀ l m, dicts s !! l = Some m →
      dicts (find_ideal_block_variants amount code mv bs s).2 !! l = Some m) ∧
   (valid_ref s bs →
      caller_stock (find_ideal_block_variants amount code mv bs s).2 bs =
      caller_stock s bs) ∧
   currencies (find_ideal_block_variants amount code mv bs s).2 !! upper code =
     currencies s !! upper code) ∧
  (currencies (find_loose_bundle_variants amount code mv bs s).2 = currencies s ∧
   (∀ l m, dicts s !! l = Some m →
      dicts (find_loose_bundle_variants amount code mv bs s).2 !! l = Some m) ∧
   (valid_ref s bs →
      caller_stock (find_loose_bundle_variants amount code mv bs s).2 bs =
      caller_stock s bs) ∧
   currencies (find_loose_bundle_variants amount code mv bs s).2 !! upper code =
     currencies s !! upper code).
Proof.
  split.
  - destruct (find_ideal_frame amount code mv bs s) as [Hc Hd].
    split_and!; [done|done| |by rewrite Hc].
    intros Hv. by apply frame_caller_stock.
  - destruct (find_loose_frame amount code mv bs s) as [Hc Hd].
    split_and!; [done|done| |by rewrite Hc].
    intros Hv. by apply frame_caller_stock.
Qed.


(** ** The theorems at concrete orders *)

Lemma exactness_witness :
  (find_ideal_block_variants (H := Q_float) 30000 "usd" 5 (Some 1%positive)
     (store_with small_stock)).1 = Ok [(1, [0; 0; 0; 30])] ∧
  ∃ denoms, currencies (store_with small_stock) !! upper "usd" = Some denoms ∧
    length [0; 0; 0; 30] = length denoms ∧
    weighted (sorted_reverse denoms) [0; 0; 0; 30] * BUNDLE_SIZE = 30000.
Proof.
  split; [vm_compute; reflexivity|].
  apply (proj1 (exactness (H := Q_float) 30000 "usd" 5 (Some 1%positive)
                  (store_with small_stock))
           [(1, [0; 0; 0; 30])] (1, [0; 0; 0; 30])).
  - vm_compute. reflexivity.
  - constructor.
Defined.

Lemma grouped_enumeration_complete_witness :
  0 < 30000 ∧ 30000 `mod` BUNDLE_SIZE = 0 ∧
  ∃ raw, _enumerate_ideal_configs 30000 usd (normalised usd None) = Ok raw ∧
         (1, [0; 0; 0; 30]) ∈ raw.
Proof.
  split; [lia|]. split; [reflexivity|].
  destruct (grouped_enumeration_complete 30000 usd (normalised usd None))
    as (raw & m & total & Hraw & _ & _ & Hall).
  - lia.
  - reflexivity.
  - discriminate.
  - unfold max_denominations. simpl. lia.
  - repeat constructor; lia.
  - repeat constructor.
  - intros d Hd. apply normalised_dense, Hd.
  - exists raw. split; [exact Hraw|].
    apply (Hall 1 [0; 0; 0; 30]).
    + lia.
    + reflexivity.
    + repeat constructor; lia.
    + reflexivity.
    + reflexivity.
    + clear Hraw Hall. intros i d ci Hd Hc. exists _INFTY.
      destruct i as [|[|[|[|i]]]]; simpl in Hd, Hc;
        try discriminate; injection Hd as <-; injection Hc as <-;
        (split; [vm_compute; reflexivity|unfold _INFTY; lia]).
Defined.

Lemma grouping_invariant_witness :
  (find_ideal_block_variants (H := Q_float) 30000 "usd" 5 (Some 1%positive)
     (store_with small_stock)).1 = Ok [(1, [0; 0; 0; 30])] ∧
  sum [0; 0; 0; 30] = 1 * BLOCK_SIZE ∧ 1 ≤ 1.
Proof.
  split; [vm_compute; reflexivity|].
  apply (proj1 (grouping_invariant (H := Q_float)) 30000 "usd" 5
           (Some 1%positive) (store_with small_stock)
           [(1, [0; 0; 0; 30])] (1, [0; 0; 0; 30])).
  - vm_compute. reflexivity.
  - constructor.
Defined.

Lemma stock_respect_witness :
  (find_loose_bundle_variants (H := Q_float) 10000 "usd" 1 (Some 1%positive)
     (store_with small_stock)).1 = Ok [[1; 0; 0; 0]] ∧
  1 ≤ stock_limit (caller_stock (store_with small_stock) (Some 1%positive)) 100.
Proof.
  split; [vm_compute; reflexivity|].
  apply (proj2 (stock_respect (H := Q_float) 10000 "usd" 1 (Some 1%positive)
                  (store_with small_stock) usd eq_refl)
           [[1; 0; 0; 0]] [1; 0; 0; 0] 0%nat 100 1).
  - vm_compute. reflexivity.
  - constructor.
  - reflexivity.
  - reflexivity.
Defined.

Lemma edge_policy_witness :
  (find_ideal_block_variants (H := Q_float) (-100) "USD" 5 None
     initial_store).1 = Ok [] ∧
  (find_loose_bundle_variants (H := Q_float) (-100) "USD" 5 None
     initial_store).1 = Ok [].
Proof.
  apply (proj1 (proj2 (edge_policy (H := Q_float) (-100) "USD" 5 None
                         initial_store usd eq_refl I
                         ltac:(unfold sys_maxsize; lia)))).
  - exact (proj1 (CURRENCIES_regular "USD" usd eq_refl)).
  - lia.
Defined.

Lemma ranking_witness :
  ascending_by (loose_key (H := Q_float) (sorted_reverse usd))
    [[1; 0; 0; 0]; [0; 2; 0; 0]].
Proof.
  apply (proj1 (proj2 (ranking (PF := Q_float) 10000 "usd" 2
                         (Some 1%positive) (store_with small_stock) usd
                         eq_refl
                         (proj2 (CURRENCIES_regular "USD" usd eq_refl))
                         ltac:(simpl; eexists; reflexivity)))).
  vm_compute. reflexivity.
Defined.

Lemma loose_superset_witness :
  ∃ loose, _enumerate_loose_configs 30000 usd (normalised usd None) = Ok loose ∧
           [0; 0; 0; 30] ∈ loose.
Proof.
  apply (loose_superset 30000 usd (normalised usd None)
           [(1, [0; 0; 0; 30])] (1, [0; 0; 0; 30])).
  - vm_compute. reflexivity.
  - constructor.
Defined.

Lemma bounded_output_witness :
  ∃ r all,
    (find_ideal_block_variants (H := Q_float) 30000 "USD" 5 None
       initial_store).1 = Ok r ∧
    NoDup all ∧
    (∀ x, x ∈ all ↔
       feasible_grouped (sorted_reverse usd)
         (normalised usd (caller_stock initial_store None)) 30000 x) ∧
    Z.of_nat (length r) = Z.min 5 (Z.of_nat (length all)) ∧
    Z.of_nat (length r) ≤ 5.
Proof.
  apply (proj1 (bounded_output (H := Q_float) 30000 "USD" 5 None
                  initial_store usd eq_refl
                  (proj1 (CURRENCIES_regular "USD" usd eq_refl)) I
                  ltac:(unfold sys_maxsize; lia))).
Defined.

Lemma no_caller_visible_mutation_witness :
  caller_stock
    (find_ideal_block_variants (H := Q_float) 30000 "usd" 5 (Some 1%positive)
       (store_with small_stock)).2 (Some 1%positive) =
  caller_stock (store_with small_stock) (Some 1%positive).
Proof.
  apply (no_caller_visible_mutation (H := Q_float) 30000 "usd" 5
           (Some 1%positive) (store_with small_stock)).
  simpl. eexists. reflexivity.
Defined.

(** * Further properties of the solver and of its callers *)

(** ** The searches read the stock at the denominations only *)

Lemma for_each_ext {A S : Type} (xs : list A) (body body' : A → S → result S) :
  (∀ x s, x ∈ xs → body x s = body' x s) →
  ∀ s, for_each xs body s = for_each xs body' s.
Proof.
  induction xs as [|x xs IH]; intros Hb s; simpl; [done|].
  rewrite Hb by left. destruct (body' x s) as [s'|e]; simpl; [|done].
  apply IH. intros y t Hy. apply Hb. by right.
Qed.

Lemma dict_getitem_ext (denoms : list Z) (stock stock' : gmap Z Z) (i : nat) d :
  (∀ d, d ∈ denoms → stock !! d = stock' !! d) →
  list_getitem denoms i = Ok d → dict_getitem stock d = dict_getitem stock' d.
Proof.
  intros Hs Hd%list_getitem_Ok. unfold dict_getitem.
  rewrite Hs; [done|]. by eapply list_elem_of_lookup_2.
Qed.

Lemma search_blocks_ext fuel : ∀ denoms blocks i bl vl cur out stock stock',
  (∀ d, d ∈ denoms → stock !! d = stock' !! d) →
  _search_blocks fuel denoms blocks i bl vl cur out stock =
  _search_blocks fuel denoms blocks i bl vl cur out stock'.
Proof.
  induction fuel as [|fuel IH]; intros denoms blocks i bl vl cur out stock stock' Hs;
    simpl; destruct (list_getitem denoms i) as [d|e] eqn:Hd; simpl;
    rewrite ?(dict_getitem_ext denoms stock stock' i d Hs Hd); try done.
  case_bool_decide; [done|].
  destruct (dict_getitem stock' d) as [q|e]; simpl; [|done].
  destruct (floordiv vl d) as [q'|e]; simpl; [|done].
  erewrite for_each_ext; [done|].
  intros b [c o] _. destruct (list_setitem c i b); simpl; [|done].
  by apply IH.
Qed.

Lemma search_bundles_ext fuel : ∀ denoms i vl cur out stock stock',
  (∀ d, d ∈ denoms → stock !! d = stock' !! d) →
  _search_bundles fuel denoms i vl cur out stock =
  _search_bundles fuel denoms i vl cur out stock'.
Proof.
  induction fuel as [|fuel IH]; intros denoms i vl cur out stock stock' Hs;
    simpl; destruct (list_getitem denoms i) as [d|e] eqn:Hd; simpl;
    rewrite ?(dict_getitem_ext denoms stock stock' i d Hs Hd); try done.
  case_bool_decide; [done|].
  destruct (dict_getitem stock' d) as [q|e]; simpl; [|done].
  destruct (floordiv vl d) as [q'|e]; simpl; [|done].
  erewrite for_each_ext; [done|].
  intros b [c o] _. destruct (list_setitem c i b); simpl; [|done].
  by apply IH.
Qed.

Lemma blocks_loop_ext denoms units total stock stock' bs : ∀ cur sols,
  (∀ d, d ∈ denoms → stock !! d = stock' !! d) →
  blocks_loop denoms units total stock bs cur sols =
  blocks_loop denoms units total stock' bs cur sols.
Proof.
  induction bs as [|b bs IH]; intros cur sols Hs; simpl; [done|].
  case_bool_decide; [done|].
  rewrite (search_blocks_ext _ _ _ _ _ _ _ _ stock stock' Hs).
  destruct (_search_blocks _ _ _ _ _ _ _ _ stock') as [[c o]|e]; simpl; [|done].
  by apply IH.
Qed.

Lemma sum_stock_ext denoms stock stock' :
  (∀ d, d ∈ denoms → stock !! d = stock' !! d) →
  sum_stock stock denoms = sum_stock stock' denoms.
Proof.
  intros Hs. unfold sum_stock. apply for_each_ext.
  intros d acc Hd. unfold dict_getitem. by rewrite Hs.
Qed.

Lemma enumerate_ideal_ext amount denoms stock stock' :
  (∀ d, d ∈ denoms → stock !! d = stock' !! d) →
  _enumerate_ideal_configs amount denoms stock =
  _enumerate_ideal_configs amount denoms stock'.
Proof.
  intros Hs. unfold _enumerate_ideal_configs.
  assert (∀ d, d ∈ sorted_reverse denoms → stock !! d = stock' !! d) as Hs'.
  { intros d Hd. apply Hs. by apply sorted_reverse_elem_of. }
  case_bool_decide; [done|].
  destruct (py_min _) as [m|e]; simpl; [|done].
  destruct (floordiv _ _) as [t|e]; simpl; [|done].
  rewrite (sum_stock_ext _ stock stock' Hs').
  destruct (sum_stock stock' _) as [total|e]; simpl; [|done].
  by rewrite (blocks_loop_ext _ _ _ stock stock' _ _ _ Hs').
Qed.

Lemma enumerate_loose_ext amount denoms stock stock' :
  (∀ d, d ∈ denoms → stock !! d = stock' !! d) →
  _enumerate_loose_configs amount denoms stock =
  _enumerate_loose_configs amount denoms stock'.
Proof.
  intros Hs. unfold _enumerate_loose_configs.
  case_bool_decide; [done|].
  rewrite (search_bundles_ext _ _ _ _ _ _ stock stock'); [done|].
  intros d Hd. apply Hs. by apply sorted_reverse_elem_of.
Qed.

Lemma normalised_agree denoms given given' :
  (∀ d, d ∈ denoms → given ≫= (.!! d) = given' ≫= (.!! d)) →
  ∀ d, d ∈ denoms → normalised denoms given !! d = normalised denoms given' !! d.
Proof. intros Hg d Hd. rewrite !normalised_lookup. by rewrite Hg. Qed.

(** ** More about what the public functions return *)

Lemma block_path_mono (stock stock' : gmap Z Z) ds : ∀ bl vl bs,
  (∀ d q, d ∈ ds → stock !! d = Some q → ∃ q', stock' !! d = Some q' ∧ q ≤ q') →
  block_path stock ds bl vl bs → block_path stock' ds bl vl bs.
Proof.
  induction ds as [|d ds IH]; intros bl vl bs Hs; [done|].
  destruct bs as [|b bs]; [done|]. destruct ds as [|y ds].
  - intros (-> & Hb & Hv & Hbl & q & Hq & Hle).
    destruct (Hs d q) as (q' & Hq' & Hqq'); [left|done|].
    split_and!; [done..|]. exists q'. split; [done|lia].
  - intros (Hd & (q & Hq & Hb) & Hp).
    destruct (Hs d q) as (q' & Hq' & Hqq'); [left|done|].
    split_and!; [done| |].
    + exists q'. split; [done|lia].
    + apply IH; [|done]. intros d' q0 Hd'. apply Hs. by right.
Qed.

Lemma bundle_path_mono (stock stock' : gmap Z Z) ds : ∀ vl bs,
  (∀ d q, d ∈ ds → stock !! d = Some q → ∃ q', stock' !! d = Some q' ∧ q ≤ q') →
  bundle_path stock ds vl bs → bundle_path stock' ds vl bs.
Proof.
  induction ds as [|d ds IH]; intros vl bs Hs; [done|].
  destruct bs as [|b bs]; [done|]. destruct ds as [|y ds].
  - intros (-> & Hb & Hv & q & Hq & Hle).
    destruct (Hs d q) as (q' & Hq' & Hqq'); [left|done|].
    split_and!; [done..|]. exists q'. split; [done|lia].
  - intros (Hd & (q & Hq & Hb) & Hp).
    destruct (Hs d q) as (q' & Hq' & Hqq'); [left|done|].
    split_and!; [done| |].
    + exists q'. split; [done|lia].
    + apply IH; [|done]. intros d' q0 Hd'. apply Hs. by right.
Qed.

Lemma stock_sum_mono (stock stock' : gmap Z Z) (ds : list Z) : ∀ ss ss' : list Z,
  (∀ d q, d ∈ ds → stock !! d = Some q → ∃ q', stock' !! d = Some q' ∧ q ≤ q') →
  Forall2 (λ d s, stock !! d = Some s) ds ss →
  Forall2 (λ d s, stock' !! d = Some s) ds ss' →
  sum ss ≤ sum ss'.
Proof.
  induction ds as [|d ds IH]; intros ss ss' Hs H1 H2.
  - apply Forall2_nil_inv_l in H1 as ->. apply Forall2_nil_inv_l in H2 as ->. done.
  - apply Forall2_cons_inv_l in H1 as (q & ss1 & Hq & H1 & ->).
    apply Forall2_cons_inv_l in H2 as (q' & ss2 & Hq' & H2 & ->).
    rewrite !sum_cons.
    destruct (Hs d q) as (q0 & Hq0 & Hle); [left|done|].
    assert (q0 = q') as -> by congruence.
    assert (sum ss1 ≤ sum ss2); [|lia].
    apply IH; [|done..]. intros d' q1 Hd'. apply Hs. by right.
Qed.

(** X1: a larger stock loses no configuration: what either enumeration finds
    with a stock, it finds with every stock that has at least as many
    bundles of each denomination. *)
Theorem more_stock_keeps_configurations (amount : Z) (denoms : list Z)
    (stock stock' : gmap Z Z) :
  (∀ d q, d ∈ denoms → stock !! d = Some q →
          ∃ q', stock' !! d = Some q' ∧ q ≤ q') →
  (∀ raw raw',
     _enumerate_ideal_configs amount denoms stock = Ok raw →
     _enumerate_ideal_configs amount denoms stock' = Ok raw' →
     raw ⊆ raw') ∧
  (∀ raw raw',
     _enumerate_loose_configs amount denoms stock = Ok raw →
     _enumerate_loose_configs amount denoms stock' = Ok raw' →
     raw ⊆ raw').
Proof.
  intros Hs.
  assert (∀ d q, d ∈ sorted_reverse denoms → stock !! d = Some q →
                 ∃ q', stock' !! d = Some q' ∧ q ≤ q') as Hs'.
  { intros d q Hd. apply Hs. by apply sorted_reverse_elem_of. }
  split; intros raw raw' H1 H2 x Hx.
  - destruct (decide (amount `mod` BUNDLE_SIZE = 0)) as [Hdiv|Hdiv].
    + apply enumerate_ideal_inv in H1 as (m & total & Hm & _ & Ht & _ & Hraw); [|done].
      apply enumerate_ideal_inv in H2 as (m' & total' & Hm' & _ & Ht' & _ & Hraw'); [|done].
      assert (m' = m) as -> by congruence.
      apply sum_stock_Ok in Ht as (ss & Hss & ->).
      apply sum_stock_Ok in Ht' as (ss' & Hss' & ->).
      pose proof (stock_sum_mono _ _ _ _ _ Hs' Hss Hss') as Hle.
      apply Hraw in Hx as [Hb Hp]. apply Hraw'. split.
      * assert (sum ss `div` BLOCK_SIZE ≤ sum ss' `div` BLOCK_SIZE).
        { apply Z.div_le_mono; [done|lia]. }
        lia.
      * by eapply block_path_mono.
    + rewrite enumerate_ideal_nodiv in H1 by done. injection H1 as <-.
      by apply elem_of_nil in Hx.
  - apply enumerate_loose_inv in H1 as [_ Hraw].
    apply enumerate_loose_inv in H2 as [_ Hraw'].
    apply Hraw in Hx as [Hdiv Hp]. apply Hraw'. split; [done|].
    by eapply bundle_path_mono.
Qed.

(** X2: of the caller's [bundles_stock] only the entries for the currency's
    own denominations are read: two stock arguments that agree on them give
    the same outcome.  An empty dictionary, or one with entries for other
    denominations only, is the same as [None]. *)
Theorem foreign_entries_ignored `{PyFloat} (amount : Z) (code : string)
    (mv : Z) (bs bs' : option loc) (s : store) (denoms : list Z) :
  currencies s !! upper code = Some denoms →
  valid_ref s bs → valid_ref s bs' →
  (∀ d, d ∈ denoms →
        caller_stock s bs ≫= (.!! d) = caller_stock s bs' ≫= (.!! d)) →
  (find_ideal_block_variants amount code mv bs s).1 =
    (find_ideal_block_variants amount code mv bs' s).1 ∧
  (find_loose_bundle_variants amount code mv bs s).1 =
    (find_loose_bundle_variants amount code mv bs' s).1.
Proof.
  intros Hcur Hv Hv' Hag.
  pose proof (normalised_agree _ _ _ Hag) as Hn.
  rewrite !(find_ideal_run _ _ _ _ _ denoms), !(find_loose_run _ _ _ _ _ denoms)
    by done.
  by rewrite (enumerate_ideal_ext _ _ _ _ Hn), (enumerate_loose_ext _ _ _ _ Hn).
Qed.

Lemma foreign_entries_ignored_witness :
  (find_ideal_block_variants (H := Q_float) 30000 "USD" 3 (Some 1%positive)
     (store_with (<[7 := 3]> ∅))).1 =
  (find_ideal_block_variants (H := Q_float) 30000 "USD" 3 None
     (store_with (<[7 := 3]> ∅))).1.
Proof.
  refine (proj1 (foreign_entries_ignored (H := Q_float) 30000 "USD" 3
    (Some 1%positive) None (store_with (<[7 := 3]> ∅)) usd eq_refl _ I _)).
  - by eexists.
  - intros d Hd. simpl. rewrite lookup_singleton_eq. simpl.
    apply lookup_insert_None. split; [done|].
    intros <-. unfold usd in Hd. rewrite !elem_of_cons, elem_of_nil in Hd. lia.
Defined.

Lemma more_stock_keeps_configurations_witness :
  [[0; 0; 1; 0]] ⊆ [[0; 0; 0; 2]; [0; 0; 1; 0]].
Proof.
  refine (proj2 (more_stock_keeps_configurations 2000 usd
                   (normalised usd (Some (<[10 := 0]> ∅))) (unlimited usd) _)
            [[0; 0; 1; 0]] [[0; 0; 0; 2]; [0; 0; 1; 0]] _ _).
  - intros d q Hd Hq. exists _INFTY. split.
    + rewrite unlimited_lookup. by rewrite decide_True.
    + unfold usd in Hd. rewrite !elem_of_cons, elem_of_nil in Hd.
      destruct Hd as [->|[->|[->|[->|[]]]]]; vm_compute in Hq;
        injection Hq as <-; unfold _INFTY; lia.
  - vm_compute. reflexivity.
  - vm_compute. reflexivity.
Defined.

Lemma take_subseteq {A : Type} (n : nat) (l : list A) : take n l ⊆ l.
Proof. intros x Hx. rewrite <-(take_drop n l). apply elem_of_app. by left. Qed.

Lemma NoDup_take {A : Type} (n : nat) (l : list A) : NoDup l → NoDup (take n l).
Proof.
  intros Hl. rewrite <-(take_drop n l) in Hl. by apply NoDup_app in Hl as [? _].
Qed.

Lemma ideal_counts_inj amount denoms stock raw x y :
  _enumerate_ideal_configs amount denoms stock = Ok raw →
  x ∈ raw → y ∈ raw → x.2 = y.2 → x = y.
Proof.
  intros Hraw Hx Hy Heq.
  eapply enumerate_ideal_sound in Hx as (_ & _ & Hx); [|done].
  eapply enumerate_ideal_sound in Hy as (_ & _ & Hy); [|done].
  apply block_path_sound in Hx as (_ & Hx & _).
  apply block_path_sound in Hy as (_ & Hy & _).
  destruct x as [bx cx], y as [by' cy]. simpl in *. subst cy.
  f_equal. unfold BLOCK_SIZE in *. lia.
Qed.

(** X3: no variant is returned twice; in ideal mode no two returned
    variants have the same bundle counts. *)
Theorem variants_distinct `{PyFloat} (amount : Z) (code : string) (mv : Z)
    (bs : option loc) (s : store) :
  (∀ r, (find_ideal_block_variants amount code mv bs s).1 = Ok r →
        NoDup r ∧ NoDup r.*2) ∧
  (∀ r, (find_loose_bundle_variants amount code mv bs s).1 = Ok r → NoDup r).
Proof.
  split; intros r Hr.
  - apply find_ideal_inv in Hr as (denoms & raw & sorted & _ & Hraw & Hs & Hr).
    apply islice_Ok in Hr as [_ ->].
    pose proof (enumerate_ideal_NoDup _ _ _ _ Hraw) as Hnd.
    pose proof (list_sort_perm _ _ _ Hs) as Hp.
    assert (NoDup sorted) as Hnd' by by rewrite Hp.
    split; [by apply NoDup_take|].
    apply NoDup_fmap_2_strong; [|by apply NoDup_take].
    intros x y Hx%take_subseteq Hy%take_subseteq.
    rewrite Hp in Hx, Hy. by eapply ideal_counts_inj.
  - apply find_loose_inv in Hr as (denoms & raw & sorted & _ & Hraw & Hs & Hr).
    apply islice_Ok in Hr as [_ ->].
    apply enumerate_loose_inv in Hraw as [Hnd _].
    apply NoDup_take. by rewrite (list_sort_perm _ _ _ Hs).
Qed.

Lemma variants_distinct_witness :
  (find_loose_bundle_variants (H := Q_float) 10000 "usd" 2 (Some 1%positive)
     (store_with small_stock)).1 = Ok [[1; 0; 0; 0]; [0; 2; 0; 0]] ∧
  NoDup [[1; 0; 0; 0]; [0; 2; 0; 0]].
Proof.
  split; [vm_compute; reflexivity|].
  apply (proj2 (variants_distinct (H := Q_float) 10000 "usd" 2
                  (Some 1%positive) (store_with small_stock))
           [[1; 0; 0; 0]; [0; 2; 0; 0]]).
  vm_compute. reflexivity.
Defined.

(** X4: asking for fewer variants gives a prefix of the longer answer. *)
Theorem fewer_variants_prefix `{PyFloat} (amount : Z) (code : string)
    (mv mv' : Z) (bs : option loc) (s : store) :
  valid_ref s bs → 0 ≤ mv ≤ mv' →
  (∀ r', (find_ideal_block_variants amount code mv' bs s).1 = Ok r' →
         (find_ideal_block_variants amount code mv bs s).1 =
           Ok (take (Z.to_nat mv) r')) ∧
  (∀ r', (find_loose_bundle_variants amount code mv' bs s).1 = Ok r' →
         (find_loose_bundle_variants amount code mv bs s).1 =
           Ok (take (Z.to_nat mv) r')).
Proof.
  intros Hv Hmv. split; intros r' Hr'.
  - apply find_ideal_inv in Hr' as (denoms & raw & sorted & Hc & Hraw & Hs & Hr').
    apply islice_Ok in Hr' as [Hm ->].
    rewrite (find_ideal_run _ _ _ _ _ denoms) by done.
    rewrite Hraw. simpl. rewrite Hs. simpl.
    unfold islice. rewrite bool_decide_eq_true_2 by lia.
    by rewrite take_take, Nat.min_l by lia.
  - apply find_loose_inv in Hr' as (denoms & raw & sorted & Hc & Hraw & Hs & Hr').
    apply islice_Ok in Hr' as [Hm ->].
    rewrite (find_loose_run _ _ _ _ _ denoms) by done.
    rewrite Hraw. simpl. rewrite Hs. simpl.
    unfold islice. rewrite bool_decide_eq_true_2 by lia.
    by rewrite take_take, Nat.min_l by lia.
Qed.

Lemma fewer_variants_prefix_witness :
  (find_loose_bundle_variants (H := Q_float) 10000 "usd" 1 (Some 1%positive)
     (store_with small_stock)).1 = Ok [[1; 0; 0; 0]].
Proof.
  apply (proj2 (fewer_variants_prefix (H := Q_float) 10000 "usd" 1 2
                  (Some 1%positive) (store_with small_stock)
                  ltac:(simpl; eexists; reflexivity) ltac:(lia))
           [[1; 0; 0; 0]; [0; 2; 0; 0]]).
  vm_compute. reflexivity.
Defined.

(** X5: no returned variant has a negative bundle count.  In ideal mode
    this needs nothing; in loose mode it holds for positive denominations
    when the amount is not negative or there are at least two
    denominations. *)
Theorem counts_nonnegative `{PyFloat} (amount : Z) (code : string) (mv : Z)
    (bs : option loc) (s : store) (denoms : list Z) :
  currencies s !! upper code = Some denoms →
  (∀ r x, (find_ideal_block_variants amount code mv bs s).1 = Ok r → x ∈ r →
          Forall (λ b, 0 ≤ b) x.2) ∧
  (Forall (λ d, 0 < d) denoms → 0 ≤ amount ∨ (2 ≤ length denoms)%nat →
   ∀ r c, (find_loose_bundle_variants amount code mv bs s).1 = Ok r → c ∈ r →
          Forall (λ b, 0 ≤ b) c).
Proof.
  intros Hcur. split.
  - intros r x Hr Hx.
    apply find_ideal_inv in Hr as (denoms' & raw & sorted & _ & Hraw & Hs & Hr).
    eapply ranked_subset in Hx; [|done..].
    eapply enumerate_ideal_sound in Hx as (_ & Hb & Hp); [|done].
    apply block_path_sound in Hp as (_ & _ & _ & _ & Hn).
    apply Hn. unfold BLOCK_SIZE. lia.
  - intros Hpos Ham r c Hr Hc.
    apply find_loose_inv in Hr as (denoms' & raw & sorted & Hc' & Hraw & Hs & Hr).
    assert (denoms' = denoms) as -> by congruence.
    eapply ranked_subset in Hc; [|done..].
    apply enumerate_loose_inv in Hraw as [_ Hraw].
    apply Hraw in Hc as [Hdiv Hp].
    assert (Forall (λ d, 0 < d) (sorted_reverse denoms)) as Hpos'
      by by apply sorted_reverse_Forall.
    destruct (decide (0 ≤ amount)) as [Hnn|Hneg].
    + eapply bundle_path_nonneg; [done| |done].
      apply Z.div_pos; [done|unfold BUNDLE_SIZE; lia].
    + destruct Ham as [?|Hlen]; [done|].
      pose proof (sorted_reverse_length denoms) as Hl.
      destruct (sorted_reverse denoms) as [|d [|y ds]] eqn:Hsr;
        [simpl in Hl; lia..|].
      eapply bundle_path_nonneg; [done| |done].
      eapply bundle_path_value_nonneg; [|done].
      by apply Forall_cons in Hpos' as [? _].
Qed.

Lemma counts_nonnegative_witness :
  Forall (λ b, 0 ≤ b) [2; 1; 0; 10].
Proof.
  apply (proj2 (counts_nonnegative (H := Q_float) 35000 "USD" 3
                  (Some 1%positive)
                  (store_with (<[100 := 2]> (<[50 := 1]> (<[20 := 0]>
                     (<[10 := 10]> ∅)))))
                  usd eq_refl)
           (proj1 (proj1 (CURRENCIES_regular "USD" usd eq_refl)))
           ltac:(left; lia)
           [[2; 1; 0; 10]] [2; 1; 0; 10]).
  - vm_compute. reflexivity.
  - constructor.
Defined.

Lemma StronglySorted_before {A : Type} (R : relation A) (x y : A) (l : list A) :
  StronglySorted R l → before x y l → R x y.
Proof.
  intros Hl (l1 & l2 & l3 & ->).
  apply StronglySorted_app_1_r, StronglySorted_cons in Hl as [Hx _].
  rewrite Forall_forall in Hx. apply Hx. apply elem_of_app. right. left.
Qed.

Lemma StronglySorted_weaken {A : Type} (R R' : relation A) (l : list A) :
  (∀ x y, x ∈ l → y ∈ l → R x y → R' x y) →
  StronglySorted R l → StronglySorted R' l.
Proof.
  induction l as [|a l IH]; intros HR Hl; [constructor|].
  apply StronglySorted_cons in Hl as [Ha Hl].
  apply StronglySorted_cons. split.
  - rewrite Forall_forall in Ha |- *. intros y Hy.
    apply HR; [left|by right|by apply Ha].
  - apply IH; [|done]. intros x y Hx Hy. apply HR; by right.
Qed.

Lemma score_ideal_Ok `{PyFloat} blocks c ds k :
  _score_ideal blocks c ds = Ok k ↔
  sum c ≠ 0 ∧ k = (blocks, kinds_of c, fneg (fdiv (weighted ds c) (sum c))).
Proof.
  unfold _score_ideal, truediv. case_bool_decide; simpl; split.
  - done.
  - by intros [? _].
  - by intros [= <-].
  - by intros [_ ->].
Qed.

Lemma score_loose_Ok `{PyFloat} c ds k :
  _score_loose c ds = Ok k ↔
  sum c ≠ 0 ∧ k = (sum c, kinds_of c, fneg (fdiv (weighted ds c) (sum c))).
Proof.
  unfold _score_loose, truediv. case_bool_decide; simpl; split.
  - done.
  - by intros [? _].
  - by intros [= <-].
  - by intros [_ ->].
Qed.

Lemma score_lt_false_fst `{PyFloat} (a b : score) :
  score_lt b a = false → a.1.1 ≤ b.1.1.
Proof.
  destruct a as [[a1 a2] a3], b as [[b1 b2] b3]. simpl.
  destruct (decide (b1 = a1)) as [->|Hne]; [lia|].
  rewrite (bool_decide_eq_false_2 _ Hne). simpl.
  intros ?%bool_decide_eq_false. lia.
Qed.

Lemma elem_of_drop_not_take {A : Type} (n : nat) (l : list A) (y : A) :
  y ∈ l → y ∉ take n l → y ∈ drop n l.
Proof.
  intros Hy Hn. rewrite <-(take_drop n l) in Hy.
  by apply elem_of_app in Hy as [?|?].
Qed.

Section best.
Context `{PF : PyFloat} {PL : PyFloatLaws PF}.

Lemma score_lt_irrefl (a : score) : score_lt a a = false.
Proof.
  destruct (score_lt a a) eqn:Hlt; [|done].
  by rewrite (score_lt_asym _ _ Hlt) in Hlt.
Qed.

(** X6: the cut to [max_variants] keeps the best: no configuration the
    search found and left out has a smaller key than a returned one.  In
    particular no omitted ideal variant has fewer blocks, and no omitted
    loose variant fewer bundles, than a returned one. *)
Theorem truncation_keeps_best (amount : Z) (code : string) (mv : Z)
    (bs : option loc) (s : store) :
  (∀ r, (find_ideal_block_variants amount code mv bs s).1 = Ok r →
     ∃ denoms raw,
       currencies s !! upper code = Some denoms ∧
       _enumerate_ideal_configs amount denoms
         (normalised denoms (caller_stock s bs)) = Ok raw ∧
       r ⊆ raw ∧
       ∀ x y, x ∈ r → y ∈ raw → y ∉ r →
         (∃ kx ky, _score_ideal x.1 x.2 denoms = Ok kx ∧
                   _score_ideal y.1 y.2 denoms = Ok ky ∧
                   score_lt ky kx = false) ∧
         x.1 ≤ y.1) ∧
  (∀ r, (find_loose_bundle_variants amount code mv bs s).1 = Ok r →
     ∃ denoms raw,
       currencies s !! upper code = Some denoms ∧
       _enumerate_loose_configs amount denoms
         (normalised denoms (caller_stock s bs)) = Ok raw ∧
       r ⊆ raw ∧
       ∀ x y, x ∈ r → y ∈ raw → y ∉ r →
         (∃ kx ky, _score_loose x denoms = Ok kx ∧
                   _score_loose y denoms = Ok ky ∧
                   score_lt ky kx = false) ∧
         sum x ≤ sum y).
Proof.
  split; intros r Hr.
  - apply find_ideal_inv in Hr as (denoms & raw & sorted & Hc & Hraw & Hs & Hr).
    exists denoms, raw. split_and!; [done..| |].
    { intros x Hx. by eapply ranked_subset. }
    apply islice_Ok in Hr as [_ ->].
    pose proof (list_sort_perm _ _ _ Hs) as Hp.
    pose proof (list_sort_ascending _ _ _ Hs) as Hasc.
    intros x y Hx Hy Hn.
    rewrite <-Hp in Hy. apply (elem_of_drop_not_take (Z.to_nat mv)) in Hy; [|done].
    unfold ascending_by in Hasc. rewrite <-(take_drop (Z.to_nat mv) sorted) in Hasc.
    destruct (StronglySorted_app_1_elem_of _ _ _ _ _ Hasc Hx Hy)
      as (kx & ky & Hkx & Hky & Hlt).
    split; [by exists kx, ky|].
    apply score_lt_false_fst in Hlt.
    apply score_ideal_Ok in Hkx as [_ ->]. apply score_ideal_Ok in Hky as [_ ->].
    done.
  - apply find_loose_inv in Hr as (denoms & raw & sorted & Hc & Hraw & Hs & Hr).
    exists denoms, raw. split_and!; [done..| |].
    { intros x Hx. by eapply ranked_subset. }
    apply islice_Ok in Hr as [_ ->].
    pose proof (list_sort_perm _ _ _ Hs) as Hp.
    pose proof (list_sort_ascending _ _ _ Hs) as Hasc.
    intros x y Hx Hy Hn.
    rewrite <-Hp in Hy. apply (elem_of_drop_not_take (Z.to_nat mv)) in Hy; [|done].
    unfold ascending_by in Hasc. rewrite <-(take_drop (Z.to_nat mv) sorted) in Hasc.
    destruct (StronglySorted_app_1_elem_of _ _ _ _ _ Hasc Hx Hy)
      as (kx & ky & Hkx & Hky & Hlt).
    split; [by exists kx, ky|].
    apply score_lt_false_fst in Hlt.
    apply score_loose_Ok in Hkx as [_ ->]. apply score_loose_Ok in Hky as [_ ->].
    done.
Qed.

(** X7: in ideal mode the average bundle value never decides the order.
    For a currency listed in descending order the returned variants are
    ordered by block count, then by the number of denominations used, and
    two variants equal in both keep the order in which the search found
    them. *)
Theorem ideal_order_by_blocks_and_kinds (amount : Z) (code : string) (mv : Z)
    (bs : option loc) (s : store) (denoms : list Z) :
  currencies s !! upper code = Some denoms → descending denoms →
  ∀ r, (find_ideal_block_variants amount code mv bs s).1 = Ok r →
    StronglySorted
      (λ x y, x.1 < y.1 ∨ (x.1 = y.1 ∧ kinds_of x.2 ≤ kinds_of y.2)) r ∧
    ∃ raw,
      _enumerate_ideal_configs amount denoms
        (normalised denoms (caller_stock s bs)) = Ok raw ∧
      ∀ x y, before x y r → x.1 = y.1 → kinds_of x.2 = kinds_of y.2 →
             before x y raw.
Proof.
  intros Hcur Hdesc r Hr.
  apply find_ideal_inv in Hr as (denoms' & raw & sorted & Hc & Hraw & Hs & Hr).
  assert (denoms' = denoms) as -> by congruence.
  apply islice_Ok in Hr as [_ ->].
  pose proof (list_sort_ascending _ _ _ Hs) as Hasc.
  apply (ascending_by_take _ _ (Z.to_nat mv)) in Hasc.
  split.
  - eapply StronglySorted_weaken; [|exact Hasc].
    intros x y _ _ (kx & ky & Hkx & Hky & Hlt). simpl in *.
    apply score_ideal_Ok in Hkx as [_ ->]. apply score_ideal_Ok in Hky as [_ ->].
    simpl in Hlt.
    destruct (decide (y.1 = x.1)) as [Heq|Hne].
    + rewrite (bool_decide_eq_true_2 _ Heq) in Hlt. simpl in Hlt.
      destruct (decide (kinds_of y.2 = kinds_of x.2)) as [Hk|Hk]; [lia|].
      rewrite (bool_decide_eq_false_2 _ Hk) in Hlt. simpl in Hlt.
      apply bool_decide_eq_false in Hlt. lia.
    + rewrite (bool_decide_eq_false_2 _ Hne) in Hlt. simpl in Hlt.
      apply bool_decide_eq_false in Hlt. lia.
  - exists raw. split; [done|]. intros x y Hb Hblocks Hkinds.
    pose proof (StronglySorted_before _ _ _ _ Hasc Hb) as (kx & ky & Hkx & Hky & _).
    apply before_take in Hb.
    eapply list_sort_stable; [done..|]. simpl in *.
    apply before_elem_of in Hb as [Hx Hy].
    rewrite (list_sort_perm _ _ _ Hs) in Hx, Hy.
    eapply enumerate_ideal_sound in Hx as (_ & _ & Hx); [|done].
    eapply enumerate_ideal_sound in Hy as (_ & _ & Hy); [|done].
    apply block_path_sound in Hx as (_ & Hsx & Hwx & _).
    apply block_path_sound in Hy as (_ & Hsy & Hwy & _).
    rewrite (sorted_reverse_descending _ Hdesc) in Hwx, Hwy.
    apply score_ideal_Ok in Hkx as [_ ->]. apply score_ideal_Ok in Hky as [_ ->].
    rewrite Hwx, Hwy, Hsx, Hsy, Hblocks, Hkinds.
    apply score_lt_irrefl.
Qed.

End best.

Lemma truncation_keeps_best_witness : sum [1; 0; 0; 0] ≤ sum [0; 2; 0; 0].
Proof.
  destruct (proj2 (truncation_keeps_best (PF := Q_float) 10000 "usd" 1
                     (Some 1%positive) (store_with small_stock))
              [[1; 0; 0; 0]] ltac:(vm_compute; reflexivity))
    as (denoms & raw & Hc & Hraw & _ & Hall).
  injection Hc as <-. vm_compute in Hraw. injection Hraw as <-.
  apply (Hall [1; 0; 0; 0] [0; 2; 0; 0]).
  - constructor.
  - do 9 right. left.
  - intros Hin. rewrite elem_of_cons, elem_of_nil in Hin.
    destruct Hin as [Hin|[]]. discriminate Hin.
Defined.

Lemma ideal_order_by_blocks_and_kinds_witness :
  StronglySorted
    (λ x y : Z * list Z, x.1 < y.1 ∨ (x.1 = y.1 ∧ kinds_of x.2 ≤ kinds_of y.2))
    [(1, [30; 0; 0; 0]); (2, [0; 60; 0; 0]); (2, [3; 52; 5; 0])].
Proof.
  apply (ideal_order_by_blocks_and_kinds (PF := Q_float) 300000 "usd" 3
           (Some 1%positive)
           (store_with (<[100 := 30]> (<[50 := 60]> (<[20 := 5]> (<[10 := 0]> ∅)))))
           usd eq_refl
           (proj2 (CURRENCIES_regular "USD" usd eq_refl))
           [(1, [30; 0; 0; 0]); (2, [0; 60; 0; 0]); (2, [3; 52; 5; 0])]).
  vm_compute. reflexivity.
Defined.

(** X8: [_normalise_stock] returns a dictionary of its own, one that did
    not exist before the call.  In it a denomination has the caller's
    quantity if the caller's dictionary has the denomination, the sentinel
    if only the currency has it, and no entry otherwise; entries of the
    caller for other denominations are carried over.  The dictionaries that
    existed before the call are left as they were. *)
Theorem normalise_stock_lookup (denoms : list Z) (bs : option loc) (s : store) :
  valid_ref s bs →
  ∃ l m,
    (_normalise_stock denoms bs s).1 = Ok l ∧
    dicts s !! l = None ∧
    dicts (_normalise_stock denoms bs s).2 !! l = Some m ∧
    (∀ d, m !! d =
          match caller_stock s bs ≫= (.!! d) with
          | Some q => Some q
          | None => if decide (d ∈ denoms) then Some _INFTY else None
          end) ∧
    (∀ l' m', dicts s !! l' = Some m' →
              dicts (_normalise_stock denoms bs s).2 !! l' = Some m').
Proof.
  intros Hv.
  destruct (normalise_stock_total denoms bs s Hv) as (l & s' & Hrun).
  pose proof (normalise_stock_Ok _ _ _ _ _ Hrun) as (Hl & _ & Hd).
  pose proof (normalise_stock_frame denoms bs s) as [_ Hframe].
  rewrite Hrun in *. simpl in *.
  exists l, (normalised denoms (caller_stock s bs)). split_and!; [done| | | |done].
  - rewrite Hl. apply not_elem_of_dom, is_fresh.
  - by rewrite Hd, lookup_insert_eq.
  - intros d. apply normalised_lookup.
Qed.

Lemma normalise_stock_lookup_witness :
  ∃ l m,
    (_normalise_stock usd (Some 1%positive) (store_with small_stock)).1 = Ok l ∧
    dicts (store_with small_stock) !! l = None ∧
    dicts (_normalise_stock usd (Some 1%positive) (store_with small_stock)).2 !! l
      = Some m ∧
    m !! 100 = Some 3 ∧ m !! 20 = Some _INFTY.
Proof.
  destruct (normalise_stock_lookup usd (Some 1%positive)
              (store_with small_stock) ltac:(simpl; eexists; reflexivity))
    as (l & m & Hl & Hfresh & Hm & Hlook & _).
  exists l, m. split_and!; [done..| |].
  - rewrite Hlook. reflexivity.
  - rewrite Hlook. reflexivity.
Defined.

(** ** Text *)

Lemma append_cons (a : ascii) (s t : string) :
  String a s +:+ t = String a (s +:+ t).
Proof. reflexivity. Qed.

Lemma append_nil_l (s : string) : "" +:+ s = s.
Proof. reflexivity. Qed.

Lemma append_assoc (s t u : string) : (s +:+ t) +:+ u = s +:+ t +:+ u.
Proof.
  induction s as [|a s IH]; [done|]. by rewrite !append_cons, IH.
Qed.

Lemma str_of_int_Ok (n : Z) (s : string) :
  str_of_int n = Ok s ↔ Z.abs n < str_limit ∧ s = pretty n.
Proof.
  unfold str_of_int. case_bool_decide; split.
  - by intros [= <-].
  - by intros [_ ->].
  - done.
  - by intros [? _].
Qed.

Lemma str_of_int_run (n : Z) :
  Z.abs n < str_limit → str_of_int n = Ok (pretty n).
Proof. intros. by apply str_of_int_Ok. Qed.

Lemma format_rjust2_run (n : Z) :
  Z.abs n < str_limit → format_rjust2 n = Ok (rjust 2 (pretty n)).
Proof. intros Hn. unfold format_rjust2. by rewrite str_of_int_run. Qed.

Lemma format_thousands_run (n : Z) :
  0 ≤ n < str_limit → format_thousands n = Ok (thousands (pretty n)).
Proof.
  intros Hn. unfold format_thousands.
  rewrite bool_decide_eq_true_2 by lia. by rewrite bool_decide_eq_false_2 by lia.
Qed.

Lemma kinds_of_cons (b : Z) (bs : list Z) :
  kinds_of (b :: bs) = (if bool_decide (b ≠ 0) then 1 else 0) + kinds_of bs.
Proof.
  unfold kinds_of. rewrite filter_cons.
  destruct (decide (b ≠ 0)) as [Hb|Hb].
  - by rewrite bool_decide_eq_true_2.
  - by rewrite bool_decide_eq_false_2.
Qed.

(** ** The pretty printers *)

(** What [describe_rows] needs of a pair it prints. *)
Lemma rows_printable (ds : list Z) : ∀ bs : list Z,
  Forall (λ d, 0 < d) ds → Forall (λ b, 0 ≤ b) bs →
  weighted ds bs * BUNDLE_SIZE < str_limit →
  Forall (λ p : Z * Z, p.2 ≠ 0 →
            Z.abs p.2 < str_limit ∧ Z.abs p.1 < str_limit ∧
            0 ≤ p.1 * p.2 * BUNDLE_SIZE < str_limit) (zip ds bs).
Proof.
  induction ds as [|d ds IH]; intros bs Hd Hb Hw; [constructor|].
  destruct bs as [|b bs]; [constructor|].
  apply Forall_cons in Hd as [Hd Hds]. apply Forall_cons in Hb as [Hb Hbs].
  rewrite weighted_cons in Hw.
  pose proof (weighted_nonneg ds bs ltac:(eapply Forall_impl; [exact Hds|simpl; lia]) Hbs) as Hnn.
  simpl. constructor.
  - simpl. intros Hne. unfold BUNDLE_SIZE in *. nia.
  - apply IH; [done..|]. unfold BUNDLE_SIZE in *. nia.
Qed.

Lemma describe_rows_from (colours : gmap Z string) (ds : list Z) :
  ∀ (bs : list Z) (lines : list string) (total : Z),
  length bs = length ds →
  Forall (λ p : Z * Z, p.2 ≠ 0 →
            Z.abs p.2 < str_limit ∧ Z.abs p.1 < str_limit ∧
            0 ≤ p.1 * p.2 * BUNDLE_SIZE < str_limit) (zip ds bs) →
  0 ≤ total → total + weighted ds bs * BUNDLE_SIZE < str_limit →
  ∃ rows,
    for_each (zip ds bs) (describe_row colours) (lines, total)
    = Ok (lines ++ rows, total + weighted ds bs * BUNDLE_SIZE) ∧
    Z.of_nat (length rows) = kinds_of bs.
Proof.
  induction ds as [|d ds IH]; intros bs lines total Hlen Hp Ht Hw;
    destruct bs as [|b bs]; try discriminate.
  - exists []. simpl. rewrite app_nil_r. split; [f_equal; f_equal|done].
    unfold weighted. simpl. lia.
  - injection Hlen as Hlen. simpl in Hp. apply Forall_cons in Hp as [Hp Hps].
    rewrite weighted_cons in Hw |- *. rewrite kinds_of_cons. simpl.
    case_bool_decide as Hb.
    + destruct (Hp Hb) as (Hb' & Hd' & Hv). simpl in Hb', Hd', Hv.
      rewrite format_rjust2_run, str_of_int_run, format_thousands_run by done.
      simpl.
      edestruct (IH bs) as (rows & Hrun & Hrows); [done..| | |].
      * instantiate (1 := total + d * b * BUNDLE_SIZE). lia.
      * lia.
      * eexists (_ :: rows). split.
        -- etrans; [exact Hrun|]. rewrite <-app_assoc. simpl.
           do 2 f_equal. lia.
        -- simpl length. rewrite <-Hrows. lia.
    + subst b. simpl.
      destruct (IH bs lines total) as (rows & Hrun & Hrows); [done..|lia|].
      exists rows. split; [|lia].
      etrans; [exact Hrun|]. do 2 f_equal. lia.
Qed.

Lemma describe_rows_run (colours : gmap Z string) (ds bs : list Z)
    (lines : list string) :
  Forall (λ d, 0 < d) ds → Forall (λ b, 0 ≤ b) bs → length bs = length ds →
  weighted ds bs * BUNDLE_SIZE < str_limit →
  ∃ rows,
    describe_rows colours ds bs lines
      = Ok (lines ++ rows, weighted ds bs * BUNDLE_SIZE) ∧
    Z.of_nat (length rows) = kinds_of bs.
Proof.
  intros Hd Hb Hlen Hw.
  destruct (describe_rows_from colours ds bs lines 0) as (rows & Hrun & Hrows);
    [done|by apply rows_printable|done|lia|].
  exists rows. split; [|done]. unfold describe_rows.
  etrans; [exact Hrun|]. do 2 f_equal.
Qed.

Lemma returned_ideal_feasible `{PyFloat} (amount : Z) (code : string) (mv : Z)
    (bs : option loc) (s : store) (denoms : list Z) r x :
  currencies s !! upper code = Some denoms →
  (find_ideal_block_variants amount code mv bs s).1 = Ok r → x ∈ r →
  1 ≤ x.1 ∧ length x.2 = length denoms ∧ Forall (λ b, 0 ≤ b) x.2 ∧
  sum x.2 = x.1 * BLOCK_SIZE ∧
  weighted (sorted_reverse denoms) x.2 * BUNDLE_SIZE = amount ∧
  stock_bounds (normalised denoms (caller_stock s bs)) (sorted_reverse denoms) x.2.
Proof.
  intros Hcur Hr Hx.
  apply find_ideal_inv in Hr as (denoms' & raw & sorted & Hc & Hraw & Hs & Hr).
  assert (denoms' = denoms) as -> by congruence.
  eapply ranked_subset in Hx; [|done..].
  eapply enumerate_ideal_sound in Hx as (Hdiv & Hb & Hp); [|done].
  apply block_path_sound in Hp as (Hlen & Hsum & Hw & Hst & Hn).
  rewrite sorted_reverse_length in Hlen.
  split_and!; [done..| |done| |done].
  - apply Hn. unfold BLOCK_SIZE. lia.
  - apply exact_amount. done.
Qed.

Lemma returned_loose_feasible `{PyFloat} (amount : Z) (code : string) (mv : Z)
    (bs : option loc) (s : store) (denoms : list Z) r c :
  currencies s !! upper code = Some denoms →
  Forall (λ d, 0 < d) denoms → 0 ≤ amount ∨ (2 ≤ length denoms)%nat →
  (find_loose_bundle_variants amount code mv bs s).1 = Ok r → c ∈ r →
  length c = length denoms ∧ Forall (λ b, 0 ≤ b) c ∧
  weighted (sorted_reverse denoms) c * BUNDLE_SIZE = amount ∧
  stock_bounds (normalised denoms (caller_stock s bs)) (sorted_reverse denoms) c.
Proof.
  intros Hcur Hpos Ham Hr Hc.
  apply find_loose_inv in Hr as (denoms' & raw & sorted & Hc' & Hraw & Hs & Hr).
  assert (denoms' = denoms) as -> by congruence.
  eapply ranked_subset in Hc; [|done..].
  apply enumerate_loose_inv in Hraw as [_ Hraw].
  apply Hraw in Hc as [Hdiv Hp].
  pose proof (bundle_path_sound _ _ _ _ Hp) as (Hlen & Hw & Hst).
  rewrite sorted_reverse_length in Hlen.
  split_and!; [done| | |done].
  - assert (Forall (λ d, 0 < d) (sorted_reverse denoms)) as Hpos'
      by by apply sorted_reverse_Forall.
    destruct (decide (0 ≤ amount)) as [Hnn|Hneg].
    + eapply bundle_path_nonneg; [done| |done].
      apply Z.div_pos; [done|unfold BUNDLE_SIZE; lia].
    + destruct Ham as [?|Hl2]; [done|].
      pose proof (sorted_reverse_length denoms) as Hl.
      destruct (sorted_reverse denoms) as [|d [|y ds]] eqn:Hsr;
        [simpl in Hl; lia..|].
      eapply bundle_path_nonneg; [done| |done].
      eapply bundle_path_value_nonneg; [|done].
      by apply Forall_cons in Hpos' as [? _].
  - apply exact_amount. done.
Qed.

Lemma describe_ideal_run (colours : gmap Z string) (ds c : list Z)
    (blocks amount : Z) :
  Forall (λ d, 0 < d) ds → Forall (λ b, 0 ≤ b) c → length c = length ds →
  1 ≤ blocks → sum c = blocks * BLOCK_SIZE →
  weighted ds c * BUNDLE_SIZE = amount → amount < str_limit →
  ∃ rows,
    _describe_ideal colours blocks c ds =
      Ok (String.concat NL
            ([pretty blocks +:+ " ideal block(s) = " +:+ pretty (sum c)
                +:+ " bundles"]
             ++ rows ++ ["TOTAL: " +:+ thousands (pretty amount)])) ∧
    Z.of_nat (length rows) = kinds_of c.
Proof.
  intros Hpos Hnn Hlen Hb Hsum Hw Ham.
  pose proof (weighted_lower_bound 1 ds c
    ltac:(eapply Forall_impl; [exact Hpos|simpl; lia]) Hnn Hlen) as Hlow.
  destruct (describe_rows_run colours ds c
              [pretty blocks +:+ " ideal block(s) = "
                 +:+ pretty (blocks * BLOCK_SIZE) +:+ " bundles"])
    as (rows & Hrun & Hrows); [done..|lia|].
  exists rows. split; [|done].
  unfold _describe_ideal. unfold BLOCK_SIZE, BUNDLE_SIZE in *.
  rewrite !str_of_int_run by lia. simpl.
  change (blocks * 30) with (blocks * BLOCK_SIZE). unfold BLOCK_SIZE.
  rewrite Hrun. simpl. rewrite format_thousands_run by lia. simpl.
  by rewrite Hw, Hsum.
Qed.

Lemma describe_loose_run (colours : gmap Z string) (ds c : list Z)
    (amount : Z) :
  Forall (λ d, 0 < d) ds → Forall (λ b, 0 ≤ b) c → length c = length ds →
  weighted ds c * BUNDLE_SIZE = amount → amount < str_limit →
  ∃ rows,
    _describe_loose colours c ds =
      Ok (String.concat NL
            (["No ideal blocks – " +:+ pretty (sum c) +:+ " bundle(s)"]
             ++ rows ++ ["TOTAL: " +:+ thousands (pretty amount)])) ∧
    Z.of_nat (length rows) = kinds_of c.
Proof.
  intros Hpos Hnn Hlen Hw Ham.
  pose proof (weighted_lower_bound 1 ds c
    ltac:(eapply Forall_impl; [exact Hpos|simpl; lia]) Hnn Hlen) as Hlow.
  pose proof (sum_nonneg _ Hnn) as Hs0.
  destruct (describe_rows_run colours ds c
              ["No ideal blocks – " +:+ pretty (sum c) +:+ " bundle(s)"])
    as (rows & Hrun & Hrows); [done..|lia|].
  exists rows. split; [|done].
  unfold _describe_loose. unfold BUNDLE_SIZE in *.
  rewrite !str_of_int_run by lia. simpl.
  rewrite Hrun. simpl. rewrite format_thousands_run by lia. simpl.
  by rewrite Hw.
Qed.

(** X9: the description of a returned ideal variant states the order: its
    first line gives the block count and the number of bundles the variant
    really has, there is one line for each denomination in use, and the
    last line gives the amount asked for.  The integers are printable: the
    amount is below the bound CPython puts on conversions to text. *)
Theorem describe_ideal_states_the_order `{PyFloat} (amount : Z) (code : string)
    (mv : Z) (bs : option loc) (s : store) (denoms : list Z)
    (colours : gmap Z string) :
  currencies s !! upper code = Some denoms → Forall (λ d, 0 < d) denoms →
  amount < str_limit →
  ∀ r x, (find_ideal_block_variants amount code mv bs s).1 = Ok r → x ∈ r →
    ∃ rows,
      _describe_ideal colours x.1 x.2 (sorted_reverse denoms) =
        Ok (String.concat NL
              ([pretty x.1 +:+ " ideal block(s) = " +:+ pretty (sum x.2)
                  +:+ " bundles"]
               ++ rows ++ ["TOTAL: " +:+ thousands (pretty amount)])) ∧
      Z.of_nat (length rows) = kinds_of x.2.
Proof.
  intros Hcur Hpos Ham r x Hr Hx.
  destruct (returned_ideal_feasible _ _ _ _ _ _ _ _ Hcur Hr Hx)
    as (Hb & Hlen & Hnn & Hsum & Hw & _).
  apply describe_ideal_run; try done.
  - by apply sorted_reverse_Forall.
  - by rewrite sorted_reverse_length.
Qed.

(** X10: the same for a returned loose variant: the first line gives the
    number of bundles, the last line the amount asked for. *)
Theorem describe_loose_states_the_order `{PyFloat} (amount : Z) (code : string)
    (mv : Z) (bs : option loc) (s : store) (denoms : list Z)
    (colours : gmap Z string) :
  currencies s !! upper code = Some denoms → Forall (λ d, 0 < d) denoms →
  0 ≤ amount ∨ (2 ≤ length denoms)%nat → amount < str_limit →
  ∀ r c, (find_loose_bundle_variants amount code mv bs s).1 = Ok r → c ∈ r →
    ∃ rows,
      _describe_loose colours c (sorted_reverse denoms) =
        Ok (String.concat NL
              (["No ideal blocks – " +:+ pretty (sum c) +:+ " bundle(s)"]
               ++ rows ++ ["TOTAL: " +:+ thousands (pretty amount)])) ∧
      Z.of_nat (length rows) = kinds_of c.
Proof.
  intros Hcur Hpos Hsome Ham r c Hr Hc.
  destruct (returned_loose_feasible _ _ _ _ _ _ _ _ Hcur Hpos Hsome Hr Hc)
    as (Hlen & Hnn & Hw & _).
  apply describe_loose_run; try done.
  - by apply sorted_reverse_Forall.
  - by rewrite sorted_reverse_length.
Qed.

(** ** The stock argument of the command line *)

Lemma for_loop_app {A S : Type} (xs ys : list A) (body : A → S → outcome S)
    (s : S) :
  for_loop (xs ++ ys) body s = for_loop xs body s ≫= for_loop ys body.
Proof.
  revert s. induction xs as [|x xs IH]; intros s; simpl; [done|].
  destruct (body x s) as [s'|e]; simpl; [apply IH|done].
Qed.

Lemma split_nonempty (sep : ascii) (s : string) : split sep s ≠ [].
Proof.
  destruct s as [|c s]; simpl; [done|].
  destruct (Ascii.eqb c sep); [done|]. by destruct (split sep s).
Qed.

Lemma split_app (sep : ascii) (s1 s2 : string) :
  split sep (s1 +:+ String sep s2) = split sep s1 ++ split sep s2.
Proof.
  induction s1 as [|c s1 IH].
  - rewrite append_nil_l. simpl. by rewrite Ascii.eqb_refl.
  - rewrite append_cons. simpl. rewrite IH.
    destruct (Ascii.eqb c sep); [done|].
    pose proof (split_nonempty sep s1). by destruct (split sep s1).
Qed.

Section parse.
Context `{PI : PyInt}.

(** A turn of the loop either raises, whatever [out] is, or enters one
    valid pair. *)
Lemma parse_entry_cases (denoms : list Z) (entry : string) :
  (∃ e, ∀ out, parse_entry denoms entry out = Raised e) ∨
  (∃ d q, d ∈ denoms ∧ 0 ≤ q ∧
          ∀ out, parse_entry denoms entry out = Returned (<[d:=q]> out)).
Proof.
  unfold parse_entry.
  destruct (split "=" entry) as [|ds [|qs [|? ?]]]; [left; by eexists..| |left; by eexists].
  destruct (int_of_str ds) as [d|]; simpl; [|left; by eexists].
  destruct (int_of_str qs) as [q|]; simpl; [|left; by eexists].
  case_bool_decide as Hd.
  { left. destruct (str_of_int d); simpl; by eexists. }
  case_bool_decide as Hq; [left; by eexists|].
  right. exists d, q. split_and!; [|lia|done].
  first [exact Hd|by apply dec_stable].
Qed.

Lemma parse_loop_valid (denoms : list Z) (entries : list string) :
  ∀ out m,
    for_loop entries (parse_entry denoms) out = Returned m →
    (∀ d q, out !! d = Some q → d ∈ denoms ∧ 0 ≤ q) →
    (∀ d q, m !! d = Some q → d ∈ denoms ∧ 0 ≤ q) ∧
    (entries ≠ [] → m ≠ ∅).
Proof.
  induction entries as [|entry entries IH]; intros out m Hrun Hout; simpl in Hrun.
  - injection Hrun as <-. done.
  - destruct (parse_entry_cases denoms entry) as [[e He]|(d & q & Hd & Hq & He)];
      rewrite He in Hrun; simpl in Hrun; [done|].
    destruct (IH _ _ Hrun) as [Hm Hne].
    { intros d' q'. destruct (decide (d' = d)) as [->|Hne].
      - rewrite lookup_insert_eq. by intros [= <-].
      - rewrite lookup_insert_ne by done. apply Hout. }
    split; [done|]. intros _.
    destruct entries as [|e' entries']; [|by apply Hne].
    simpl in Hrun. injection Hrun as <-. apply insert_non_empty.
Qed.

Lemma parse_loop_union (denoms : list Z) (entries : list string) :
  ∀ acc out : gmap Z Z,
    for_loop entries (parse_entry denoms) (acc ∪ out) =
    (m ← for_loop entries (parse_entry denoms) acc; Returned (m ∪ out)).
Proof.
  induction entries as [|entry entries IH]; intros acc out; simpl; [done|].
  destruct (parse_entry_cases denoms entry) as [[e He]|(d & q & _ & _ & He)];
    rewrite !He; simpl; [done|].
  rewrite insert_union_l. apply IH.
Qed.

(** X11: a stock specification that is accepted yields quantities for
    denominations of the currency only, none of them negative; and what a
    specification that is not empty yields is not empty. *)
Theorem parsed_stock_is_valid (spec : string) (denoms : list Z)
    (m : gmap Z Z) :
  _parse_stock_arg spec denoms = Returned m →
  (∀ d q, m !! d = Some q → d ∈ denoms ∧ 0 ≤ q) ∧
  (spec ≠ "" → m ≠ ∅).
Proof.
  unfold _parse_stock_arg. case_bool_decide as Hs.
  - intros [= <-]. split; [|done]. intros d q. by rewrite lookup_empty.
  - intros Hrun. destruct (parse_loop_valid _ _ _ _ Hrun) as [Hm Hne].
    + intros d q. by rewrite lookup_empty.
    + split; [done|]. intros _. apply Hne, split_nonempty.
Qed.

Lemma append_empty_inv (s t : string) : s +:+ t = "" → s = "".
Proof. by destruct s. Qed.

(** X12: a specification made of two, with a comma between them, is read
    as the first and then the second: the first error met is the one
    raised, and where both give a quantity for a denomination the later
    one stands. *)
Theorem parse_stock_arg_concat (spec1 spec2 : string) (denoms : list Z) :
  spec1 ≠ "" → spec2 ≠ "" →
  _parse_stock_arg (spec1 +:+ "," +:+ spec2) denoms =
  (m1 ← _parse_stock_arg spec1 denoms;
   m2 ← _parse_stock_arg spec2 denoms;
   Returned (m2 ∪ m1)).
Proof.
  intros H1 H2. unfold _parse_stock_arg.
  rewrite (bool_decide_eq_false_2 (spec1 = "")) by done.
  rewrite (bool_decide_eq_false_2 (spec2 = "")) by done.
  rewrite bool_decide_eq_false_2 by (by intros ?%append_empty_inv).
  change ("," +:+ spec2) with (String "," spec2).
  rewrite split_app, for_loop_app.
  destruct (for_loop (split "," spec1) _ ∅) as [m1|e]; simpl; [|done].
  rewrite <-(left_id_L ∅ (∪) m1) at 1. apply parse_loop_union.
Qed.

End parse.

(** ** An order is met or it is not *)

Lemma feasible_grouped_loose (ds : list Z) (stock : gmap Z Z) (amount : Z)
    (x : Z * list Z) :
  feasible_grouped ds stock amount x → feasible_loose ds stock amount x.2.
Proof. intros (_ & Hl & Hn & _ & Hw & Hs). by split_and!. Qed.

Section answers.
Context `{PF : PyFloat}.

(** The ideal search answers every order; its answer is empty when no
    grouped solution exists, and only then. *)
Lemma find_ideal_answer (amount : Z) (code : string) (mv : Z)
    (bs : option loc) (s : store) (denoms : list Z) :
  currencies s !! upper code = Some denoms → regular denoms →
  valid_ref s bs → 1 ≤ mv ≤ sys_maxsize →
  ∃ r, (find_ideal_block_variants amount code mv bs s).1 = Ok r ∧
       Z.of_nat (length r) ≤ mv ∧
       (r = [] ↔
        ¬ ∃ x, feasible_grouped (sorted_reverse denoms)
                 (normalised denoms (caller_stock s bs)) amount x).
Proof.
  intros Hcur Hreg Hv Hmv.
  set (stock := normalised denoms (caller_stock s bs)).
  assert (∀ d, d ∈ denoms → is_Some (stock !! d)) as Hdense
    by (intros d Hd; by apply normalised_dense).
  destruct (regular_sorted _ Hreg) as (d0 & y & ds & Heq & Hpos).
  assert (sorted_reverse denoms ≠ []) as Hne by by rewrite Heq.
  pose proof (regular_nonempty _ Hreg) as Hne'.
  pose proof Hreg as [Hdpos Hlen].
  rewrite (find_ideal_run _ _ _ _ _ _ Hv Hcur). fold stock.
  destruct (enumerate_ideal_total amount denoms stock) as [raw Hraw]; [done..|].
  rewrite Hraw. simpl.
  assert (∀ x, x ∈ raw ↔
    feasible_grouped (sorted_reverse denoms) stock amount x) as Hchar.
  { intros x. rewrite <-block_path_feasible by done. split.
    - intros Hx. by eapply enumerate_ideal_sound.
    - intros (Hm & Hb & Hp). by eapply enumerate_ideal_complete. }
  destruct (ranked_length (λ tpl, _score_ideal tpl.1 tpl.2 denoms) raw mv)
    as (r & Hr & Hlen1 & Hlen2); [done| |].
  { apply Forall_forall. intros x Hx%Hchar. apply score_ideal_total.
    destruct Hx as (Hb & _ & _ & Hsum & _). unfold BLOCK_SIZE in *. lia. }
  exists r. split_and!; [done..|]. split.
  - intros -> [x Hx%Hchar]. simpl in Hlen1.
    destruct raw; [by apply elem_of_nil in Hx|simpl in Hlen1; lia].
  - intros Hno. destruct raw as [|x raw].
    + destruct r; [done|simpl in Hlen1; lia].
    + destruct Hno. exists x. apply Hchar. left.
Qed.

(** The same for the loose search, when the amount is not zero. *)
Lemma find_loose_answer (amount : Z) (code : string) (mv : Z)
    (bs : option loc) (s : store) (denoms : list Z) :
  currencies s !! upper code = Some denoms → regular denoms →
  valid_ref s bs → 1 ≤ mv ≤ sys_maxsize → amount ≠ 0 →
  ∃ r, (find_loose_bundle_variants amount code mv bs s).1 = Ok r ∧
       Z.of_nat (length r) ≤ mv ∧
       (r = [] ↔
        ¬ ∃ c, feasible_loose (sorted_reverse denoms)
                 (normalised denoms (caller_stock s bs)) amount c).
Proof.
  intros Hcur Hreg Hv Hmv Ha.
  set (stock := normalised denoms (caller_stock s bs)).
  assert (∀ d, d ∈ denoms → is_Some (stock !! d)) as Hdense
    by (intros d Hd; by apply normalised_dense).
  destruct (regular_sorted _ Hreg) as (d0 & y & ds & Heq & Hpos).
  assert (sorted_reverse denoms ≠ []) as Hne by by rewrite Heq.
  pose proof Hreg as [Hdpos Hlen].
  rewrite (find_loose_run _ _ _ _ _ _ Hv Hcur). fold stock.
  destruct (enumerate_loose_total amount denoms stock) as [raw Hraw].
  { apply levels_ok_dense; [done..|].
    intros d Hd. apply Hdense. by apply sorted_reverse_elem_of. }
  rewrite Hraw. simpl.
  pose proof Hraw as [Hnd Hin]%enumerate_loose_inv.
  assert (∀ c, c ∈ raw ↔
    feasible_loose (sorted_reverse denoms) stock amount c) as Hchar.
  { intros c. rewrite Hin. apply bundle_path_feasible; [done..|].
    right. by rewrite sorted_reverse_length. }
  destruct (ranked_length (λ bc, _score_loose bc denoms) raw mv)
    as (r & Hr & Hlen1 & Hlen2); [done| |].
  { apply Forall_forall. intros c Hc%Hchar. apply score_loose_total.
    destruct Hc as (_ & Hnn & Hw & _). intros Hz.
    rewrite (weighted_zero _ _ Hnn Hz) in Hw. lia. }
  exists r. split_and!; [done..|]. split.
  - intros -> [x Hx%Hchar]. simpl in Hlen1.
    destruct raw; [by apply elem_of_nil in Hx|simpl in Hlen1; lia].
  - intros Hno. destruct raw as [|x raw].
    + destruct r; [done|simpl in Hlen1; lia].
    + destruct Hno. exists x. apply Hchar. left.
Qed.

(** The two calls a caller makes, the loose one in the store the ideal one
    left. *)
Lemma search_then_fallback (amount : Z) (code : string) (mv : Z)
    (bs : option loc) (s : store) (denoms : list Z) :
  currencies s !! upper code = Some denoms → regular denoms →
  valid_ref s bs → 1 ≤ mv ≤ sys_maxsize → amount ≠ 0 →
  ∃ r1 s1 r2 s2,
    find_ideal_block_variants amount code mv bs s = (Ok r1, s1) ∧
    find_loose_bundle_variants amount code mv bs s1 = (Ok r2, s2) ∧
    Z.of_nat (length r1) ≤ mv ∧ Z.of_nat (length r2) ≤ mv ∧
    (r1 = [] ↔
     ¬ ∃ x, feasible_grouped (sorted_reverse denoms)
              (normalised denoms (caller_stock s bs)) amount x) ∧
    (r2 = [] ↔
     ¬ ∃ c, feasible_loose (sorted_reverse denoms)
              (normalised denoms (caller_stock s bs)) amount c) ∧
    currencies s1 = currencies s ∧ currencies s2 = currencies s.
Proof.
  intros Hcur Hreg Hv Hmv Ha.
  destruct (find_ideal_answer amount code mv bs s denoms)
    as (r1 & Hr1 & Hl1 & He1); [done..|].
  pose proof (find_ideal_frame amount code mv bs s) as [Hc1 Hd1].
  destruct (find_ideal_block_variants amount code mv bs s) as [o1 s1] eqn:H1.
  simpl in Hr1, Hc1, Hd1. subst o1.
  destruct (frame_caller_stock s s1 bs Hv Hd1) as [Hv1 Hcs1].
  destruct (find_loose_answer amount code mv bs s1 denoms)
    as (r2 & Hr2 & Hl2 & He2); [by rewrite Hc1|done..|].
  pose proof (find_loose_frame amount code mv bs s1) as [Hc2 _].
  destruct (find_loose_bundle_variants amount code mv bs s1) as [o2 s2] eqn:H2.
  simpl in Hr2, Hc2. subst o2. rewrite Hcs1 in He2.
  exists r1, s1, r2, s2. split_and!; [done..|congruence].
Qed.

End answers.

(** ** The command line *)

Lemma map_result_with {A B : Type} (f : A → result B) (P : B → Prop)
    (l : list A) :
  (∀ x, x ∈ l → ∃ k, f x = Ok k ∧ P k) →
  ∃ ks, map_result f l = Ok ks ∧ Forall P ks ∧ length ks = length l.
Proof.
  induction l as [|x l IH]; intros Hl; simpl.
  - by exists [].
  - destruct (Hl x) as (k & -> & Hk); [left|].
    destruct IH as (ks & -> & Hks & Hlen).
    { intros y Hy. apply Hl. by right. }
    exists (k :: ks). simpl. split_and!; [done|by constructor|by f_equal].
Qed.

Lemma IO_bind_run {A B : Type} (m : IO A) (f : A → IO B) (p : process) :
  (m ≫= f) p =
  match m p with
  | (Returned a, p') => f a p'
  | (Raised e, p') => (Raised e, p')
  end.
Proof. reflexivity. Qed.

Section cli.
Context `{PF : PyFloat} `{PI : PyInt}.

Lemma main_stock (args : Namespace) (denoms : list Z)
    (given : option (gmap Z Z)) (p : process) :
  parsed_stock args denoms given →
  ∃ bs h,
    (match args_stock args with
     | Some spec =>
       if bool_decide (spec ≠ "") then
         m ← lift_outcome (_parse_stock_arg spec denoms);
         l ← in_heap (dict_new m);
         mret (Some l)
       else mret None
     | None => mret None
     end : IO (option loc)) p
    = (Returned bs, {| heap := h; colours := colours p; stdout := stdout p |}) ∧
    currencies h = currencies (heap p) ∧ valid_ref h bs ∧
    caller_stock h bs = given.
Proof.
  unfold parsed_stock. destruct p as [h cs out]. simpl.
  destruct (args_stock args) as [spec|]; [case_bool_decide|].
  - intros (m & Hm & ->). rewrite Hm.
    eexists (Some _), _. split; [reflexivity|]. simpl.
    rewrite lookup_insert_eq. split_and!; [done|by eexists|done].
  - intros ->. exists None, h. done.
  - intros ->. exists None, h. done.
Qed.

(** X13: [main] reports whether the order can be met.  For a currency of
    the table, an amount that is positive and below the limit of
    [str(int)], a count of variants within range and a stock specification
    that is accepted: if the stock admits whole blocks, [main] prints what
    [_describe_ideal] returns for each variant that
    [find_ideal_block_variants] returns for the stock read, in that order,
    with the separator line between two of them; if the stock admits
    bundles but no whole blocks, it prints the warning and then, in the
    same way, what [_describe_loose] returns for each variant that
    [find_loose_bundle_variants] returns; otherwise it prints nothing and
    the run ends with the message that the order cannot be fulfilled.  The
    colours are those of the table, or none after [--no-colour].  Every
    description printed ends with the amount asked for. *)
Theorem main_reports_fulfilment (args : Namespace) (p : process)
    (denoms : list Z) (given : option (gmap Z Z)) :
  currencies (heap p) !! upper (args_currency args) = Some denoms →
  regular denoms →
  0 < args_amount args < str_limit →
  1 ≤ args_num args ≤ sys_maxsize →
  parsed_stock args (sorted_reverse denoms) given →
  let amount := args_amount args in
  let stock := normalised denoms given in
  let now := if args_no_colour args then ∅ else colours p in
  let holds_stock (h : store) (bs : option loc) :=
    currencies h = currencies (heap p) ∧ valid_ref h bs ∧
    caller_stock h bs = given in
  let closing (t : string) :=
    ∃ first rows,
      t = String.concat NL
            (first :: rows ++ ["TOTAL: " +:+ thousands (pretty amount)]) in
  ((∃ x, feasible_grouped (sorted_reverse denoms) stock amount x) →
   ∃ h bs variants texts,
     holds_stock h bs ∧
     (find_ideal_block_variants amount (args_currency args) (args_num args)
        bs h).1 = Ok variants ∧
     variants ≠ [] ∧ Z.of_nat (length variants) ≤ args_num args ∧
     Forall2 (λ x t, _describe_ideal now x.1 x.2 (sorted_reverse denoms)
                     = Ok t) variants texts ∧
     Forall closing texts ∧
     (main args p).1 = Returned () ∧
     stdout (main args p).2 = stdout p +:+ String.concat descr texts +:+ NL) ∧
  ((¬ ∃ x, feasible_grouped (sorted_reverse denoms) stock amount x) →
   (∃ c, feasible_loose (sorted_reverse denoms) stock amount c) →
   ∃ h bs variants texts,
     holds_stock h bs ∧
     (find_loose_bundle_variants amount (args_currency args) (args_num args)
        bs h).1 = Ok variants ∧
     variants ≠ [] ∧ Z.of_nat (length variants) ≤ args_num args ∧
     Forall2 (λ c t, _describe_loose now c (sorted_reverse denoms) = Ok t)
       variants texts ∧
     Forall closing texts ∧
     (main args p).1 = Returned () ∧
     stdout (main args p).2 =
       (stdout p +:+
        ("⚠ No ideal block possible. Showing loose‑bundle variants:" +:+ NL)
        +:+ NL) +:+ String.concat descr texts +:+ NL) ∧
  ((¬ ∃ c, feasible_loose (sorted_reverse denoms) stock amount c) →
   (main args p).1 =
     Raised (SystemExit
       "✘ Cannot fulfil order with given stock (even without ideal blocks).") ∧
   stdout (main args p).2 = stdout p).
Proof.
  intros Hcur Hreg Ham Hnum Hst amount stock now holds_stock closing.
  destruct p as [h cs out]. simpl in Hcur. simpl stdout.
  simpl in now, holds_stock.
  remember (main args {| heap := h; colours := cs; stdout := out |}) as R eqn:HR.
  unfold main in HR. rewrite IO_bind_run in HR.
  assert ((if args_no_colour args then clear_colours else mret ())
            {| heap := h; colours := cs; stdout := out |}
          = (Returned (), {| heap := h; colours := now; stdout := out |})) as Hnc.
  { unfold now. by destruct (args_no_colour args). }
  rewrite Hnc in HR. clear Hnc.
  rewrite IO_bind_run in HR. unfold in_heap at 1, currencies_getitem in HR.
  simpl heap in HR. rewrite Hcur in HR. simpl of_result in HR.
  cbv iota beta in HR. rewrite IO_bind_run in HR.
  destruct (main_stock args (sorted_reverse denoms) given
              {| heap := h; colours := now; stdout := out |} Hst)
    as (bs & h2 & Hrun & Hc2 & Hv & Hcs).
  simpl in Hc2.
  match type of HR with
  | context [match ?e with (_, _) => _ end] =>
    replace e with (Returned bs, {| heap := h2; colours := now; stdout := out |})
      in HR by (symmetry; exact Hrun)
  end.
  clear Hrun.
  destruct (search_then_fallback amount (args_currency args) (args_num args)
              bs h2 denoms)
    as (r1 & s1 & r2 & s2 & H1 & H2 & Hl1 & Hl2 & He1 & He2 & Hc1 & _);
    [by rewrite Hc2|done..|lia|].
  rewrite Hcs in He1, He2. fold stock in He1, He2.
  assert (holds_stock s1 bs) as Hs1.
  { pose proof (find_ideal_frame amount (args_currency args) (args_num args)
                  bs h2) as [_ Hd1].
    rewrite H1 in Hd1. simpl in Hd1.
    destruct (frame_caller_stock h2 s1 bs Hv Hd1) as [Hv1 Hcs1].
    unfold holds_stock. split_and!; congruence. }
  rewrite IO_bind_run in HR. unfold in_heap at 1 in HR. simpl heap in HR.
  fold amount in HR. rewrite H1 in HR. simpl of_result in HR.
  cbv iota beta in HR. simpl colours in HR. simpl stdout in HR.
  pose proof Hreg as [Hpos _].
  assert (Forall (λ d, 0 < d) (sorted_reverse denoms)) as Hpos'
    by by apply sorted_reverse_Forall.
  assert (∀ x, x ∈ r1 → ∃ t,
            (let '(b, counts) := x in
             _describe_ideal now b counts (sorted_reverse denoms)) = Ok t ∧
            closing t) as Hd1.
  { intros x Hx.
    destruct (returned_ideal_feasible amount (args_currency args)
                (args_num args) bs h2 denoms r1 x)
      as (Hb & Hlen & Hnn & Hsum & Hw & _);
      [by rewrite Hc2|by rewrite H1|done|].
    destruct x as [b c]. simpl in *.
    destruct (describe_ideal_run now (sorted_reverse denoms) c b amount)
      as (rows & -> & _); try done.
    - by rewrite sorted_reverse_length.
    - lia.
    - unfold closing. by eauto. }
  assert (∀ c, c ∈ r2 → ∃ t,
            _describe_loose now c (sorted_reverse denoms) = Ok t ∧
            closing t) as Hd2.
  { intros c Hc.
    destruct (returned_loose_feasible amount (args_currency args)
                (args_num args) bs s1 denoms r2 c)
      as (Hlen & Hnn & Hw & _);
      [by rewrite Hc1, Hc2|done|left; lia|by rewrite H2|done|].
    destruct (describe_loose_run now (sorted_reverse denoms) c amount)
      as (rows & -> & _); try done.
    - by rewrite sorted_reverse_length.
    - lia.
    - unfold closing. by eauto. }
  destruct (map_result_with _ _ r1 Hd1) as (t1 & Ht1 & Hf1 & Hn1).
  destruct (map_result_with _ _ r2 Hd2) as (t2 & Ht2 & Hf2 & Hn2).
  case_bool_decide as Hr1.
  - (* ideal variants *)
    rewrite IO_bind_run in HR. unfold get_colours at 1 in HR.
    cbv iota beta in HR. simpl colours in HR.
    rewrite IO_bind_run in HR. unfold lift_outcome at 1 in HR.
    rewrite Ht1 in HR. simpl of_result in HR. cbv iota beta in HR.
    unfold print in HR. simpl in HR. subst R. simpl.
    split_and!.
    + intros _. exists h2, bs, r1, t1.
      split_and!; [by unfold holds_stock|by rewrite H1|done|done| |done..].
      apply map_result_Ok in Ht1.
      eapply Forall2_impl; [exact Ht1|]. by intros [b c] t.
    + intros Hno. by apply He1 in Hno.
    + intros Hno. destruct Hr1. apply He1. intros [x Hx]. apply Hno.
      exists x.2. by apply feasible_grouped_loose.
  - rewrite IO_bind_run in HR. unfold in_heap at 1 in HR. simpl heap in HR.
    rewrite H2 in HR. simpl of_result in HR. cbv iota beta in HR.
    simpl colours in HR. simpl stdout in HR.
    case_bool_decide as Hr2.
    + rewrite IO_bind_run in HR. unfold print at 1 in HR. cbv iota beta in HR.
      rewrite IO_bind_run in HR. unfold get_colours at 1 in HR.
      cbv iota beta in HR. simpl colours in HR.
      rewrite IO_bind_run in HR. unfold lift_outcome at 1 in HR.
      rewrite Ht2 in HR. simpl of_result in HR. cbv iota beta in HR.
      unfold print in HR. simpl in HR. subst R. simpl.
      split_and!.
      * intros Hyes. by apply He1 in Hyes.
      * intros _ _. exists s1, bs, r2, t2.
        split_and!; [done|by rewrite H2|done|done| |done..].
        by apply map_result_Ok in Ht2.
      * intros Hno. by apply He2 in Hno.
    + unfold raise in HR. subst R. simpl. split_and!.
      * intros Hyes. by apply He1 in Hyes.
      * intros _ Hyes. by apply He2 in Hyes.
      * done.
Qed.

End cli.

(** ** The web handler *)

Lemma ascii_upper_idemp (c : ascii) : ascii_upper (ascii_upper c) = ascii_upper c.
Proof. by destruct c as [[] [] [] [] [] [] [] []]. Qed.

Lemma upper_idemp (s : string) : upper (upper s) = upper s.
Proof.
  induction s as [|c s IH]; simpl; [done|]. by rewrite ascii_upper_idemp, IH.
Qed.

Lemma W_bind_run {A B : Type} (m : W A) (f : A → W B) (s : store) :
  (m ≫= f) s =
  match m s with
  | (Returned a, s') => f a s'
  | (Raised e, s') => (Raised e, s')
  end.
Proof. reflexivity. Qed.

Lemma breakdown_from (ds : list Z) : ∀ (bs : list Z) bd t,
  Forall (λ b, 0 ≤ b) bs → length bs = length ds →
  ∃ bd',
    foldl breakdown_step (bd, t) (zip ds bs)
      = (bd ++ bd', t + weighted ds bs * BUNDLE_SIZE) ∧
    sum (b_bundles <$> bd') = sum bs ∧
    Forall (λ e, 0 < b_bundles e ∧
                 b_value e = b_denomination e * b_bundles e * BUNDLE_SIZE ∧
                 b_denomination e ∈ ds) bd'.
Proof.
  induction ds as [|d ds IH]; intros bs bd t Hnn Hlen;
    destruct bs as [|b bs]; try discriminate.
  - exists []. rewrite app_nil_r. simpl. split_and!; [|done|constructor].
    f_equal. unfold weighted. simpl. lia.
  - injection Hlen as Hlen. apply Forall_cons in Hnn as [Hb Hnn].
    rewrite weighted_cons, sum_cons. simpl. case_bool_decide as Hpos.
    + destruct (IH bs (bd ++ [{| b_denomination := d; b_bundles := b;
                                 b_value := d * b * BUNDLE_SIZE |}])
                  (t + d * b * BUNDLE_SIZE) Hnn Hlen)
        as (bd' & -> & Hsum & Hall).
      eexists (_ :: bd'). rewrite <-app_assoc. split_and!.
      * simpl. f_equal. lia.
      * rewrite fmap_cons, sum_cons, Hsum. done.
      * constructor; [simpl; split_and!; [lia|done|left]|].
        eapply Forall_impl; [exact Hall|]. simpl.
        intros e (? & ? & ?). split_and!; [done..|by right].
    + destruct (IH bs bd t Hnn Hlen) as (bd' & -> & Hsum & Hall).
      exists bd'. split_and!.
      * f_equal. assert (b = 0) as -> by lia. lia.
      * rewrite Hsum. lia.
      * eapply Forall_impl; [exact Hall|]. simpl.
        intros e (? & ? & ?). split_and!; [done..|by right].
Qed.

Lemma breakdown_of_spec (ds bs : list Z) :
  Forall (λ b, 0 ≤ b) bs → length bs = length ds →
  (breakdown_of ds bs).2 = weighted ds bs * BUNDLE_SIZE ∧
  sum (b_bundles <$> (breakdown_of ds bs).1) = sum bs ∧
  Forall (λ e, 0 < b_bundles e ∧
               b_value e = b_denomination e * b_bundles e * BUNDLE_SIZE ∧
               b_denomination e ∈ ds) (breakdown_of ds bs).1.
Proof.
  intros Hnn Hlen. unfold breakdown_of.
  destruct (breakdown_from ds bs [] 0 Hnn Hlen) as (bd & -> & Hsum & Hall).
  simpl. split_and!; [lia|done..].
Qed.

(** The stock the searches of the handler are given. *)
Lemma or_None_stock (content : gmap Z Z) (l : loc) (s : store)
    (denoms : list Z) :
  dicts s !! l = Some content →
  valid_ref s (or_None content l) ∧
  normalised denoms (caller_stock s (or_None content l))
    = normalised denoms (Some content).
Proof.
  intros Hl. unfold or_None. case_bool_decide as Hc; simpl.
  - rewrite Hl. split; [by eexists|done].
  - split; [done|]. assert (content = ∅) as -> by first [exact Hc|by apply dec_stable].
    by rewrite (left_id_L ∅ (∪)).
Qed.

Lemma sum_app (l k : list Z) : sum (l ++ k) = sum l + sum k.
Proof.
  induction l as [|y l IH]; [done|].
  rewrite <-app_comm_cons, !sum_cons, IH. lia.
Qed.

(** The running total of a breakdown and the values of its entries grow
    together. *)
Lemma breakdown_total (pairs : list (Z * Z)) :
  ∀ state : list breakdown_entry * Z,
    (foldl breakdown_step state pairs).2
      - sum (b_value <$> (foldl breakdown_step state pairs).1)
    = state.2 - sum (b_value <$> state.1).
Proof.
  induction pairs as [|[d c] pairs IH]; intros [bd t]; [done|].
  simpl foldl. rewrite IH. unfold breakdown_step.
  case_bool_decide; [|done]. cbn [fst snd].
  rewrite fmap_app, sum_app. unfold sum at 2. simpl. lia.
Qed.

Lemma breakdown_of_values (ds bs : list Z) :
  sum (b_value <$> (breakdown_of ds bs).1) = (breakdown_of ds bs).2.
Proof.
  unfold breakdown_of.
  pose proof (breakdown_total (zip ds bs) ([], 0)) as H.
  cbn [fst snd fmap list_fmap] in H. change (sum []) with 0 in H. lia.
Qed.

Section web_search.
Context `{PF : PyFloat}.

(** What an answer of status 200 was built from. *)
Lemma optimize_search_inv (amount : Z) (currency : string) (mv : Z)
    (content : gmap Z Z) (s s' : store) (res : optimisation) :
  upper currency = currency →
  (∀ code denoms, currencies s !! code = Some denoms →
                  Forall (λ d, 0 < d) denoms) →
  0 ≤ amount →
  optimize_search amount currency mv content s = (Returned (Json200 res), s') →
  ∃ table,
    currencies s !! currency = Some table ∧
    r_success res = true ∧ r_amount res = amount ∧ r_currency res = currency ∧
    r_bundle_size res = BUNDLE_SIZE ∧ r_block_size res = BLOCK_SIZE ∧
    ((∃ r1, r1 ≠ [] ∧ Z.of_nat (length r1) ≤ mv ∧
        r_has_ideal res = true ∧
        r_variants res = ideal_variant (sorted_reverse table) <$> r1 ∧
        ∀ x, x ∈ r1 →
          1 ≤ x.1 ∧ length x.2 = length table ∧ Forall (λ b, 0 ≤ b) x.2 ∧
          sum x.2 = x.1 * BLOCK_SIZE ∧
          weighted (sorted_reverse table) x.2 * BUNDLE_SIZE = amount) ∨
     (∃ r2, r2 ≠ [] ∧ Z.of_nat (length r2) ≤ mv ∧
        r_has_ideal res = false ∧
        r_variants res = loose_variant (sorted_reverse table) <$> r2 ∧
        ∀ c, c ∈ r2 →
          length c = length table ∧ Forall (λ b, 0 ≤ b) c ∧
          weighted (sorted_reverse table) c * BUNDLE_SIZE = amount)).
Proof.
  intros Hup Htab Ham Hrun. unfold optimize_search in Hrun.
  rewrite W_bind_run in Hrun. unfold run at 1, dict_new in Hrun.
  simpl of_result in Hrun. cbv iota beta zeta in Hrun.
  set (l := fresh (dom (dicts s))) in Hrun.
  set (s0 := {| currencies := currencies s;
                dicts := <[l:=content]> (dicts s) |}) in Hrun.
  rewrite W_bind_run in Hrun. unfold run at 1 in Hrun.
  pose proof (find_ideal_frame amount currency mv (or_None content l) s0)
    as [Hc1 Hd1].
  destruct (find_ideal_block_variants amount currency mv
              (or_None content l) s0) as [[r1|e] s1] eqn:H1;
    simpl of_result in Hrun; cbv iota beta in Hrun; [|discriminate].
  simpl in Hc1, Hd1.
  rewrite W_bind_run in Hrun. unfold run at 1, currencies_getitem in Hrun.
  rewrite Hc1 in Hrun.
  destruct (currencies s !! currency) as [table|] eqn:Ht;
    simpl of_result in Hrun; cbv iota beta in Hrun; [|discriminate].
  exists table. split; [done|].
  assert (currencies s0 !! upper currency = Some table) as Hcur0
    by by rewrite Hup.
  pose proof (Htab _ _ Ht) as Hpos.
  case_bool_decide as Hr1.
  - injection Hrun as <- <-. simpl. split_and!; [done..|]. left.
    exists r1. split_and!; [done| |done|done|].
    + assert ((find_ideal_block_variants amount currency mv
                 (or_None content l) s0).1 = Ok r1) as Hr by by rewrite H1.
      apply find_ideal_inv in Hr as (_ & _ & sorted & _ & _ & _ & Hr).
      apply islice_Ok in Hr as [? ->]. rewrite length_take. lia.
    + intros x Hx.
      destruct (returned_ideal_feasible amount currency mv
                  (or_None content l) s0 table r1 x)
        as (? & ? & ? & ? & ? & _); [done|by rewrite H1|done|done].
  - rewrite W_bind_run in Hrun. unfold run at 1 in Hrun.
    destruct (find_loose_bundle_variants amount currency mv
                (or_None content l) s1) as [[r2|e] s2] eqn:H2;
      simpl of_result in Hrun; cbv iota beta in Hrun; [|discriminate].
    case_bool_decide as Hr2; [|discriminate].
    injection Hrun as <- <-. simpl. split_and!; [done..|]. right.
    exists r2. split_and!; [done| |done|done|].
    + assert ((find_loose_bundle_variants amount currency mv
                 (or_None content l) s1).1 = Ok r2) as Hr by by rewrite H2.
      apply find_loose_inv in Hr as (_ & _ & sorted & _ & _ & _ & Hr).
      apply islice_Ok in Hr as [? ->]. rewrite length_take. lia.
    + intros c Hc.
      destruct (returned_loose_feasible amount currency mv
                  (or_None content l) s1 table r2 c)
        as (? & ? & ? & _); [by rewrite Hc1|done|by left|by rewrite H2|done|done].
Qed.

(** The handler's searches answer an order that passed the checks. *)
Lemma optimize_search_run (amount : Z) (currency : string) (mv : Z)
    (content : gmap Z Z) (s : store) (denoms : list Z) :
  upper currency = currency →
  currencies s !! currency = Some denoms → regular denoms →
  1 ≤ mv ≤ sys_maxsize → amount ≠ 0 →
  ∃ r1 r2 s',
    optimize_search amount currency mv content s =
      (Returned
         (if bool_decide (r1 ≠ []) then
            Json200 {| r_success := true; r_amount := amount;
                       r_currency := currency; r_bundle_size := BUNDLE_SIZE;
                       r_block_size := BLOCK_SIZE; r_has_ideal := true;
                       r_variants :=
                         ideal_variant (sorted_reverse denoms) <$> r1 |}
          else if bool_decide (r2 ≠ []) then
            Json200 {| r_success := true; r_amount := amount;
                       r_currency := currency; r_bundle_size := BUNDLE_SIZE;
                       r_block_size := BLOCK_SIZE; r_has_ideal := false;
                       r_variants :=
                         loose_variant (sorted_reverse denoms) <$> r2 |}
          else Json400 "Cannot fulfill order with given stock"),
       s') ∧
    Z.of_nat (length r1) ≤ mv ∧ Z.of_nat (length r2) ≤ mv ∧
    (r1 = [] ↔
     ¬ ∃ x, feasible_grouped (sorted_reverse denoms)
              (normalised denoms (Some content)) amount x) ∧
    (r2 = [] ↔
     ¬ ∃ c, feasible_loose (sorted_reverse denoms)
              (normalised denoms (Some content)) amount c).
Proof.
  intros Hup Hcur Hreg Hmv Ham. unfold optimize_search.
  rewrite W_bind_run. unfold run at 1, dict_new.
  simpl of_result. cbv iota beta zeta.
  set (l := fresh (dom (dicts s))).
  set (s0 := {| currencies := currencies s;
                dicts := <[l:=content]> (dicts s) |}).
  destruct (or_None_stock content l s0 denoms) as [Hv Hn].
  { simpl. by rewrite lookup_insert_eq. }
  destruct (search_then_fallback amount currency mv (or_None content l) s0
              denoms)
    as (r1 & s1 & r2 & s2 & H1 & H2 & Hl1 & Hl2 & He1 & He2 & Hc1 & Hc2);
    [by rewrite Hup|done..|].
  rewrite Hn in He1, He2.
  rewrite W_bind_run. unfold run at 1. rewrite H1.
  simpl of_result. cbv iota beta.
  rewrite W_bind_run. unfold run at 1, currencies_getitem.
  rewrite Hc1. simpl currencies. rewrite Hcur.
  simpl of_result. cbv iota beta.
  exists r1, r2. case_bool_decide as Hr1.
  - exists s1. done.
  - rewrite W_bind_run. unfold run at 1. rewrite H2.
    simpl of_result. cbv iota beta.
    exists s2. by case_bool_decide.
Qed.

End web_search.

Section web.
Context `{PF : PyFloat} `{PN : !PyNumber} `{PI : PyInt}.

Lemma py_upper_fixed (v : json) (currency : string) :
  py_upper v = Returned currency → upper currency = currency.
Proof. destruct v; try done. intros [= <-]. apply upper_idemp. Qed.

Lemma ideal_variant_sound (ds : list Z) (x : Z * list Z) (amount : Z) :
  1 ≤ x.1 → length x.2 = length ds → Forall (λ b, 0 ≤ b) x.2 →
  sum x.2 = x.1 * BLOCK_SIZE → weighted ds x.2 * BUNDLE_SIZE = amount →
  let v := ideal_variant ds x in
  v_total_value v = amount ∧
  sum (b_value <$> v_breakdown v) = amount ∧
  v_total_bundles v = sum (b_bundles <$> v_breakdown v) ∧
  Forall (λ e, 0 < b_bundles e ∧
               b_value e = b_denomination e * b_bundles e * BUNDLE_SIZE ∧
               b_denomination e ∈ ds) (v_breakdown v) ∧
  v_type v = "ideal" ∧ 1 ≤ v_blocks v ∧
  v_total_bundles v = v_blocks v * BLOCK_SIZE.
Proof.
  intros Hb Hlen Hnn Hsum Hw.
  destruct (breakdown_of_spec ds x.2 Hnn Hlen) as (Ht & Hs & Hall).
  pose proof (breakdown_of_values ds x.2) as Hv.
  destruct x as [b c]. unfold ideal_variant. simpl in *.
  destruct (breakdown_of ds c) as [bd t]. simpl in *.
  split_and!; [congruence|congruence|congruence|done..].
Qed.

Lemma loose_variant_sound (ds c : list Z) (amount : Z) :
  length c = length ds → Forall (λ b, 0 ≤ b) c →
  weighted ds c * BUNDLE_SIZE = amount →
  let v := loose_variant ds c in
  v_total_value v = amount ∧
  sum (b_value <$> v_breakdown v) = amount ∧
  v_total_bundles v = sum (b_bundles <$> v_breakdown v) ∧
  Forall (λ e, 0 < b_bundles e ∧
               b_value e = b_denomination e * b_bundles e * BUNDLE_SIZE ∧
               b_denomination e ∈ ds) (v_breakdown v) ∧
  v_type v = "loose" ∧ v_blocks v = 0.
Proof.
  intros Hlen Hnn Hw.
  destruct (breakdown_of_spec ds c Hnn Hlen) as (Ht & Hs & Hall).
  pose proof (breakdown_of_values ds c) as Hv.
  unfold loose_variant. destruct (breakdown_of ds c) as [bd t]. simpl in *.
  split_and!; [congruence|congruence|congruence|done..].
Qed.

(** X14: an answer of status 200 is right: the order it repeats is
    positive, a whole number of bundles, in a currency of the table; it
    has at least one variant; and in every variant the values of the
    breakdown add up to the amount, which is also the total value stated,
    the bundles of the breakdown add up to the total of bundles, each entry
    has a positive number of bundles of a denomination of the currency and
    their value, and an ideal variant has thirty bundles for each of its
    blocks. *)
Theorem optimize_answer_is_sound (data : json) (s : store)
    (res : optimisation) :
  (∀ code denoms, currencies s !! code = Some denoms →
                  Forall (λ d, 0 < d) denoms) →
  (optimize data s).1 = Json200 res →
  0 < r_amount res ∧ r_amount res `mod` BUNDLE_SIZE = 0 ∧
  r_variants res ≠ [] ∧
  ∃ table,
    currencies s !! r_currency res = Some table ∧
    Forall (λ v,
      sum (b_value <$> v_breakdown v) = r_amount res ∧
      v_total_value v = r_amount res ∧
      v_total_bundles v = sum (b_bundles <$> v_breakdown v) ∧
      Forall (λ e, 0 < b_bundles e ∧
                   b_value e = b_denomination e * b_bundles e * BUNDLE_SIZE ∧
                   b_denomination e ∈ table) (v_breakdown v) ∧
      if r_has_ideal res
      then v_type v = "ideal" ∧ 1 ≤ v_blocks v ∧
           v_total_bundles v = v_blocks v * BLOCK_SIZE
      else v_type v = "loose" ∧ v_blocks v = 0) (r_variants res).
Proof.
  intros Htab Hres. unfold optimize in Hres.
  destruct (optimize_body data s) as [[answer|e] s'] eqn:Hbody;
    simpl in Hres; [|done]. subst answer.
  unfold optimize_body in Hbody.
  rewrite W_bind_run in Hbody. unfold pure at 1 in Hbody.
  destruct (json_get data "amount" (JInt 0) ≫= py_int) as [amount|e];
    cbv iota beta in Hbody; [|done].
  rewrite W_bind_run in Hbody. unfold pure at 1 in Hbody.
  destruct (json_get data "currency" (JStr "USD") ≫= py_upper)
    as [currency|e] eqn:Hc; cbv iota beta in Hbody; [|done].
  rewrite W_bind_run in Hbody. unfold pure at 1 in Hbody.
  destruct (json_get data "stock" (JDict [])) as [stock_data|e];
    cbv iota beta in Hbody; [|done].
  rewrite W_bind_run in Hbody. unfold pure at 1 in Hbody.
  destruct (json_get data "max_variants" (JInt 5) ≫= py_int) as [mv|e];
    cbv iota beta in Hbody; [|done].
  case_bool_decide as Hpos; [done|].
  rewrite W_bind_run in Hbody. cbv iota beta in Hbody.
  case_bool_decide as Hin; [done|].
  case_bool_decide as Hdiv; [done|].
  rewrite W_bind_run in Hbody. unfold pure at 1 in Hbody.
  destruct (if py_bool stock_data then py_items stock_data else Returned [])
    as [items|e]; cbv iota beta in Hbody; [|done].
  rewrite W_bind_run in Hbody. unfold pure at 1 in Hbody.
  destruct (stock_loop items ∅) as [[message|content]|e];
    cbv iota beta in Hbody; [done| |done].
  assert (upper currency = currency) as Hup.
  { destruct (json_get data "currency" (JStr "USD")) as [v|]; [|done].
    by eapply py_upper_fixed. }
  apply optimize_search_inv in Hbody
    as (table & Ht & _ & Ha & Hcu & _ & _ & Hcases); [|done|done|lia].
  rewrite Ha, Hcu. split_and!; [lia|first [exact Hdiv|by apply dec_stable]| |].
  - destruct Hcases as [(r1 & Hne & _ & _ & -> & _)|(r2 & Hne & _ & _ & -> & _)];
      by intros ?%fmap_nil_inv.
  - exists table. split; [done|].
    destruct Hcases as [(r1 & _ & _ & -> & -> & Hall)|(r2 & _ & _ & -> & -> & Hall)];
      apply Forall_fmap, Forall_forall.
    + intros x Hx. destruct (Hall x Hx) as (? & ? & ? & ? & ?).
      destruct (ideal_variant_sound (sorted_reverse table) x amount)
        as (? & ? & ? & Hen & ? & ? & ?);
        [done|by rewrite sorted_reverse_length|done..|].
      simpl. split_and!; try done.
      eapply Forall_impl; [exact Hen|]. simpl.
      intros e (? & ? & Hmem). split_and!; [done..|].
      exact (proj1 (sorted_reverse_elem_of _ _) Hmem).
    + intros c Hc'. destruct (Hall c Hc') as (? & ? & ?).
      destruct (loose_variant_sound (sorted_reverse table) c amount)
        as (? & ? & ? & Hen & ? & ?); [by rewrite sorted_reverse_length|done..|].
      simpl. split_and!; try done.
      eapply Forall_impl; [exact Hen|]. simpl.
      intros e (? & ? & Hmem). split_and!; [done..|].
      exact (proj1 (sorted_reverse_elem_of _ _) Hmem).
Qed.

(** X15: the handler reports whether the order can be met.  For a request
    that reads as a positive amount in whole bundles, a currency of the
    table and a count of variants within range: if the stock admits whole
    blocks the answer has status 200 and holds ideal variants; if it
    admits bundles but no whole blocks the answer has status 200 and holds
    loose variants; otherwise the answer is the error of status 400 that
    the order cannot be fulfilled.  No such request is answered with
    status 500. *)
Theorem optimize_reports_fulfilment (data : json) (s : store) (amount : Z)
    (currency : string) (mv : Z) (content : gmap Z Z) (denoms : list Z) :
  reads_as data amount currency mv content →
  0 < amount → amount `mod` BUNDLE_SIZE = 0 →
  currencies s !! currency = Some denoms → regular denoms →
  1 ≤ mv ≤ sys_maxsize →
  let stock := normalised denoms (Some content) in
  ((∃ x, feasible_grouped (sorted_reverse denoms) stock amount x) →
   ∃ res, (optimize data s).1 = Json200 res ∧ r_has_ideal res = true ∧
          r_variants res ≠ [] ∧ Z.of_nat (length (r_variants res)) ≤ mv) ∧
  ((¬ ∃ x, feasible_grouped (sorted_reverse denoms) stock amount x) →
   (∃ c, feasible_loose (sorted_reverse denoms) stock amount c) →
   ∃ res, (optimize data s).1 = Json200 res ∧ r_has_ideal res = false ∧
          r_variants res ≠ [] ∧ Z.of_nat (length (r_variants res)) ≤ mv) ∧
  ((¬ ∃ c, feasible_loose (sorted_reverse denoms) stock amount c) →
   (optimize data s).1 = Json400 "Cannot fulfill order with given stock").
Proof.
  intros (Ha & Hc & Hm & stock_data & items & Hsd & Hit & Hloop)
    Hpos Hdiv Hcur Hreg Hmv stock.
  assert (upper currency = currency) as Hup.
  { destruct (json_get data "currency" (JStr "USD")) as [v|]; [|done].
    by eapply py_upper_fixed. }
  destruct (optimize_search_run amount currency mv content s denoms)
    as (r1 & r2 & s' & Hrun & Hl1 & Hl2 & He1 & He2); [done..|lia|].
  fold stock in He1, He2.
  remember (optimize data s) as R eqn:HR.
  unfold optimize, optimize_body in HR.
  rewrite W_bind_run in HR. unfold pure at 1 in HR. rewrite Ha in HR.
  cbv iota beta in HR.
  rewrite W_bind_run in HR. unfold pure at 1 in HR. rewrite Hc in HR.
  cbv iota beta in HR.
  rewrite W_bind_run in HR. unfold pure at 1 in HR. rewrite Hsd in HR.
  cbv iota beta in HR.
  rewrite W_bind_run in HR. unfold pure at 1 in HR. rewrite Hm in HR.
  cbv iota beta in HR.
  rewrite bool_decide_eq_false_2 in HR by lia.
  rewrite W_bind_run in HR. cbv iota beta in HR.
  rewrite bool_decide_eq_false_2 in HR.
  2:{ intros Hn. apply Hn, elem_of_dom. by eexists. }
  rewrite bool_decide_eq_false_2 in HR by (by intros ?).
  rewrite W_bind_run in HR. unfold pure at 1 in HR. rewrite Hit in HR.
  cbv iota beta in HR.
  rewrite W_bind_run in HR. unfold pure at 1 in HR. rewrite Hloop in HR.
  cbv iota beta in HR. rewrite Hrun in HR. subst R.
  case_bool_decide as Hr1; [|case_bool_decide as Hr2]; simpl; split_and!.
  - intros _. eexists. split_and!; [done..| |].
    + simpl. by intros ?%fmap_nil_inv.
    + simpl. rewrite length_fmap. lia.
  - intros Hno. by apply He1 in Hno.
  - intros Hno. destruct Hr1. apply He1. intros [x Hx]. apply Hno.
    exists x.2. by apply feasible_grouped_loose.
  - intros Hyes. by apply He1 in Hyes; [|first [exact Hr1|by apply dec_stable]].
  - intros _ _. eexists. split_and!; [done..| |].
    + simpl. by intros ?%fmap_nil_inv.
    + simpl. rewrite length_fmap. lia.
  - intros Hno. by apply He2 in Hno.
  - intros Hyes. by apply He1 in Hyes; [|first [exact Hr1|by apply dec_stable]].
  - intros _ Hyes. by apply He2 in Hyes; [|first [exact Hr2|by apply dec_stable]].
  - done.
Qed.

Lemma dict_get_head (k : string) (v : json) (items : list (string * json))
    (default : json) :
  dict_get ((k, v) :: items) k default = v.
Proof. unfold dict_get. simpl. by rewrite decide_True. Qed.

Lemma dict_get_skip (k k' : string) (v : json) (items : list (string * json))
    (default : json) :
  k ≠ k' → dict_get ((k, v) :: items) k' default = dict_get items k' default.
Proof.
  intros Hne. unfold dict_get. simpl. rewrite decide_False by done.
  by destruct (list_find _ items) as [[i [k0 v0]]|].
Qed.

Lemma items_of_dict (items : list (string * json)) :
  (if py_bool (JDict items) then py_items (JDict items) else Returned [])
  = Returned items.
Proof. simpl. by destruct items. Qed.

Lemma stock_loop_skip (items1 items2 : list (string * json)) (k : string)
    (v : json) (d : Z) : ∀ acc : gmap Z Z,
  int_of_str k = Some d →
  py_bool v = false ∨ (∃ q, py_int v = Returned q ∧ q ≤ 0) →
  stock_loop (items1 ++ (k, v) :: items2) acc = stock_loop (items1 ++ items2) acc.
Proof.
  intros acc Hk Hv. revert acc.
  induction items1 as [|[k1 v1] items1 IH]; intros acc; simpl.
  - rewrite Hk. destruct Hv as [->|(q & Hq & Hle)].
    + by rewrite bool_decide_eq_false_2 by lia.
    + destruct (py_bool v); [rewrite Hq|]; by rewrite bool_decide_eq_false_2 by lia.
  - destruct (int_of_str k1); [|done].
    destruct (if py_bool v1 then py_int v1 else Returned 0); [|done].
    apply IH.
Qed.

Lemma stock_loop_positive (items : list (string * json)) :
  ∀ (acc content : gmap Z Z),
    stock_loop items acc = Returned (inr content) →
    (∀ d q, acc !! d = Some q → 0 < q) →
    ∀ d q, content !! d = Some q → 0 < q.
Proof.
  induction items as [|[k v] items IH]; intros acc content Hrun Hacc; simpl in Hrun.
  - by injection Hrun as <-.
  - destruct (int_of_str k) as [d|]; [|done].
    destruct (if py_bool v then py_int v else Returned 0) as [q|[[]| | | | |]];
      try done.
    eapply IH; [exact Hrun|]. case_bool_decide; [|done].
    intros d' q'. destruct (decide (d' = d)) as [->|Hne].
    + rewrite lookup_insert_eq. intros [= <-]. lia.
    + rewrite lookup_insert_ne by done. apply Hacc.
Qed.

Lemma optimize_stock_only (rest items items' : list (string * json))
    (s : store) :
  stock_loop items ∅ = stock_loop items' ∅ →
  optimize (JDict (("stock", JDict items) :: rest)) s =
  optimize (JDict (("stock", JDict items') :: rest)) s.
Proof.
  intros Hloop. unfold optimize.
  cut (optimize_body (JDict (("stock", JDict items) :: rest)) s =
       optimize_body (JDict (("stock", JDict items') :: rest)) s).
  { by intros ->. }
  unfold optimize_body, json_get.
  rewrite !(dict_get_skip "stock" "amount") by done.
  rewrite !(dict_get_skip "stock" "currency") by done.
  rewrite !(dict_get_skip "stock" "max_variants") by done.
  rewrite !dict_get_head.
  unfold pure, mbind, W_bind, outcome_bind. cbv beta iota.
  rewrite !items_of_dict. cbv beta iota. by rewrite Hloop.
Qed.

(** X16: the handler drops a stock quantity that is zero, negative or
    empty: the answer is the one the request gets without the entry, so
    the denomination counts as unlimited rather than as absent.  The stock
    the searches are given holds positive quantities only. *)
Theorem zero_quantity_is_dropped (rest items1 items2 : list (string * json))
    (k : string) (v : json) (d : Z) (s : store) :
  int_of_str k = Some d →
  py_bool v = false ∨ (∃ q, py_int v = Returned q ∧ q ≤ 0) →
  optimize (JDict (("stock", JDict (items1 ++ (k, v) :: items2)) :: rest)) s =
  optimize (JDict (("stock", JDict (items1 ++ items2)) :: rest)) s ∧
  ∀ items content, stock_loop items ∅ = Returned (inr content) →
    ∀ d' q, content !! d' = Some q → 0 < q.
Proof.
  intros Hk Hv. split.
  - apply optimize_stock_only. by eapply stock_loop_skip.
  - intros items content Hrun. eapply stock_loop_positive; [exact Hrun|].
    intros d' q. by rewrite lookup_empty.
Qed.

End web.

(** ** The order in which the searches find configurations *)

Lemma lex_lt_at (i : nat) : ∀ (x y : list Z) (a b : Z),
  take i x = take i y → x !! i = Some a → y !! i = Some b → a < b →
  lex_lt x y.
Proof.
  induction i as [|i IH]; intros x y a b Ht Hx Hy Hab;
    destruct x as [|h x]; try discriminate; destruct y as [|h' y]; try discriminate.
  - simpl in Hx, Hy. injection Hx as ->. injection Hy as ->. by left.
  - simpl in Ht, Hx, Hy. injection Ht as -> Ht. right. split; [done|].
    by eapply IH.
Qed.

Lemma StronglySorted_seqZ (start len : Z) : StronglySorted Z.lt (seqZ start len).
Proof.
  destruct (decide (0 ≤ len)) as [Hl|Hl].
  - rewrite <-(Z2Nat.id len) by done. generalize (Z.to_nat len). clear.
    intros n. revert start. induction n as [|n IH]; intros start.
    + constructor.
    + rewrite Nat2Z.inj_succ, seqZ_cons by lia. constructor.
      * replace (Z.pred (Z.succ (Z.of_nat n))) with (Z.of_nat n) by lia.
        apply IH.
      * apply Forall_forall. intros x Hx%elem_of_seqZ. lia.
  - unfold seqZ. rewrite Z2Nat.nonpos by lia. constructor.
Qed.

Section order.
Context {X : Type} (cfg : X → list Z).
Implicit Types (st : list Z * list X).

(** The [for b in range(...)] loop of a search: the elements an iteration
    adds have [b] at position [i] after a common beginning, so the
    iterations add them in lexicographic order. *)
Lemma for_each_sorted (i : nat) (p : list Z) (xs : list Z) body st0 :
  StronglySorted Z.lt xs →
  (∀ b st1 st2, b ∈ xs → body b st1 = Ok st2 →
     length st1.1 = length st0.1 → take i st1.1 = take i st0.1 →
     length st2.1 = length st1.1 ∧ take i st2.1 = take i st1.1 ∧
     ∃ ext, st2.2 = st1.2 ++ ext ∧
            StronglySorted (λ x y, lex_lt (cfg x) (cfg y)) ext ∧
            Forall (λ x, take i (cfg x) = p ∧ cfg x !! i = Some b) ext) →
  ∀ st st', length st.1 = length st0.1 → take i st.1 = take i st0.1 →
    for_each xs body st = Ok st' →
    ∃ ext, st'.2 = st.2 ++ ext ∧
           StronglySorted (λ x y, lex_lt (cfg x) (cfg y)) ext ∧
           Forall (λ x, take i (cfg x) = p ∧
                        ∃ b, b ∈ xs ∧ cfg x !! i = Some b) ext.
Proof.
  intros Hxs. induction xs as [|b xs IH]; intros Hbody st st' Hl Ht Hrun.
  - simpl in Hrun. injection Hrun as <-. exists []. rewrite app_nil_r.
    split_and!; [done|constructor|constructor].
  - simpl in Hrun. inv_bind Hrun.
    apply StronglySorted_inv in Hxs as [Hxs Hb].
    destruct (Hbody b st a (list_elem_of_here _ _) Ha Hl Ht)
      as (Hl1 & Ht1 & ext1 & He1 & Hs1 & Hk1).
    destruct (IH Hxs) with (st := a) (st' := st')
      as (ext2 & He2 & Hs2 & Hk2); [|congruence..|done|].
    { intros b' st1 st2 Hb'. apply Hbody. by apply list_elem_of_further. }
    exists (ext1 ++ ext2). split_and!.
    + by rewrite He2, He1, app_assoc.
    + apply StronglySorted_app_2; [|done..].
      intros x y Hx Hy.
      rewrite Forall_forall in Hk1. rewrite Forall_forall in Hk2.
      rewrite Forall_forall in Hb.
      destruct (Hk1 x Hx) as [Hpx Hix].
      destruct (Hk2 y Hy) as [Hpy (b' & Hb' & Hiy)].
      eapply (lex_lt_at i); [congruence|done..|by apply Hb].
    + apply Forall_app. split.
      * eapply Forall_impl; [exact Hk1|]. simpl. intros x [? ?].
        split; [done|]. exists b. split; [left|done].
      * eapply Forall_impl; [exact Hk2|]. simpl. intros x [? (b' & ? & ?)].
        split; [done|]. exists b'. split; [by right|done].
Qed.

Lemma for_each_sorted_run (i : nat) (xs : list Z) body st st' :
  for_each xs body st = Ok st' →
  StronglySorted Z.lt xs →
  (∀ b st1 st2, b ∈ xs → body b st1 = Ok st2 →
     length st1.1 = length st.1 → take i st1.1 = take i st.1 →
     length st2.1 = length st1.1 ∧ take i st2.1 = take i st1.1 ∧
     ∃ ext, st2.2 = st1.2 ++ ext ∧
            StronglySorted (λ x y, lex_lt (cfg x) (cfg y)) ext ∧
            Forall (λ x, take i (cfg x) = take i st.1 ∧
                         cfg x !! i = Some b) ext) →
  ∃ ext, st'.2 = st.2 ++ ext ∧
         StronglySorted (λ x y, lex_lt (cfg x) (cfg y)) ext.
Proof.
  intros Hrun Hxs Hbody.
  destruct (for_each_sorted i (take i st.1) xs body st Hxs Hbody st st')
    as (ext & He & Hsort & _); [done..|]. by exists ext.
Qed.

End order.

Lemma take_eq_le {A : Type} (n m : nat) (a b : list A) :
  (n ≤ m)%nat → take m a = take m b → take n a = take n b.
Proof.
  intros Hn H. replace n with (n `min` m)%nat by lia.
  by rewrite <-!take_take, H.
Qed.

Lemma StronglySorted_range (start stop : Z) :
  StronglySorted Z.lt (range start stop).
Proof. apply StronglySorted_seqZ. Qed.

Lemma StronglySorted_short {A : Type} (R : A → A → Prop) (l : list A) :
  (length l ≤ 1)%nat → StronglySorted R l.
Proof.
  destruct l as [|x [|y l]]; simpl; intros Hl; [constructor| |lia].
  constructor; constructor.
Qed.

(** A call on the last denomination adds at most one configuration. *)
Lemma bundles_leaf_ext (denoms : list Z) (i : nat) (vl : Z)
    (cur : list Z) (out : list (list Z)) (stock : gmap Z Z) st' :
  (d ← list_getitem denoms i;
   let needed := if bool_decide (d = 0) then 0 else vl `div` d in
   if bool_decide (vl = d * needed) then
     s ← dict_getitem stock d;
     if bool_decide (needed ≤ s) then
       cur ← list_setitem cur i needed;
       Ok (cur, out ++ [cur])
     else Ok (cur, out)
   else Ok (cur, out)) = Ok st' →
  ∃ ext, st'.2 = out ++ ext ∧ (length ext ≤ 1)%nat.
Proof.
  intros H. apply bind_Ok in H as (d & _ & H). cbv zeta in H.
  set (n := if bool_decide (d = 0) then 0 else vl `div` d) in *.
  case_bool_decide.
  - apply bind_Ok in H as (s & _ & H). case_bool_decide.
    + apply bind_Ok in H as (cur' & _ & H). injection H as <-. simpl.
      eexists [_]. split; [done|simpl; lia].
    + injection H as <-. exists []. rewrite app_nil_r. split; [done|simpl; lia].
  - injection H as <-. exists []. rewrite app_nil_r. split; [done|simpl; lia].
Qed.

Lemma blocks_leaf_ext (denoms : list Z) (blocks : Z) (i : nat) (bl vl : Z)
    (cur : list Z) (out : list (Z * list Z)) (stock : gmap Z Z) st' :
  (d ← list_getitem denoms i;
   let needed_bundles := if bool_decide (d = 0) then 0 else vl `div` d in
   if bool_decide (vl = d * needed_bundles)
      && bool_decide (needed_bundles = bl) then
     s ← dict_getitem stock d;
     if bool_decide (needed_bundles ≤ s) then
       cur ← list_setitem cur i needed_bundles;
       Ok (cur, out ++ [(blocks, cur)])
     else Ok (cur, out)
   else Ok (cur, out)) = Ok st' →
  ∃ ext, st'.2 = out ++ ext ∧ (length ext ≤ 1)%nat.
Proof.
  intros H. apply bind_Ok in H as (d & _ & H). cbv zeta in H.
  set (n := if bool_decide (d = 0) then 0 else vl `div` d) in *.
  destruct (_ && _).
  - apply bind_Ok in H as (s & _ & H). case_bool_decide.
    + apply bind_Ok in H as (cur' & _ & H). injection H as <-. simpl.
      eexists [_]. split; [done|simpl; lia].
    + injection H as <-. exists []. rewrite app_nil_r. split; [done|simpl; lia].
  - injection H as <-. exists []. rewrite app_nil_r. split; [done|simpl; lia].
Qed.

(** The loose search adds its configurations in lexicographic order. *)
Lemma search_bundles_sorted fuel : ∀ denoms i vl cur out stock st',
  length cur = length denoms →
  _search_bundles fuel denoms i vl cur out stock = Ok st' →
  ∃ ext, st'.2 = out ++ ext ∧ StronglySorted lex_lt ext.
Proof.
  induction fuel as [|fuel IH]; intros denoms i vl cur out stock st' Hlen H;
    cbn [_search_bundles] in H; case_bool_decide as Hi.
  - apply bundles_leaf_ext in H as (ext & He & Hl).
    exists ext. split; [done|]. by apply StronglySorted_short.
  - apply bind_Ok in H as (? & _ & H). apply bind_Ok in H as (? & _ & H).
    by apply bind_Ok in H as (? & _ & H).
  - apply bundles_leaf_ext in H as (ext & He & Hl).
    exists ext. split; [done|]. by apply StronglySorted_short.
  - apply bind_Ok in H as (d & Hd%list_getitem_Ok & H).
    apply bind_Ok in H as (s & Hs%dict_getitem_Ok & H).
    apply bind_Ok in H as (q & [Hd0 ->]%floordiv_Ok & H).
    apply bind_Ok in H as ([curL outL] & Hloop & H).
    apply bind_Ok in H as (cur' & [_ ->]%list_setitem_Ok & H).
    injection H as <-. simpl.
    pose proof (lookup_lt_Some _ _ _ Hd) as Hilt.
    apply (for_each_sorted_run (λ x : list Z, x) i) in Hloop;
      [done|apply StronglySorted_range|].
    intros b [cur1 out1] st2 _ Hbody Hl1 Ht1. simpl in *.
    apply bind_Ok in Hbody as (cur2 & [Hlt ->]%list_setitem_Ok & Hbody).
    pose proof Hbody as Hpost.
    apply search_bundles_post in Hpost as (Hl2 & Ht2 & ext0 & He0 & _ & Hx0);
      [|by rewrite length_insert; congruence].
    apply IH in Hbody as (ext & He & Hsort);
      [|by rewrite length_insert; congruence].
    simpl in *. rewrite He0 in He. apply app_inv_head in He as <-.
    split_and!.
    + by rewrite Hl2, length_insert.
    + rewrite (take_eq_le i (S i) _ _ (Nat.le_succ_diag_r i) Ht2).
      by rewrite take_insert_same.
    + exists ext0. split_and!; [done..|].
      apply Forall_forall. intros x (bs & -> & _)%Hx0.
      rewrite take_S_insert by done. rewrite Ht1, <-app_assoc.
      assert (length (take i cur) = i) as Hti by (rewrite length_take; lia).
      split.
      * by rewrite take_app_length'.
      * rewrite lookup_app_r by lia. by rewrite Hti, Nat.sub_diag.
Qed.

(** The block search adds its configurations in lexicographic order of
    their bundle counts. *)
Lemma search_blocks_sorted fuel : ∀ denoms blocks i bl vl cur out stock st',
  length cur = length denoms →
  _search_blocks fuel denoms blocks i bl vl cur out stock = Ok st' →
  ∃ ext, st'.2 = out ++ ext ∧
         StronglySorted (λ x y : Z * list Z, lex_lt x.2 y.2) ext.
Proof.
  induction fuel as [|fuel IH]; intros denoms blocks i bl vl cur out stock st' Hlen H;
    cbn [_search_blocks] in H; case_bool_decide as Hi.
  - apply blocks_leaf_ext in H as (ext & He & Hl).
    exists ext. split; [done|]. by apply StronglySorted_short.
  - apply bind_Ok in H as (? & _ & H). apply bind_Ok in H as (? & _ & H).
    by apply bind_Ok in H as (? & _ & H).
  - apply blocks_leaf_ext in H as (ext & He & Hl).
    exists ext. split; [done|]. by apply StronglySorted_short.
  - apply bind_Ok in H as (d & Hd%list_getitem_Ok & H).
    apply bind_Ok in H as (s & Hs%dict_getitem_Ok & H).
    apply bind_Ok in H as (q & [Hd0 ->]%floordiv_Ok & H).
    apply bind_Ok in H as ([curL outL] & Hloop & H).
    apply bind_Ok in H as (cur' & [_ ->]%list_setitem_Ok & H).
    injection H as <-. simpl.
    pose proof (lookup_lt_Some _ _ _ Hd) as Hilt.
    apply (for_each_sorted_run (λ x : Z * list Z, x.2) i) in Hloop;
      [done|apply StronglySorted_range|].
    intros b [cur1 out1] st2 _ Hbody Hl1 Ht1. simpl in *.
    apply bind_Ok in Hbody as (cur2 & [Hlt ->]%list_setitem_Ok & Hbody).
    pose proof Hbody as Hpost.
    apply search_blocks_post in Hpost as (Hl2 & Ht2 & ext0 & He0 & _ & Hx0);
      [|by rewrite length_insert; congruence].
    apply IH in Hbody as (ext & He & Hsort);
      [|by rewrite length_insert; congruence].
    simpl in *. rewrite He0 in He. apply app_inv_head in He as <-.
    split_and!.
    + by rewrite Hl2, length_insert.
    + rewrite (take_eq_le i (S i) _ _ (Nat.le_succ_diag_r i) Ht2).
      by rewrite take_insert_same.
    + exists ext0. split_and!; [done..|].
      apply Forall_forall. intros x (bs & -> & _)%Hx0. simpl.
      rewrite take_S_insert by done. rewrite Ht1, <-app_assoc.
      assert (length (take i cur) = i) as Hti by (rewrite length_take; lia).
      split.
      * by rewrite take_app_length'.
      * rewrite lookup_app_r by lia. by rewrite Hti, Nat.sub_diag.
Qed.

Lemma enumerate_loose_sorted amount denoms stock raw :
  _enumerate_loose_configs amount denoms stock = Ok raw →
  StronglySorted lex_lt raw.
Proof.
  unfold _enumerate_loose_configs. case_bool_decide.
  - intros [= <-]. constructor.
  - cbv zeta. intros ([curL out] & Hs & [= <-])%bind_Ok.
    apply search_bundles_sorted in Hs as (ext & He & Hsort);
      [|by rewrite length_replicate].
    simpl in He. by subst out.
Qed.

(** The block counts are tried in increasing order, so the ideal
    configurations come out by block count first. *)
Lemma blocks_loop_sorted denoms units total stock bs :
  StronglySorted Z.lt bs →
  ∀ cur sols st', length cur = length denoms →
    blocks_loop denoms units total stock bs cur sols = Ok st' →
    ∃ ext, st'.2 = sols ++ ext ∧
           StronglySorted (λ x y : Z * list Z,
             x.1 < y.1 ∨ (x.1 = y.1 ∧ lex_lt x.2 y.2)) ext ∧
           Forall (λ x, x.1 ∈ bs) ext.
Proof.
  intros Hsort.
  induction Hsort as [|b bs Hbs IH Hb]; intros cur sols st' Hl H; simpl in H.
  - injection H as <-. exists []. rewrite app_nil_r.
    split_and!; [done|constructor|constructor].
  - case_bool_decide.
    { injection H as <-. exists []. rewrite app_nil_r.
      split_and!; [done|constructor|constructor]. }
    apply bind_Ok in H as ([cur1 sols1] & Hs & H).
    pose proof Hs as Hpost.
    apply search_blocks_post in Hpost as (Hl1 & _ & ext0 & He0 & _ & Hx0);
      [|done].
    apply search_blocks_sorted in Hs as (ext1 & He1 & Hs1); [|done].
    simpl in *. rewrite He0 in He1. apply app_inv_head in He1 as <-.
    apply IH in H as (ext2 & He2 & Hs2 & Hk2); [|congruence].
    exists (ext0 ++ ext2). split_and!.
    + by rewrite He2, He0, app_assoc.
    + apply StronglySorted_app_2.
      * intros x y (bx & -> & _)%Hx0 Hy. left. simpl.
        rewrite Forall_forall in Hk2. rewrite Forall_forall in Hb.
        by apply Hb, Hk2.
      * eapply StronglySorted_weaken; [|exact Hs1].
        intros x y (bx & -> & _)%Hx0 (by' & -> & _)%Hx0 Hlt. right. done.
      * done.
    + apply Forall_app. split.
      * apply Forall_forall. intros x (bx & -> & _)%Hx0. left.
      * eapply Forall_impl; [exact Hk2|]. intros x Hx. by right.
Qed.

Lemma enumerate_ideal_sorted amount denoms stock raw :
  _enumerate_ideal_configs amount denoms stock = Ok raw →
  StronglySorted (λ x y : Z * list Z,
    x.1 < y.1 ∨ (x.1 = y.1 ∧ lex_lt x.2 y.2)) raw.
Proof.
  unfold _enumerate_ideal_configs. case_bool_decide as Hmod.
  - intros [= <-]. constructor.
  - cbv zeta. intros H.
    apply bind_Ok in H as (m & Hm & H).
    apply bind_Ok in H as (q & _ & H).
    apply bind_Ok in H as (total & Htot & H).
    apply bind_Ok in H as ([curL sols] & Hloop & [= <-]).
    apply blocks_loop_sorted in Hloop as (ext & He & Hsort & _);
      [|apply StronglySorted_range|by rewrite length_replicate].
    simpl in He. by subst sols.
Qed.

Section ties.
Context `{PF : PyFloat}.

(** X17.  Ties between loose variants are broken lexicographically: when
    [find_loose_bundle_variants] lists a variant before another one whose
    score is not larger, its bundle counts, read from the largest
    denomination down, are the lexicographically smaller ones. *)
Theorem loose_ties_lexicographic (amount : Z) (code : string) (mv : Z)
    (bs : option loc) (s : store) (denoms : list Z) (r : list (list Z))
    (x y : list Z) (kx ky : score) :
  (find_loose_bundle_variants amount code mv bs s).1 = Ok r →
  currencies s !! upper code = Some denoms →
  before x y r →
  _score_loose x denoms = Ok kx → _score_loose y denoms = Ok ky →
  score_lt kx ky = false →
  lex_lt x y.
Proof.
  intros (denoms' & raw & sorted & Hc & Hraw & Hs & [_ ->]%islice_Ok)%find_loose_inv
    Hcur Hb Hx Hy Hlt.
  assert (denoms' = denoms) as -> by congruence.
  apply before_take in Hb.
  eapply StronglySorted_before; [by eapply enumerate_loose_sorted|].
  by eapply (list_sort_stable _ _ _ x y kx ky Hs).
Qed.

(** X18.  Ties between ideal variants are broken lexicographically: when
    [find_ideal_block_variants] lists a variant before another one whose
    score is not larger, the two have the same number of blocks and the
    bundle counts of the first, read from the largest denomination down,
    are the lexicographically smaller ones. *)
Theorem ideal_ties_lexicographic (amount : Z) (code : string) (mv : Z)
    (bs : option loc) (s : store) (denoms : list Z)
    (r : list (Z * list Z)) (x y : Z * list Z) (kx ky : score) :
  (find_ideal_block_variants amount code mv bs s).1 = Ok r →
  currencies s !! upper code = Some denoms →
  before x y r →
  _score_ideal x.1 x.2 denoms = Ok kx → _score_ideal y.1 y.2 denoms = Ok ky →
  score_lt kx ky = false →
  x.1 = y.1 ∧ lex_lt x.2 y.2.
Proof.
  intros (denoms' & raw & sorted & Hc & Hraw & Hs & [_ ->]%islice_Ok)%find_ideal_inv
    Hcur Hb Hx Hy Hlt.
  assert (denoms' = denoms) as -> by congruence.
  apply before_take in Hb.
  pose proof (list_sort_stable _ _ _ x y kx ky Hs Hb Hx Hy Hlt) as Hraw'.
  pose proof (StronglySorted_before _ _ _ _
    (enumerate_ideal_sorted _ _ _ _ Hraw) Hraw') as [Hblocks|[Hblocks Hlex]];
    [|done].
  apply score_ideal_Ok in Hx as [_ ->]. apply score_ideal_Ok in Hy as [_ ->].
  simpl in Hlt. rewrite bool_decide_eq_false_2 in Hlt by lia. simpl in Hlt.
  apply bool_decide_eq_false in Hlt. lia.
Qed.
End ties.

(** ** The further theorems at concrete inputs *)

Lemma str_limit_large : 10 ^ 18 ≤ str_limit.
Proof.
  unfold str_limit, int_max_str_digits. apply Z.pow_le_mono_r; lia.
Qed.

Lemma describe_ideal_states_the_order_witness :
  ∃ rows,
    _describe_ideal DENOM_COLOURS 1 [0; 0; 0; 30] (sorted_reverse usd) =
      Ok (String.concat NL
            ([pretty 1 +:+ " ideal block(s) = " +:+ pretty (sum [0; 0; 0; 30])
                +:+ " bundles"]
             ++ rows ++ ["TOTAL: " +:+ thousands (pretty 30000)])) ∧
    Z.of_nat (length rows) = kinds_of [0; 0; 0; 30].
Proof.
  apply (describe_ideal_states_the_order (H := Q_float) 30000 "usd" 5
           (Some 1%positive) (store_with small_stock) usd DENOM_COLOURS
           eq_refl (proj1 (proj1 (CURRENCIES_regular "USD" usd eq_refl)))
           ltac:(pose proof str_limit_large; lia)
           [(1, [0; 0; 0; 30])] (1, [0; 0; 0; 30])).
  - vm_compute. reflexivity.
  - constructor.
Defined.

Lemma describe_loose_states_the_order_witness :
  ∃ rows,
    _describe_loose DENOM_COLOURS [1; 0; 0; 0] (sorted_reverse usd) =
      Ok (String.concat NL
            (["No ideal blocks – " +:+ pretty (sum [1; 0; 0; 0])
                +:+ " bundle(s)"]
             ++ rows ++ ["TOTAL: " +:+ thousands (pretty 10000)])) ∧
    Z.of_nat (length rows) = kinds_of [1; 0; 0; 0].
Proof.
  apply (describe_loose_states_the_order (H := Q_float) 10000 "usd" 1
           (Some 1%positive) (store_with small_stock) usd DENOM_COLOURS
           eq_refl (proj1 (proj1 (CURRENCIES_regular "USD" usd eq_refl)))
           ltac:(left; lia) ltac:(pose proof str_limit_large; lia)
           [[1; 0; 0; 0]] [1; 0; 0; 0]).
  - vm_compute. reflexivity.
  - constructor.
Defined.

Lemma parsed_stock_is_valid_witness :
  (∀ d q, scenario_B_stock !! d = Some q → d ∈ usd ∧ 0 ≤ q) ∧
  ("100=18,50=40" ≠ "" → scenario_B_stock ≠ ∅).
Proof.
  apply (parsed_stock_is_valid (PI := decimal_int) "100=18,50=40" usd).
  vm_compute. reflexivity.
Defined.

Lemma parse_stock_arg_concat_witness :
  _parse_stock_arg (PI := decimal_int) ("100=18" +:+ "," +:+ "50=40") usd =
  (m1 ← _parse_stock_arg (PI := decimal_int) "100=18" usd;
   m2 ← _parse_stock_arg (PI := decimal_int) "50=40" usd;
   Returned (m2 ∪ m1)).
Proof.
  apply (parse_stock_arg_concat (PI := decimal_int) "100=18" "50=40" usd);
    discriminate.
Defined.

Lemma sample_within_stock :
  within_stock (normalised usd (Some (<[10 := 30]> ∅))) (sorted_reverse usd)
    [0; 0; 0; 30].
Proof.
  intros i d ci Hd Hc.
  destruct i as [|[|[|[|i]]]]; simpl in Hd, Hc; try discriminate;
    injection Hd as <-; injection Hc as <-.
  - exists _INFTY. split; [vm_compute; reflexivity|unfold _INFTY; lia].
  - exists _INFTY. split; [vm_compute; reflexivity|unfold _INFTY; lia].
  - exists _INFTY. split; [vm_compute; reflexivity|unfold _INFTY; lia].
  - exists 30. split; [vm_compute; reflexivity|lia].
Qed.

Lemma sample_feasible :
  feasible_grouped (sorted_reverse usd)
    (normalised usd (Some (<[10 := 30]> ∅))) 30000 (1, [0; 0; 0; 30]).
Proof.
  split_and!; [simpl; lia|reflexivity|repeat constructor; lia|reflexivity
              |reflexivity|apply sample_within_stock].
Qed.

Lemma main_reports_fulfilment_witness :
  ∃ h bs variants texts,
    (find_ideal_block_variants (H := Q_float) 30000 "USD" 5 bs h).1
      = Ok variants ∧
    variants ≠ [] ∧
    Forall2 (λ x t, _describe_ideal DENOM_COLOURS x.1 x.2 (sorted_reverse usd)
                    = Ok t) variants texts ∧
    (main (PF := Q_float) (PI := decimal_int) sample_args initial_process).1
      = Returned () ∧
    stdout (main (PF := Q_float) (PI := decimal_int) sample_args
              initial_process).2
      = stdout initial_process +:+ String.concat descr texts +:+ NL.
Proof.
  destruct (proj1 (main_reports_fulfilment (PF := Q_float) (PI := decimal_int)
                     sample_args initial_process usd
                     (Some (<[10 := 30]> ∅)) eq_refl
                     (proj1 (CURRENCIES_regular "USD" usd eq_refl))
                     ltac:(simpl; pose proof str_limit_large; lia)
                     ltac:(simpl; unfold sys_maxsize; lia)
                     ltac:(eexists; split; [vm_compute|]; reflexivity))
              ltac:(eexists; exact sample_feasible))
    as (h & bs & variants & texts & _ & Hfind & Hne & _ & Hdescr & _ & Hret
        & Hout).
  exists h, bs, variants, texts.
  split_and!; [exact Hfind|exact Hne|exact Hdescr|exact Hret|exact Hout].
Defined.

Lemma optimize_answer_is_sound_witness :
  0 < r_amount sample_answer ∧ r_amount sample_answer `mod` BUNDLE_SIZE = 0 ∧
  r_variants sample_answer ≠ [] ∧
  ∃ table,
    currencies initial_store !! r_currency sample_answer = Some table ∧
    Forall (λ v,
      sum (b_value <$> v_breakdown v) = r_amount sample_answer ∧
      v_total_value v = r_amount sample_answer ∧
      v_total_bundles v = sum (b_bundles <$> v_breakdown v) ∧
      Forall (λ e, 0 < b_bundles e ∧
                   b_value e = b_denomination e * b_bundles e * BUNDLE_SIZE ∧
                   b_denomination e ∈ table) (v_breakdown v) ∧
      if r_has_ideal sample_answer
      then v_type v = "ideal" ∧ 1 ≤ v_blocks v ∧
           v_total_bundles v = v_blocks v * BLOCK_SIZE
      else v_type v = "loose" ∧ v_blocks v = 0) (r_variants sample_answer).
Proof.
  apply (optimize_answer_is_sound (PN := Q_number) (PI := decimal_int)
           sample_request initial_store sample_answer).
  - intros code denoms Hc.
    exact (proj1 (proj1 (CURRENCIES_regular code denoms Hc))).
  - vm_compute. reflexivity.
Defined.

Lemma optimize_reports_fulfilment_witness :
  ∃ res,
    (optimize (PN := Q_number) (PI := decimal_int)
       (JDict [("amount", JInt 30000); ("stock", JDict [("10", JStr "30")])])
       initial_store).1 = Json200 res ∧
    r_has_ideal res = true ∧ r_variants res ≠ [] ∧
    Z.of_nat (length (r_variants res)) ≤ 5.
Proof.
  apply (proj1 (optimize_reports_fulfilment (PN := Q_number)
                  (PI := decimal_int)
                  (JDict [("amount", JInt 30000);
                          ("stock", JDict [("10", JStr "30")])])
                  initial_store 30000 "USD" 5 (<[10 := 30]> ∅) usd
                  ltac:(split_and!; [reflexivity..|];
                        exists (JDict [("10", JStr "30")]), [("10", JStr "30")];
                        split_and!; vm_compute; reflexivity)
                  ltac:(lia) eq_refl eq_refl
                  (proj1 (CURRENCIES_regular "USD" usd eq_refl))
                  ltac:(unfold sys_maxsize; lia))).
  eexists. exact sample_feasible.
Defined.

Lemma zero_quantity_is_dropped_witness :
  optimize (PN := Q_number) (PI := decimal_int)
    (JDict (("stock", JDict ([] ++ ("20", JStr "0") :: []))
            :: [("amount", JInt 35000)])) initial_store =
  optimize (PN := Q_number) (PI := decimal_int)
    (JDict (("stock", JDict ([] ++ [])) :: [("amount", JInt 35000)]))
    initial_store.
Proof.
  apply (proj1 (zero_quantity_is_dropped (PN := Q_number) (PI := decimal_int)
                  [("amount", JInt 35000)] [] [] "20" (JStr "0") 20
                  initial_store eq_refl
                  (or_intror (ex_intro _ 0 (conj eq_refl (Z.le_refl 0)))))).
Defined.

Lemma loose_ties_lexicographic_witness : lex_lt [0; 2; 1; 0] [1; 0; 0; 2].
Proof.
  eapply (loose_ties_lexicographic (PF := Q_float) 12000 "usd" 10
            (Some 1%positive)
            (store_with (<[100 := 1]> (<[50 := 2]> (<[20 := 1]> (<[10 := 2]> ∅)))))
            usd [[1; 0; 1; 0]; [0; 2; 1; 0]; [1; 0; 0; 2]; [0; 2; 0; 2]]).
  - vm_compute. reflexivity.
  - reflexivity.
  - by exists [[1; 0; 1; 0]], [], [[0; 2; 0; 2]].
  - vm_compute. reflexivity.
  - vm_compute. reflexivity.
  - vm_compute. reflexivity.
Defined.

Lemma ideal_ties_lexicographic_witness :
  (1, [0; 0; 4; 26]).1 = (1, [0; 1; 0; 29]).1 ∧
  lex_lt (1, [0; 0; 4; 26]).2 (1, [0; 1; 0; 29]).2.
Proof.
  eapply (ideal_ties_lexicographic (PF := Q_float) 34000 "usd" 10
            (Some 1%positive)
            (store_with (<[100 := 0]> (<[50 := 1]> (<[20 := 4]> (<[10 := 29]> ∅)))))
            usd [(1, [0; 0; 4; 26]); (1, [0; 1; 0; 29])]).
  - vm_compute. reflexivity.
  - reflexivity.
  - by exists [], [], [].
  - vm_compute. reflexivity.
  - vm_compute. reflexivity.
  - vm_compute. reflexivity.
Defined.
